(** * TiFlash configuration synthesis (pkg/manager/member/tiflash_util.go)

    A shallow embedding of the TiFlash config synthesizer of tidb-operator:
    the two dialect synthesizers [getTiFlashConfig] (legacy) and
    [getTiFlashConfigV2] (current), the version dispatch [GetTiFlashConfig],
    and the log-tailer sidecar builder [buildTiFlashSidecarContainers].

    Two layers are given.  The value layer treats a config document as a
    finite map and every synthesizer as a function on documents.  The store
    layer keeps documents behind pointers in an explicit heap, so that the
    copy made on entry and the in-place updates that follow are visible. *)

From stdpp Require Import gmap strings list fin_maps pretty.
From Stdlib Require Import ZArith Ascii.

Local Open Scope string_scope.

(** ** Config documents *)

(** The values a document stores: the Go code writes strings, [int64]s, a
    float, booleans and string slices. *)
Inductive Value :=
  | VString (s : string)
  | VInt (n : Z)
  | VFloat (mantissa exponent : Z)   (* the decimal literal m * 10^e *)
  | VBool (b : bool)
  | VStrings (l : list string).

#[global] Instance Value_eq_dec : EqDecision Value.
Proof. solve_decision. Defined.

(** Left-to-right application, so that a run of updates reads in the order
    the Go statements are written. *)
Notation "c |> f" := (f c) (at level 45, left associativity, only parsing).

Module GenericConfig.

(** Modelled from the spec: the document wrapper ([GenericConfig] and its
    [Get]/[Set]/[SetIfNil]/[Del] methods) is not among the sources.  The
    spec describes it as a mapping from dotted key path to typed value,
    with unique keys: [Get] is a lookup that mutates nothing. *)
Definition Get (key : string) (c : gmap string Value) : option Value :=
  c !! key.

(** Modelled from the spec: [set(path, value)] is an unconditional
    overwrite. *)
Definition Set_ (key : string) (value : Value) (c : gmap string Value)
  : gmap string Value :=
  <[key := value]> c.

(** Modelled from the spec: [setIfAbsent(path, value)] writes only when
    [get(path)] is absent. *)
Definition SetIfNil (key : string) (value : Value) (c : gmap string Value)
  : gmap string Value :=
  match Get key c with
  | Some _ => c
  | None => Set_ key value c
  end.

(** Modelled from the spec: [delete(path)] removes a key if present and
    is silent when it is absent. *)
Definition Del (key : string) (c : gmap string Value) : gmap string Value :=
  delete key c.

Inductive error := TypeMismatch.

(** What a call that can fail gives back: a result, the error value it
    returns, or a nil-pointer panic. *)
Inductive result (A : Type) :=
  | Ok (a : A)
  | Err (e : error)
  | Panic.
Arguments Ok {A}.
Arguments Err {A}.
Arguments Panic {A}.

Definition bind {A B} (r : result A) (k : A → result B) : result B :=
  match r with
  | Ok a => k a
  | Err e => Err e
  | Panic => Panic
  end.

(** Modelled from the spec: [get(path).asType()] fails with TypeMismatch
    when the stored value is not of the requested type.  [Get] hands out
    a pointer, nil for an absent key; reading through nil panics. *)
Definition AsString (v : option Value) : result string :=
  match v with
  | Some (VString s) => Ok s
  | Some _ => Err TypeMismatch
  | None => Panic
  end.

End GenericConfig.
Import GenericConfig.

Notation "x <- r ;; k" := (bind r (λ x, k))
  (at level 100, r at next level, right associativity, only parsing).

(** [TiFlashConfigWraper]: the engine document ([Common]) and the proxy
    document ([Proxy]), each behind a pointer that may be nil. *)
Record TiFlashConfigWraper := mkTiFlashConfigWraper {
  Common : option (gmap string Value);
  Proxy : option (gmap string Value);
}.

(** [v1alpha1.NewTiFlashConfig()], [NewTiFlashCommonConfig()] and
    [NewTiFlashProxyConfig()]: a wrapper with both documents nil, and an
    empty document. *)
Definition NewTiFlashConfig : TiFlashConfigWraper :=
  {| Common := None; Proxy := None |}.
Definition NewTiFlashCommonConfig : gmap string Value := ∅.
Definition NewTiFlashProxyConfig : gmap string Value := ∅.

(** ** The cluster object *)

Record TidbClusterRef := mkTidbClusterRef {
  ref_Name : string;
  ref_Namespace : string;
  ref_ClusterDomain : string;
}.

Record StorageClaim := mkStorageClaim {
  StorageClassName : option string;
}.

Record ResourceRequirements := mkResourceRequirements {
  Limits : list (string * string);
  Requests : list (string * string);
}.

Record LogTailerSpec := mkLogTailerSpec {
  lt_ResourceRequirements : ResourceRequirements;
}.

(** [tc.Spec.TiFlash].  The type [C] is what the [Config] pointer refers
    to: a [TiFlashConfigWraper] in the value layer, a heap location in the
    store layer. *)
Record TiFlashSpec (C : Type) := mkTiFlashSpec {
  Config : option C;
  StorageClaims : list StorageClaim;
  LogTailer : option LogTailerSpec;
}.
Arguments mkTiFlashSpec {C}.
Arguments Config {C}.
Arguments StorageClaims {C}.
Arguments LogTailer {C}.

Record TidbClusterSpec (C : Type) := mkTidbClusterSpec {
  ClusterDomain : string;
  Cluster : option TidbClusterRef;
  PreferIPv6 : bool;
  TiFlash : TiFlashSpec C;
}.
Arguments mkTidbClusterSpec {C}.
Arguments ClusterDomain {C}.
Arguments Cluster {C}.
Arguments PreferIPv6 {C}.
Arguments TiFlash {C}.

(** Modelled from the spec: the methods [TiFlashVersion], [AcrossK8s],
    [WithoutLocalPD], [WithoutLocalTiDB], [IsTLSClusterEnabled],
    [HelperImage] and [HelperImagePullPolicy] of the cluster object are not
    among the sources.  The spec lists what they return as input facts of
    one synthesis call (engine version string, across-Kubernetes-clusters,
    no-local-placement-service, no-local-compute-tier, TLS-enabled), so
    they are fields here.  The flag [heterogeneous] is the spec's input
    fact of that name, which it lists beside the optional
    reference-cluster descriptor [tc.Spec.Cluster], not as a function of
    it. *)
Record TidbCluster (C : Type) := mkTidbCluster {
  Name : string;
  Namespace : string;
  Spec : TidbClusterSpec C;
  TiFlashVersion : string;
  heterogeneous : bool;
  AcrossK8s : bool;
  WithoutLocalPD : bool;
  WithoutLocalTiDB : bool;
  IsTLSClusterEnabled : bool;
  HelperImage : string;
  HelperImagePullPolicy : string;
}.
Arguments mkTidbCluster {C}.
Arguments Name {C}.
Arguments Namespace {C}.
Arguments Spec {C}.
Arguments TiFlashVersion {C}.
Arguments heterogeneous {C}.
Arguments AcrossK8s {C}.
Arguments WithoutLocalPD {C}.
Arguments WithoutLocalTiDB {C}.
Arguments IsTLSClusterEnabled {C}.
Arguments HelperImage {C}.
Arguments HelperImagePullPolicy {C}.

(** Modelled from the spec: [tc.Heterogeneous()] is not among the sources.
    The spec has heterogeneous as a flag of the topology, separate from
    the optional reference-cluster descriptor, and calls a cluster
    heterogeneous when it borrows components from the reference cluster.
    The method answers with the flag, and only for a cluster that has the
    descriptor it borrows from: a cluster may carry a descriptor without
    being heterogeneous, not the other way round. *)
Definition Heterogeneous {C} (tc : TidbCluster C) : bool :=
  heterogeneous tc && bool_decide (is_Some (Cluster (Spec tc))).

(** The cluster [tc] with the pointer [tc.Spec.TiFlash.Config] replaced. *)
Definition withConfig {C D} (tc : TidbCluster C) (cfg : option D)
  : TidbCluster D :=
  {| Name := Name tc;
     Namespace := Namespace tc;
     Spec :=
       {| ClusterDomain := ClusterDomain (Spec tc);
          Cluster := Cluster (Spec tc);
          PreferIPv6 := PreferIPv6 (Spec tc);
          TiFlash :=
            {| Config := cfg;
               StorageClaims := StorageClaims (TiFlash (Spec tc));
               LogTailer := LogTailer (TiFlash (Spec tc)) |} |};
     TiFlashVersion := TiFlashVersion tc;
     heterogeneous := heterogeneous tc;
     AcrossK8s := AcrossK8s tc;
     WithoutLocalPD := WithoutLocalPD tc;
     WithoutLocalTiDB := WithoutLocalTiDB tc;
     IsTLSClusterEnabled := IsTLSClusterEnabled tc;
     HelperImage := HelperImage tc;
     HelperImagePullPolicy := HelperImagePullPolicy tc |}.

(** ** What the synthesizer takes from other packages

    The member-name helpers of package [controller], the certificate mount
    path of package [member] and [path.Join] are used by the synthesizer
    but defined elsewhere.  Nothing below depends on what they return, so
    they are an interface. *)
Class Externals := {
  TiDBMemberName : string → string;
  TiDBPeerMemberName : string → string;
  PDMemberName : string → string;
  TiFlashMemberName : string → string;
  TiFlashPeerMemberName : string → string;
  FormatClusterDomain : string → string;
  tiflashCertPath : string;
  path_Join : string → string → string;
  ContainerResource : ResourceRequirements → ResourceRequirements;
}.

(** [corev1.ServiceAccountRootCAKey], [corev1.TLSCertKey] and
    [corev1.TLSPrivateKeyKey]. *)
Definition ServiceAccountRootCAKey : string := "ca.crt".
Definition TLSCertKey : string := "tls.crt".
Definition TLSPrivateKeyKey : string := "tls.key".

Definition defaultClusterLog : string := "/data0/logs/flash_cluster_manager.log".
Definition defaultErrorLog : string := "/data0/logs/error.log".
Definition defaultServerLog : string := "/data0/logs/server.log".
Definition listenHostForIPv4 : string := "0.0.0.0".
Definition listenHostForIPv6 : string := "[::]".

(** ** The synthesizers, on documents as values

    A Go function that updates the document behind its first argument is a
    function from documents to documents here; the document is the last
    argument, so that calls chain with [|>]. *)
Section Synthesis.
Context `{Externals}.

(** The [i]-th entry of [paths]: [fmt.Sprintf("/data%d/db", i)]. *)
Definition dataPath (i : nat) : string := "/data" ++ pretty i ++ "/db".

(** [for i := range tc.Spec.TiFlash.StorageClaims { paths = append(...) }] *)
Definition storagePaths (claims : list StorageClaim) : list string :=
  imap (λ i _, dataPath i) claims.

(** [ref.Name], [ref.Namespace], [ref.ClusterDomain] for the pointer
    [ref := tc.Spec.Cluster.DeepCopy()].  Go panics when [ref] is nil;
    the current dialect reads [ref] only under [tc.Heterogeneous()],
    where it is not nil (lemma [Heterogeneous_deref] below). *)
Definition deref (ref : option TidbClusterRef) : TidbClusterRef :=
  default (mkTidbClusterRef "" "" "") ref.

Definition setTiFlashFlashConfigDefault (ref : option TidbClusterRef)
    (clusterName ns clusterDomain listenHost : string)
    (noLocalTiDB acrossK8s : bool) (config : gmap string Value)
  : gmap string Value :=
  let tidbStatusAddr := TiDBMemberName clusterName ++ "." ++ ns ++ ".svc:10080" in
  let tidbStatusAddr :=
    if noLocalTiDB then
      match ref with
      | Some ref =>
          if acrossK8s then
            (* use headless service of TiDB in reference cluster *)
            TiDBPeerMemberName (ref_Name ref) ++ "." ++ ref_Namespace ref
              ++ ".svc" ++ FormatClusterDomain (ref_ClusterDomain ref) ++ ":10080"
          else
            (* use service of TiDB in reference cluster *)
            TiDBMemberName (ref_Name ref) ++ "." ++ ref_Namespace ref
              ++ ".svc" ++ FormatClusterDomain (ref_ClusterDomain ref) ++ ":10080"
      | None => tidbStatusAddr
      end
    else tidbStatusAddr in
  config
    |> SetIfNil "flash.tidb_status_addr" (VString tidbStatusAddr)
    |> SetIfNil "flash.service_addr" (VString (listenHost ++ ":3930"))
    |> SetIfNil "flash.overlap_threshold" (VFloat 6 (-1))
    |> SetIfNil "flash.compact_log_min_period" (VInt 200)
    (* set flash_cluster *)
    |> SetIfNil "flash.flash_cluster.cluster_manager_path"
         (VString "/tiflash/flash_cluster_manager")
    |> SetIfNil "flash.flash_cluster.log" (VString defaultClusterLog)
    |> SetIfNil "flash.flash_cluster.refresh_interval" (VInt 20)
    |> SetIfNil "flash.flash_cluster.update_rule_interval" (VInt 10)
    |> SetIfNil "flash.flash_cluster.master_ttl" (VInt 60)
    (* set proxy *)
    |> SetIfNil "flash.proxy.addr" (VString (listenHost ++ ":20170"))
    |> SetIfNil "flash.proxy.advertise-addr"
         (VString (TiFlashMemberName clusterName ++ "-POD_NUM."
                     ++ TiFlashPeerMemberName clusterName ++ "." ++ ns ++ ".svc"
                     ++ FormatClusterDomain clusterDomain ++ ":20170"))
    |> SetIfNil "flash.proxy.data-dir" (VString "/data0/proxy")
    |> SetIfNil "flash.proxy.config" (VString "/data0/proxy.toml").

Definition setTiFlashLoggerConfigDefault (config : gmap string Value)
  : gmap string Value :=
  config
    |> SetIfNil "logger.errorlog" (VString defaultErrorLog)
    |> SetIfNil "logger.size" (VString "100M")
    |> SetIfNil "logger.log" (VString defaultServerLog)
    |> SetIfNil "logger.level" (VString "information")
    |> SetIfNil "logger.count" (VInt 10).

Definition setTiFlashApplicationConfigDefault (config : gmap string Value)
  : gmap string Value :=
  config |> SetIfNil "application.runAsDaemon" (VBool true).

Definition setTiFlashRaftConfigDefault (ref : option TidbClusterRef)
    (clusterName ns clusterDomain : string) (noLocalPD acrossK8s : bool)
    (config : gmap string Value) : gmap string Value :=
  let config :=
    config
      |> SetIfNil "raft.kvstore_path" (VString "/data0/kvstore")
      |> SetIfNil "raft.storage_engine" (VString "dt") in
  if acrossK8s then
    (* get pd addr from discovery in startup script *)
    config |> SetIfNil "raft.pd_addr" (VString "PD_ADDR")
  else
    match ref, noLocalPD with
    | Some ref, true =>
        config |> SetIfNil "raft.pd_addr"
          (VString (PDMemberName (ref_Name ref) ++ "." ++ ref_Namespace ref
                      ++ ".svc" ++ FormatClusterDomain (ref_ClusterDomain ref)
                      ++ ":2379"))
    | _, _ =>
        config |> SetIfNil "raft.pd_addr"
          (VString (PDMemberName clusterName ++ "." ++ ns ++ ".svc:2379"))
    end.

Definition setTiFlashCommonConfigDefault (ref : option TidbClusterRef)
    (clusterName ns clusterDomain listenHost : string)
    (noLocalPD noLocalTiDB acrossK8s : bool) (config : gmap string Value)
  : gmap string Value :=
  let config :=
    config
      |> SetIfNil "tmp_path" (VString "/data0/tmp")
      |> SetIfNil "display_name" (VString "TiFlash")
      |> SetIfNil "default_profile" (VString "default")
      |> SetIfNil "path" (VString "/data0/db")
      |> SetIfNil "path_realtime_mode" (VBool false)
      |> SetIfNil "mark_cache_size" (VInt 5368709120)
      |> SetIfNil "minmax_index_cache_size" (VInt 5368709120)
      |> SetIfNil "tcp_port" (VInt 9000)
      |> SetIfNil "tcp_port_secure" (VInt 9000)
      |> SetIfNil "https_port" (VInt 8123)
      |> SetIfNil "http_port" (VInt 8123)
      |> SetIfNil "interserver_http_port" (VInt 9009)
      |> setTiFlashFlashConfigDefault ref clusterName ns clusterDomain listenHost
           noLocalTiDB acrossK8s
      |> setTiFlashLoggerConfigDefault
      |> setTiFlashApplicationConfigDefault
      |> setTiFlashRaftConfigDefault ref clusterName ns clusterDomain
           noLocalPD acrossK8s in
  let config :=
    if decide (listenHost = listenHostForIPv6) then
      (* listen host must be "::" not "[::]" *)
      config |> SetIfNil "listen_host" (VString "::")
    else
      config |> SetIfNil "listen_host" (VString listenHost) in
  config
    |> SetIfNil "status.metrics_port" (VInt 8234)
    |> SetIfNil "quotas.default.interval.duration" (VInt 3600)
    |> SetIfNil "quotas.default.interval.queries" (VInt 0)
    |> SetIfNil "quotas.default.interval.errors" (VInt 0)
    |> SetIfNil "quotas.default.interval.result_rows" (VInt 0)
    |> SetIfNil "quotas.default.interval.read_rows" (VInt 0)
    |> SetIfNil "quotas.default.interval.execution_time" (VInt 0)
    |> SetIfNil "users.readonly.profile" (VString "readonly")
    |> SetIfNil "users.readonly.quota" (VString "default")
    |> SetIfNil "users.readonly.networks.ip" (VString "::/0")
    |> SetIfNil "users.readonly.password" (VString "")
    |> SetIfNil "users.default.profile" (VString "default")
    |> SetIfNil "users.default.quota" (VString "default")
    |> SetIfNil "users.default.networks.ip" (VString "::/0")
    |> SetIfNil "users.default.password" (VString "")
    |> SetIfNil "profiles.readonly.readonly" (VInt 1)
    |> SetIfNil "profiles.default.max_memory_usage" (VInt 10000000000)
    |> SetIfNil "profiles.default.load_balancing" (VString "random")
    |> SetIfNil "profiles.default.use_uncompressed_cache" (VInt 0).

Definition setTiFlashProxyConfigDefault
    (clusterName ns clusterDomain listenHost : string)
    (config : gmap string Value) : gmap string Value :=
  config
    |> SetIfNil "log-level" (VString "info")
    |> SetIfNil "server.engine-addr"
         (VString (TiFlashMemberName clusterName ++ "-POD_NUM."
                     ++ TiFlashPeerMemberName clusterName ++ "." ++ ns ++ ".svc"
                     ++ FormatClusterDomain clusterDomain ++ ":3930"))
    |> SetIfNil "server.status-addr" (VString (listenHost ++ ":20292"))
    |> SetIfNil "server.advertise-status-addr"
         (VString (TiFlashMemberName clusterName ++ "-POD_NUM."
                     ++ TiFlashPeerMemberName clusterName ++ "." ++ ns ++ ".svc"
                     ++ FormatClusterDomain clusterDomain ++ ":20292")).

(** [setTiFlashConfigDefault] sets default configs for TiFlash. *)
Definition setTiFlashConfigDefault (ref : option TidbClusterRef)
    (clusterName ns clusterDomain listenHost : string)
    (noLocalPD noLocalTiDB acrossK8s : bool) (config : TiFlashConfigWraper)
  : TiFlashConfigWraper :=
  let common := default NewTiFlashCommonConfig (Common config) in
  let common :=
    setTiFlashCommonConfigDefault ref clusterName ns clusterDomain listenHost
      noLocalPD noLocalTiDB acrossK8s common in
  let proxy := default NewTiFlashProxyConfig (Proxy config) in
  let proxy :=
    setTiFlashProxyConfigDefault clusterName ns clusterDomain listenHost proxy in
  {| Common := Some common; Proxy := Some proxy |}.

Definition setTiFlashLogConfigDefault (config : TiFlashConfigWraper)
  : TiFlashConfigWraper :=
  let common := default NewTiFlashCommonConfig (Common config) in
  {| Common :=
       Some (common
               |> SetIfNil "flash.flash_cluster.log" (VString defaultClusterLog)
               |> SetIfNil "logger.errorlog" (VString defaultErrorLog)
               |> SetIfNil "logger.log" (VString defaultServerLog));
     Proxy := Proxy config |}.

End Synthesis.

(** ** Strings *)

(** [strings.Split(s, sep)] for a separator of one character. *)
Fixpoint split_on (sep : ascii) (s : string) : list string :=
  match s with
  | EmptyString => [""]
  | String c s' =>
      if Ascii.eqb c sep then "" :: split_on sep s'
      else
        match split_on sep s' with
        | x :: xs => String c x :: xs
        | [] => [String c ""]
        end
  end.

(** ** Version constraints *)

Module cmpver.

(** Modelled from the spec: package [cmpver] is not among the sources.
    The spec has the selector parse the version string as a semantic
    version and compare it with the threshold.  A semantic version is
    MAJOR.MINOR.PATCH, three numerals without leading zeros, then
    optionally [-] and the pre-release identifiers, then optionally [+]
    and the build identifiers; identifiers are separated by dots, not
    empty, and made of digits, letters and hyphens. *)
Record Version := mkVersion {
  major : N;
  minor : N;
  patch : N;
  pre : list string;
  build : list string;
}.

Inductive Operation := Greater | GreaterOrEqual | Less | LessOrEqual.

Record Constraint := mkConstraint { op : Operation; version : Version }.

Inductive ParseError := InvalidVersion.

Definition isDigit (c : ascii) : bool :=
  let n := N_of_ascii c in ((48 <=? n) && (n <=? 57))%N.

Definition isLetter (c : ascii) : bool :=
  let n := N_of_ascii c in
  (((65 <=? n) && (n <=? 90)) || ((97 <=? n) && (n <=? 122)))%N.

Definition isIdentifierChar (c : ascii) : bool :=
  isDigit c || isLetter c || Ascii.eqb c "-".

Fixpoint all (p : ascii → bool) (s : string) : bool :=
  match s with
  | EmptyString => true
  | String c s' => p c && all p s'
  end.

(** A numeral: ["0"], or digits that do not start with ["0"]. *)
Definition numericIdentifier (s : string) : bool :=
  match s with
  | EmptyString => false
  | String c s' =>
      all isDigit s
      && (negb (Ascii.eqb c "0")
          || match s' with EmptyString => true | _ => false end)
  end.

(** A pre-release identifier: not empty, of digits, letters and hyphens,
    and without a leading zero when it is all digits. *)
Definition preReleaseIdentifier (s : string) : bool :=
  match s with
  | EmptyString => false
  | _ => all isIdentifierChar s && (negb (all isDigit s) || numericIdentifier s)
  end.

(** A build identifier: not empty, of digits, letters and hyphens. *)
Definition buildIdentifier (s : string) : bool :=
  match s with
  | EmptyString => false
  | _ => all isIdentifierChar s
  end.

Fixpoint value_go (acc : N) (s : string) : N :=
  match s with
  | EmptyString => acc
  | String c s' => value_go (acc * 10 + (N_of_ascii c - 48))%N s'
  end.

(** The number a run of decimal digits stands for. *)
Definition value (s : string) : N := value_go 0%N s.

(** The part of [s] before the first [sep], and the part after it when
    [sep] occurs. *)
Fixpoint cut (sep : ascii) (s : string) : string * option string :=
  match s with
  | EmptyString => (EmptyString, None)
  | String c s' =>
      if Ascii.eqb c sep then (EmptyString, Some s')
      else let '(a, b) := cut sep s' in (String c a, b)
  end.

(** The dot-separated identifiers of an optional part of the version. *)
Definition identifiers (valid : string → bool) (part : option string)
  : option (list string) :=
  match part with
  | None => Some []
  | Some s =>
      let ids := split_on "." s in
      if forallb valid ids then Some ids else None
  end.

(** Modelled from the spec: a semantic version read off its text.  The
    build part is what follows the first [+], the pre-release part what
    follows the first [-] before it; the rest is the three numerals.
    Every other string fails to parse. *)
Definition semantic (s : string) : option Version :=
  let '(s, b) := cut "+" s in
  let '(core, p) := cut "-" s in
  match split_on "." core, identifiers preReleaseIdentifier p,
        identifiers buildIdentifier b with
  | [x; y; z], Some pre, Some build =>
      if numericIdentifier x && numericIdentifier y && numericIdentifier z
      then Some (mkVersion (value x) (value y) (value z) pre build)
      else None
  | _, _, _ => None
  end.

(** Modelled from the spec: the constraint in the source is written
    ["v5.4.0"] and the spec's boundary cases ["5.4.0"] and ["5.3.9"], so a
    leading [v] is optional. *)
Definition NewVersion (s : string) : option Version :=
  match s with
  | String c s' => if Ascii.eqb c "v" then semantic s' else semantic s
  | EmptyString => semantic s
  end.

(** Precedence of two pre-release identifiers: numerals by value, below
    every other identifier; the others in ASCII order. *)
Definition compareIdentifier (a b : string) : comparison :=
  match all isDigit a, all isDigit b with
  | true, true => (value a ?= value b)%N
  | true, false => Lt
  | false, true => Gt
  | false, false => String.compare a b
  end.

Fixpoint comparePre (a b : list string) : comparison :=
  match a, b with
  | [], [] => Eq
  | [], _ :: _ => Lt
  | _ :: _, [] => Gt
  | x :: a', y :: b' =>
      match compareIdentifier x y with
      | Eq => comparePre a' b'
      | o => o
      end
  end.

(** Precedence of versions: major, then minor, then patch; then a
    version without pre-release above one with, and two pre-releases by
    their identifiers.  Build identifiers do not count. *)
Definition compare (a b : Version) : comparison :=
  match (major a ?= major b)%N with
  | Eq =>
      match (minor a ?= minor b)%N with
      | Eq =>
          match (patch a ?= patch b)%N with
          | Eq =>
              match pre a, pre b with
              | [], [] => Eq
              | [], _ :: _ => Gt
              | _ :: _, [] => Lt
              | p, q => comparePre p q
              end
          | o => o
          end
      | o => o
      end
  | o => o
  end.

Definition holds (o : Operation) (c : comparison) : bool :=
  match o, c with
  | Greater, Gt => true
  | GreaterOrEqual, (Gt | Eq) => true
  | Less, Lt => true
  | LessOrEqual, (Lt | Eq) => true
  | _, _ => false
  end.

Definition NewConstraint (o : Operation) (s : string) : option Constraint :=
  mkConstraint o <$> NewVersion s.

(** Modelled from the spec: [Check] parses its argument and compares it
    with the version of the constraint; a string that does not parse
    gives an error.  The pair is Go's [(bool, error)], [None] for a nil
    error. *)
Definition Check (c : Constraint) (v : string) : bool * option ParseError :=
  match NewVersion v with
  | Some ver => (holds (op c) (compare ver (version c)), None)
  | None => (false, Some InvalidVersion)
  end.

End cmpver.

(** The first version that tiflash change default config:
    [cmpver.NewConstraint(cmpver.GreaterOrEqual, "v5.4.0")]. *)
Definition tiflashEqualOrGreaterThanV540 : cmpver.Constraint :=
  cmpver.mkConstraint cmpver.GreaterOrEqual (cmpver.mkVersion 5 4 0 [] []).

(** ** Entry points, on documents as values *)

Record VolumeMount := mkVolumeMount {
  vm_Name : string;
  vm_MountPath : string;
}.

Record Container := mkContainer {
  c_Name : string;
  c_Image : string;
  c_ImagePullPolicy : string;
  c_Resources : ResourceRequirements;
  c_VolumeMounts : list VolumeMount;
  c_Command : list string;
}.

Section EntryPoints.
Context `{Externals}.

(** The storage step of [getTiFlashConfig]: when ["path"] is absent, it
    is the comma-joined list of one data directory per storage claim,
    and stays absent when there is no claim. *)
Definition getTiFlashConfig_storage (claims : list StorageClaim)
    (common : gmap string Value) : gmap string Value :=
  match Get "path" common with
  | None =>
      let paths := storagePaths claims in
      if bool_decide (0 < length paths)%nat then
        let dataPath := String.concat "," paths in
        common |> Set_ "path" (VString dataPath)
      else common
  | Some _ => common
  end.

(** The closing TLS step of [getTiFlashConfig], on the engine document
    and the proxy document.
    Note the config of tiflash use "_" by convention, others(proxy) use "-". *)
Definition getTiFlashConfig_tls (enabled : bool)
    (common proxy : gmap string Value)
  : gmap string Value * gmap string Value :=
  if enabled then
    let proxy :=
      proxy
        |> Set_ "security.ca-path"
             (VString (path_Join tiflashCertPath ServiceAccountRootCAKey))
        |> Set_ "security.cert-path"
             (VString (path_Join tiflashCertPath TLSCertKey))
        |> Set_ "security.key-path"
             (VString (path_Join tiflashCertPath TLSPrivateKeyKey)) in
    let common :=
      common
        |> Set_ "security.ca_path"
             (VString (path_Join tiflashCertPath ServiceAccountRootCAKey))
        |> Set_ "security.cert_path"
             (VString (path_Join tiflashCertPath TLSCertKey))
        |> Set_ "security.key_path"
             (VString (path_Join tiflashCertPath TLSPrivateKeyKey)) in
    let proxy :=
      match Get "security.cert_allowed_cn" common,
            Get "security.cert-allowed-cn" proxy with
      | Some commonVal, None =>
          proxy |> Set_ "security.cert-allowed-cn" commonVal
      | _, _ => proxy
      end in
    (* unset the http ports *)
    (common |> Del "http_port" |> Del "tcp_port", proxy)
  else
    (* unset the https ports *)
    (common |> Del "https_port" |> Del "tcp_port_secure", proxy).

Definition getTiFlashConfig (tc : TidbCluster TiFlashConfigWraper)
  : TiFlashConfigWraper :=
  let config := default NewTiFlashConfig (Config (TiFlash (Spec tc))) in
  let common := default NewTiFlashCommonConfig (Common config) in
  let common :=
    getTiFlashConfig_storage (StorageClaims (TiFlash (Spec tc))) common in
  let config := {| Common := Some common; Proxy := Proxy config |} in
  let ref := Cluster (Spec tc) in
  let noLocalPD := WithoutLocalPD tc in
  let acrossK8s := AcrossK8s tc in
  let noLocalTiDB := WithoutLocalTiDB tc in
  let listenHost :=
    if PreferIPv6 (Spec tc) then listenHostForIPv6 else listenHostForIPv4 in
  let config :=
    setTiFlashConfigDefault ref (Name tc) (Namespace tc)
      (ClusterDomain (Spec tc)) listenHost noLocalPD noLocalTiDB acrossK8s
      config in
  let '(common, proxy) :=
    getTiFlashConfig_tls (IsTLSClusterEnabled tc)
      (default NewTiFlashCommonConfig (Common config))
      (default NewTiFlashProxyConfig (Proxy config)) in
  {| Common := Some common; Proxy := Some proxy |}.

(** The storage part of the block marked [// common] of
    [getTiFlashConfigV2]. *)
Definition getTiFlashConfigV2_storage {C} (tc : TidbCluster C)
    (common : gmap string Value) : gmap string Value :=
  (* check "path" to be compatible with old version *)
  let common :=
    match Get "path" common, Get "storage.main.dir" common with
    | None, None =>
        let paths := storagePaths (StorageClaims (TiFlash (Spec tc))) in
        let paths :=
          if bool_decide (length paths = 0%nat) then ["/data0/db"] else paths in
        common |> Set_ "storage.main.dir" (VStrings paths)
    | _, _ => common
    end in
  (* check "raft.kvstore_path" to be compatible with old version *)
  match Get "raft.kvstore_path" common with
  | None => common |> SetIfNil "storage.raft.dir" (VStrings ["/data0/kvstore"])
  | Some _ => common
  end.

(** The rest of the block marked [// common] of [getTiFlashConfigV2]: the
    run of [SetIfNil] calls from ["tmp_path"] on. *)
Definition getTiFlashConfigV2_defaults {C} (tc : TidbCluster C)
    (common : gmap string Value) : gmap string Value :=
  let name := Name tc in
  let ns := Namespace tc in
  let clusterDomain := ClusterDomain (Spec tc) in
  let ref := deref (Cluster (Spec tc)) in
  let listenHost :=
    if PreferIPv6 (Spec tc) then listenHostForIPv6 else listenHostForIPv4 in
  (* flash *)
  let tidbStatusAddr := TiDBMemberName name ++ "." ++ ns ++ ".svc:10080" in
  let tidbStatusAddr :=
    if WithoutLocalTiDB tc then
      if Heterogeneous tc then
        if AcrossK8s tc then
          (* use headless service of TiDB in reference cluster *)
          TiDBPeerMemberName (ref_Name ref) ++ "." ++ ref_Namespace ref
            ++ ".svc" ++ FormatClusterDomain (ref_ClusterDomain ref) ++ ":10080"
        else
          (* use service of TiDB in reference cluster *)
          TiDBMemberName (ref_Name ref) ++ "." ++ ref_Namespace ref
            ++ ".svc" ++ FormatClusterDomain (ref_ClusterDomain ref) ++ ":10080"
      else tidbStatusAddr
    else tidbStatusAddr in
  (* raft *)
  let pdAddr := PDMemberName name ++ "." ++ ns ++ ".svc:2379" in
  let pdAddr :=
    if AcrossK8s tc then
      "PD_ADDR" (* get pd addr from discovery in startup script *)
    else if Heterogeneous tc && WithoutLocalPD tc then
      (* use pd of reference cluster *)
      PDMemberName (ref_Name ref) ++ "." ++ ref_Namespace ref
        ++ ".svc" ++ FormatClusterDomain (ref_ClusterDomain ref) ++ ":2379"
    else pdAddr in
  let common :=
    common
      (* workaround for issue #4091 about v5.4.0 TiFlash *)
      |> SetIfNil "tmp_path" (VString "/data0/tmp")
      (* port *)
      |> SetIfNil "tcp_port" (VInt 9000)
      |> SetIfNil "http_port" (VInt 8123)
      (* flash *)
      |> SetIfNil "flash.tidb_status_addr" (VString tidbStatusAddr)
      |> SetIfNil "flash.service_addr" (VString (listenHost ++ ":3930"))
      |> SetIfNil "flash.flash_cluster.log" (VString defaultClusterLog)
      |> SetIfNil "flash.proxy.addr" (VString (listenHost ++ ":20170"))
      |> SetIfNil "flash.proxy.advertise-addr"
           (VString (TiFlashMemberName name ++ "-POD_NUM."
                       ++ TiFlashPeerMemberName name ++ "." ++ ns ++ ".svc"
                       ++ FormatClusterDomain clusterDomain ++ ":20170"))
      |> SetIfNil "flash.proxy.data-dir" (VString "/data0/proxy")
      |> SetIfNil "flash.proxy.config" (VString "/data0/proxy.toml")
      (* logger *)
      |> SetIfNil "logger.errorlog" (VString defaultErrorLog)
      |> SetIfNil "logger.log" (VString defaultServerLog)
      (* raft *)
      |> SetIfNil "raft.pd_addr" (VString pdAddr) in
  if decide (listenHost = listenHostForIPv6) then
    common
      |> SetIfNil "listen_host" (VString "::") (* listen host must be "::" not "[::]" *)
      |> SetIfNil "status.metrics_port" (VInt 8234)
  else common.

(** The block marked [// common] of [getTiFlashConfigV2]. *)
Definition getTiFlashConfigV2_common {C} (tc : TidbCluster C)
    (common : gmap string Value) : gmap string Value :=
  common |> getTiFlashConfigV2_storage tc |> getTiFlashConfigV2_defaults tc.

(** The block marked [// proxy] of [getTiFlashConfigV2]. *)
Definition getTiFlashConfigV2_proxy {C} (tc : TidbCluster C)
    (proxy : gmap string Value) : gmap string Value :=
  let name := Name tc in
  let ns := Namespace tc in
  let clusterDomain := ClusterDomain (Spec tc) in
  let listenHost :=
    if PreferIPv6 (Spec tc) then listenHostForIPv6 else listenHostForIPv4 in
  proxy
    |> SetIfNil "log-level" (VString "info")
    |> SetIfNil "server.engine-addr"
         (VString (TiFlashMemberName name ++ "-POD_NUM."
                     ++ TiFlashPeerMemberName name ++ "." ++ ns ++ ".svc"
                     ++ FormatClusterDomain clusterDomain ++ ":3930"))
    |> SetIfNil "server.status-addr" (VString (listenHost ++ ":20292"))
    |> SetIfNil "server.advertise-status-addr"
         (VString (TiFlashMemberName name ++ "-POD_NUM."
                     ++ TiFlashPeerMemberName name ++ "." ++ ns ++ ".svc"
                     ++ FormatClusterDomain clusterDomain ++ ":20292")).

(** The closing TLS step of [getTiFlashConfigV2].
    Note the config of tiflash use "_" by convention, others(proxy) use "-". *)
Definition getTiFlashConfigV2_tls (enabled : bool)
    (common proxy : gmap string Value)
  : gmap string Value * gmap string Value :=
  if enabled then
    let common :=
      common
        |> Set_ "security.ca_path"
             (VString (path_Join tiflashCertPath ServiceAccountRootCAKey))
        |> Set_ "security.cert_path"
             (VString (path_Join tiflashCertPath TLSCertKey))
        |> Set_ "security.key_path"
             (VString (path_Join tiflashCertPath TLSPrivateKeyKey))
        |> SetIfNil "tcp_port_secure" (VInt 9000)
        |> SetIfNil "https_port" (VInt 8123)
        |> Del "http_port"
        |> Del "tcp_port" in
    let proxy :=
      proxy
        |> Set_ "security.ca-path"
             (VString (path_Join tiflashCertPath ServiceAccountRootCAKey))
        |> Set_ "security.cert-path"
             (VString (path_Join tiflashCertPath TLSCertKey))
        |> Set_ "security.key-path"
             (VString (path_Join tiflashCertPath TLSPrivateKeyKey)) in
    let proxy :=
      match Get "security.cert_allowed_cn" common,
            Get "security.cert-allowed-cn" proxy with
      | Some commonVal, None =>
          proxy |> Set_ "security.cert-allowed-cn" commonVal
      | _, _ => proxy
      end in
    (common, proxy)
  else (common, proxy).

Definition getTiFlashConfigV2 (tc : TidbCluster TiFlashConfigWraper)
  : TiFlashConfigWraper :=
  let config := default NewTiFlashConfig (Config (TiFlash (Spec tc))) in
  let common := default NewTiFlashCommonConfig (Common config) in
  let proxy := default NewTiFlashProxyConfig (Proxy config) in
  let common := getTiFlashConfigV2_common tc common in
  let proxy := getTiFlashConfigV2_proxy tc proxy in
  let '(common, proxy) :=
    getTiFlashConfigV2_tls (IsTLSClusterEnabled tc) common proxy in
  {| Common := Some common; Proxy := Some proxy |}.

(** Whether [GetTiFlashConfig] takes the branch of the current dialect:
    [ok, err := tiflashEqualOrGreaterThanV540.Check(version); err == nil && ok]. *)
Definition checkV540 (version : string) : bool :=
  let '(ok, err) := cmpver.Check tiflashEqualOrGreaterThanV540 version in
  bool_decide (err = None) && ok.

Definition GetTiFlashConfig (tc : TidbCluster TiFlashConfigWraper)
  : TiFlashConfigWraper :=
  let version := TiFlashVersion tc in
  if checkV540 version then getTiFlashConfigV2 tc
  else getTiFlashConfig tc.

Definition buildSidecarContainer (name path image pullPolicy : string)
    (resource : ResourceRequirements) : Container :=
  let splitPath := split_on "/" path in
  (* The log path should be at least /dir/base.log *)
  if bool_decide (3 ≤ length splitPath)%nat then
    let serverLogVolumeName := nth 1 splitPath "" in
    let serverLogMountDir := "/" ++ serverLogVolumeName in
    {| c_Name := name;
       c_Image := image;
       c_ImagePullPolicy := pullPolicy;
       c_Resources := resource;
       c_VolumeMounts := [mkVolumeMount serverLogVolumeName serverLogMountDir];
       c_Command :=
         ["sh"; "-c"; "touch " ++ path ++ "; tail -n0 -F " ++ path ++ ";"] |}
  else
    {| c_Name := name;
       c_Image := image;
       c_ImagePullPolicy := pullPolicy;
       c_Resources := resource;
       c_VolumeMounts := [];
       c_Command :=
         ["sh"; "-c"; "touch " ++ path ++ "; tail -n0 -F " ++ path ++ ";"] |}.

Definition buildTiFlashSidecarContainers (tc : TidbCluster TiFlashConfigWraper)
  : result (list Container) :=
  let spec := TiFlash (Spec tc) in
  let config := Config spec in
  let image := HelperImage tc in
  let pullPolicy := HelperImagePullPolicy tc in
  let containers : list Container := [] in
  let resource :=
    match LogTailer spec with
    | Some lt => ContainerResource (lt_ResourceRequirements lt)
    | None => mkResourceRequirements [] []
    end in
  let config := default NewTiFlashConfig config in
  let config := setTiFlashLogConfigDefault config in
  path <- AsString (Common config ≫= Get "logger.log") ;;
  let containers :=
    (containers ++ [buildSidecarContainer "serverlog" path image pullPolicy resource])%list in
  path <- AsString (Common config ≫= Get "logger.errorlog") ;;
  let containers :=
    (containers ++ [buildSidecarContainer "errorlog" path image pullPolicy resource])%list in
  path <- AsString (Common config ≫= Get "flash.flash_cluster.log") ;;
  let containers :=
    (containers ++ [buildSidecarContainer "clusterlog" path image pullPolicy resource])%list in
  Ok containers.

End EntryPoints.

(** ** The store layer

    The Go code works on pointers: [tc.Spec.TiFlash.Config] points to a
    wrapper whose [Common] and [Proxy] fields point to documents, and every
    [Set], [SetIfNil] and [Del] updates the document behind the pointer in
    place.  Here the heap is explicit.  A computation takes the heap,
    and either panics on a nil or dangling pointer ([None]) or gives a
    result and the heap it leaves. *)
Module Store.

Definition loc := positive.

Inductive object :=
  | Wrapper (common proxy : option loc)
  | Document (d : gmap string Value).

Definition M (A : Type) : Type := gmap loc object → option (A * gmap loc object).

#[global] Instance M_ret : MRet M := λ A a h, Some (a, h).
#[global] Instance M_bind : MBind M := λ A B k m h,
  match m h with
  | Some (a, h') => k a h'
  | None => None
  end.

(** A new object, at a location the heap does not use. *)
Definition alloc (o : object) : M loc := λ h,
  let l := fresh (dom h) in Some (l, <[l := o]> h).

Definition readWrapper (l : loc) : M (option loc * option loc) := λ h,
  match h !! l with
  | Some (Wrapper c p) => Some ((c, p), h)
  | _ => None
  end.

Definition readDocument (l : loc) : M (gmap string Value) := λ h,
  match h !! l with
  | Some (Document d) => Some (d, h)
  | _ => None
  end.

Definition write (l : loc) (o : object) : M unit := λ h,
  match h !! l with
  | Some _ => Some ((), <[l := o]> h)
  | None => None
  end.

(** Run on the document behind [l] a function of the value layer, in
    place. *)
Definition update (l : loc) (f : gmap string Value → gmap string Value)
  : M unit :=
  d ← readDocument l; write l (Document (f d)).

(** Modelled from the spec: the generated [DeepCopy] methods are not
    among the sources.  The spec has [copy()] produce an independent
    document: the copy of a wrapper is a new wrapper that points to new
    documents with the contents of the old ones; the copy of nil is
    nil. *)
Definition DeepCopyDocument (d : option loc) : M (option loc) :=
  match d with
  | None => mret None
  | Some l => d ← readDocument l; l' ← alloc (Document d); mret (Some l')
  end.

Definition DeepCopy (config : option loc) : M (option loc) :=
  match config with
  | None => mret None
  | Some l =>
      '(c, p) ← readWrapper l;
      c' ← DeepCopyDocument c;
      p' ← DeepCopyDocument p;
      l' ← alloc (Wrapper c' p');
      mret (Some l')
  end.

(** [if config == nil { config = v1alpha1.NewTiFlashConfig() }] *)
Definition orNewTiFlashConfig (config : option loc) : M loc :=
  match config with
  | Some l => mret l
  | None => alloc (Wrapper None None)
  end.

(** [if config.Common == nil { config.Common = v1alpha1.NewTiFlashCommonConfig() }],
    giving [config.Common]. *)
Definition orNewCommon (config : loc) : M loc :=
  '(c, p) ← readWrapper config;
  match c with
  | Some l => mret l
  | None =>
      l ← alloc (Document NewTiFlashCommonConfig);
      _ ← write config (Wrapper (Some l) p);
      mret l
  end.

(** [if config.Proxy == nil { config.Proxy = v1alpha1.NewTiFlashProxyConfig() }],
    giving [config.Proxy]. *)
Definition orNewProxy (config : loc) : M loc :=
  '(c, p) ← readWrapper config;
  match p with
  | Some l => mret l
  | None =>
      l ← alloc (Document NewTiFlashProxyConfig);
      _ ← write config (Wrapper c (Some l));
      mret l
  end.

(** [config.Common] and [config.Proxy] where the code dereferences them:
    a nil pointer panics. *)
Definition commonOf (config : loc) : M loc :=
  '(c, _) ← readWrapper config;
  match c with Some l => mret l | None => λ _, None end.
Definition proxyOf (config : loc) : M loc :=
  '(_, p) ← readWrapper config;
  match p with Some l => mret l | None => λ _, None end.

(** A step of the value layer that reads and updates both documents. *)
Definition update2 (common proxy : loc)
    (f : gmap string Value → gmap string Value
         → gmap string Value * gmap string Value) : M unit :=
  c ← readDocument common;
  p ← readDocument proxy;
  _ ← write common (Document (f c p).1);
  write proxy (Document (f c p).2).

(** The cluster as the value layer sees it: the [Config] pointer of [tc]
    followed in the heap [h]. *)
Definition viewDocument (h : gmap loc object) (l : loc)
  : option (gmap string Value) :=
  match h !! l with
  | Some (Document d) => Some d
  | _ => None
  end.

Definition viewConfig (h : gmap loc object) (config : option loc)
  : option TiFlashConfigWraper :=
  l ← config;
  match h !! l with
  | Some (Wrapper c p) =>
      Some {| Common := c ≫= viewDocument h; Proxy := p ≫= viewDocument h |}
  | _ => None
  end.

Definition view (h : gmap loc object) (tc : TidbCluster loc)
  : TidbCluster TiFlashConfigWraper :=
  withConfig tc (viewConfig h (Config (TiFlash (Spec tc)))).

(** A heap a Go program can be in, as far as [tc] reaches into it: the
    pointers are nil or point to objects of their type. *)
Definition isDocument (h : gmap loc object) (l : option loc) : Prop :=
  match l with
  | Some l => ∃ d, h !! l = Some (Document d)
  | None => True
  end.

Definition validConfig (h : gmap loc object) (config : option loc) : Prop :=
  match config with
  | Some l =>
      ∃ c p, h !! l = Some (Wrapper c p) ∧ isDocument h c ∧ isDocument h p
  | None => True
  end.

Definition wellFormed (h : gmap loc object) (tc : TidbCluster loc) : Prop :=
  validConfig h (Config (TiFlash (Spec tc))).

(** [m] started in a heap that satisfies [P] does not panic, and its
    result and final heap satisfy [Q]. *)
Definition triple {A} (P : gmap loc object → Prop) (m : M A)
    (Q : A → gmap loc object → Prop) : Prop :=
  ∀ h, P h → ∃ a h', m h = Some (a, h') ∧ Q a h'.

(** The heap [h] extends the heap [h0] of the caller by a wrapper at [r]
    that belongs to the running call: [r] and the documents it points to
    are not locations of [h0], and everything in [h0] is in [h] as it
    was.  [oc] and [op] are the engine and proxy documents of the
    wrapper, each with its location, or [None] for a nil pointer. *)
Definition owns (h0 h : gmap loc object) (r : loc)
    (oc op : option (loc * gmap string Value)) : Prop :=
  h0 ⊆ h
  ∧ h0 !! r = None
  ∧ h !! r = Some (Wrapper (fst <$> oc) (fst <$> op))
  ∧ match oc with
    | Some (l, d) => h0 !! l = None ∧ h !! l = Some (Document d)
    | None => True
    end
  ∧ match op with
    | Some (l, d) => h0 !! l = None ∧ h !! l = Some (Document d)
    | None => True
    end
  ∧ match oc, op with
    | Some (lc, _), Some (lp, _) => lc ≠ lp
    | _, _ => True
    end.

(** The first step of every entry point: the copy of the caller's
    configuration belongs to the call, and holds what the caller's
    holds. *)
Definition copied (h0 : gmap loc object) (config : option loc)
    (r : option loc) (h : gmap loc object) : Prop :=
  match r with
  | None => config = None ∧ h = h0
  | Some r =>
      ∃ oc op, owns h0 h r oc op
               ∧ viewConfig h0 config
                 = Some {| Common := snd <$> oc; Proxy := snd <$> op |}
  end.

(** The result [r] of a synthesis call that started in [h] and ended in
    [h']: a wrapper with both documents, none of the three a location of
    [h]. *)
Definition freshResult (h h' : gmap loc object) (r : loc) : Prop :=
  h !! r = None
  ∧ ∃ lc lp, h' !! r = Some (Wrapper (Some lc) (Some lp))
             ∧ h !! lc = None ∧ h !! lp = None.

(** A call that started in [h] and ended in [h'] left the caller's heap
    alone: every object of [h] is in [h'] as it was, so the configuration
    in the caller's spec reads the same. *)
Definition preserved (h h' : gmap loc object) (tc : TidbCluster loc) : Prop :=
  h ⊆ h' ∧ view h' tc = view h tc.

(** The heap computation [m] is the synthesizer [f] of the value layer
    behind a copy: started in [h] it does not panic, it leaves the
    caller's heap alone, its result is made of new objects only, and the
    result holds the documents [f] gives for what [tc] holds in [h]. *)
Definition synthesizes (m : M loc)
    (f : TidbCluster TiFlashConfigWraper → TiFlashConfigWraper)
    (h : gmap loc object) (tc : TidbCluster loc) : Prop :=
  ∃ r h', m h = Some (r, h') ∧ preserved h h' tc ∧ freshResult h h' r
          ∧ viewConfig h' (Some r) = Some (f (view h tc)).

Section EntryPoints.
Context `{Externals}.

Definition setTiFlashLogConfigDefault (config : loc) : M unit :=
  common ← orNewCommon config;
  update common (λ c,
    c |> SetIfNil "flash.flash_cluster.log" (VString defaultClusterLog)
      |> SetIfNil "logger.errorlog" (VString defaultErrorLog)
      |> SetIfNil "logger.log" (VString defaultServerLog)).

Definition setTiFlashConfigDefault (config : loc)
    (ref : option TidbClusterRef)
    (clusterName ns clusterDomain listenHost : string)
    (noLocalPD noLocalTiDB acrossK8s : bool) : M unit :=
  common ← orNewCommon config;
  _ ← update common
        (setTiFlashCommonConfigDefault ref clusterName ns clusterDomain
           listenHost noLocalPD noLocalTiDB acrossK8s);
  proxy ← orNewProxy config;
  update proxy
    (setTiFlashProxyConfigDefault clusterName ns clusterDomain listenHost).

Definition getTiFlashConfig (tc : TidbCluster loc) : M loc :=
  config ← DeepCopy (Config (TiFlash (Spec tc)));
  config ← orNewTiFlashConfig config;
  common ← orNewCommon config;
  _ ← update common
        (getTiFlashConfig_storage (StorageClaims (TiFlash (Spec tc))));
  let ref := Cluster (Spec tc) in
  let noLocalPD := WithoutLocalPD tc in
  let acrossK8s := AcrossK8s tc in
  let noLocalTiDB := WithoutLocalTiDB tc in
  let listenHost :=
    if PreferIPv6 (Spec tc) then listenHostForIPv6 else listenHostForIPv4 in
  _ ← setTiFlashConfigDefault config ref (Name tc) (Namespace tc)
        (ClusterDomain (Spec tc)) listenHost noLocalPD noLocalTiDB acrossK8s;
  common ← commonOf config;
  proxy ← proxyOf config;
  _ ← update2 common proxy (getTiFlashConfig_tls (IsTLSClusterEnabled tc));
  mret config.

Definition getTiFlashConfigV2 (tc : TidbCluster loc) : M loc :=
  config ← DeepCopy (Config (TiFlash (Spec tc)));
  config ← orNewTiFlashConfig config;
  common ← orNewCommon config;
  proxy ← orNewProxy config;
  _ ← update common (getTiFlashConfigV2_common tc);
  _ ← update proxy (getTiFlashConfigV2_proxy tc);
  _ ← update2 common proxy (getTiFlashConfigV2_tls (IsTLSClusterEnabled tc));
  mret config.

Definition GetTiFlashConfig (tc : TidbCluster loc) : M loc :=
  let version := TiFlashVersion tc in
  if checkV540 version then getTiFlashConfigV2 tc
  else getTiFlashConfig tc.

Definition buildTiFlashSidecarContainers (tc : TidbCluster loc)
  : M (result (list Container)) :=
  let spec := TiFlash (Spec tc) in
  config ← DeepCopy (Config spec);
  let image := HelperImage tc in
  let pullPolicy := HelperImagePullPolicy tc in
  let containers : list Container := [] in
  let resource :=
    match LogTailer spec with
    | Some lt => ContainerResource (lt_ResourceRequirements lt)
    | None => mkResourceRequirements [] []
    end in
  config ← orNewTiFlashConfig config;
  _ ← setTiFlashLogConfigDefault config;
  common ← commonOf config;
  common ← readDocument common;
  mret (
    path <- AsString (Get "logger.log" common) ;;
    let containers :=
      (containers ++ [buildSidecarContainer "serverlog" path image pullPolicy resource])%list in
    path <- AsString (Get "logger.errorlog" common) ;;
    let containers :=
      (containers ++ [buildSidecarContainer "errorlog" path image pullPolicy resource])%list in
    path <- AsString (Get "flash.flash_cluster.log" common) ;;
    let containers :=
      (containers ++ [buildSidecarContainer "clusterlog" path image pullPolicy resource])%list in
    Ok containers).

End EntryPoints.

End Store.


(** ** Reading a synthesized configuration *)

(** The partial input of a synthesis call: the configuration of the
    cluster spec, or a new one when the spec has none. *)
Definition specConfig (tc : TidbCluster TiFlashConfigWraper)
  : TiFlashConfigWraper :=
  default NewTiFlashConfig (Config (TiFlash (Spec tc))).

(** [config.Common.Get(key)] and [config.Proxy.Get(key)]: nil when the
    document or the key is absent. *)
Definition commonGet (key : string) (config : TiFlashConfigWraper)
  : option Value :=
  Common config ≫= Get key.
Definition proxyGet (key : string) (config : TiFlashConfigWraper)
  : option Value :=
  Proxy config ≫= Get key.

(** A run of [SetIfNil] calls only fills in what the document lacks: it
    is the union of the document with what the run makes of the empty
    document, the document taking precedence. *)
Definition defaulting (f : gmap string Value → gmap string Value) : Prop :=
  ∀ m, f m = m ∪ f ∅.

(** The placement-service address in the spec's order of resolution: the
    discovery sentinel across Kubernetes clusters; else the PD of the
    reference cluster, with its namespace and domain suffix, for a
    cluster that borrows from it ([borrows]) and has no local PD; else the
    PD of the cluster itself. *)
Definition resolvePlacementService `{Externals} {C} (borrows : bool)
    (tc : TidbCluster C) : string :=
  if AcrossK8s tc then "PD_ADDR"
  else if borrows && WithoutLocalPD tc then
    let ref := deref (Cluster (Spec tc)) in
    PDMemberName (ref_Name ref) ++ "." ++ ref_Namespace ref ++ ".svc"
      ++ FormatClusterDomain (ref_ClusterDomain ref) ++ ":2379"
  else PDMemberName (Name tc) ++ "." ++ Namespace tc ++ ".svc:2379".

(** The placement-service address as the spec words it: the cluster
    borrows when it is heterogeneous. *)
Definition placementServiceAddress `{Externals} {C} (tc : TidbCluster C)
  : string :=
  resolvePlacementService (Heterogeneous tc) tc.

(** Whether the cluster declares a reference cluster, heterogeneous or
    not. *)
Definition hasReference {C} (tc : TidbCluster C) : bool :=
  bool_decide (is_Some (Cluster (Spec tc))).

(** How often the character [c] occurs in [s]. *)
Fixpoint occurrences (c : ascii) (s : string) : nat :=
  match s with
  | EmptyString => 0
  | String a s' => (if Ascii.eqb a c then 1 else 0) + occurrences c s'
  end.

(** The text of an optional part of a semantic version: nothing when
    there is no identifier, else the mark and the identifiers with dots
    between them. *)
Definition versionPart (mark : string) (ids : list string) : string :=
  match ids with
  | [] => ""
  | _ => mark ++ String.concat "." ids
  end.

(** The semantic versions and what they are written as:
    MAJOR.MINOR.PATCH in numerals without leading zeros, then the
    pre-release identifiers after [-] and the build identifiers after
    [+], where there are any. *)
Inductive semanticVersion : string → cmpver.Version → Prop :=
  | semanticVersion_text (x y z : string) (pre build : list string) :
      cmpver.numericIdentifier x = true →
      cmpver.numericIdentifier y = true →
      cmpver.numericIdentifier z = true →
      Forall (λ i, cmpver.preReleaseIdentifier i = true) pre →
      Forall (λ i, cmpver.buildIdentifier i = true) build →
      semanticVersion
        ((x ++ "." ++ y ++ "." ++ z)
           ++ versionPart "-" pre ++ versionPart "+" build)
        (cmpver.mkVersion (cmpver.value x) (cmpver.value y) (cmpver.value z)
           pre build).

(** A version string: a semantic version, with or without a leading
    [v]. *)
Definition versionText (s : string) (v : cmpver.Version) : Prop :=
  semanticVersion s v ∨ ∃ s', s = String "v" s' ∧ semanticVersion s' v.

(** A version that is 5.4.0 or later in the precedence of semantic
    versions: above 5.4.0 in major, minor or patch, or 5.4.0 itself and not
    a pre-release of it. *)
Definition atLeastV540 (v : cmpver.Version) : Prop :=
  (5 < cmpver.major v
   ∨ (cmpver.major v = 5
      ∧ (4 < cmpver.minor v
         ∨ (cmpver.minor v = 4
            ∧ (0 < cmpver.patch v ∨ cmpver.pre v = [])))))%N.

(** The keys of the engine document that the closing TLS step deletes or
    overwrites, by dialect and TLS posture. *)
Definition tlsEngineKeys (current tls : bool) : list string :=
  if tls then
    ["http_port"; "tcp_port"; "security.ca_path"; "security.cert_path";
     "security.key_path"]
  else if current then []
  else ["https_port"; "tcp_port_secure"].

(** The keys of the proxy document that the closing TLS step overwrites. *)
Definition tlsProxyKeys (tls : bool) : list string :=
  if tls then ["security.ca-path"; "security.cert-path"; "security.key-path"]
  else [].

(** The three keys the sidecar builder reads as strings. *)
Definition logPathKeys : list string :=
  ["logger.log"; "logger.errorlog"; "flash.flash_cluster.log"].

Definition notString (v : Value) : Prop := ∀ s, v ≠ VString s.

(** ** Sample inputs *)

(** An instance of the interface, for running the synthesizers. *)
Definition sampleExternals : Externals :=
  {| TiDBMemberName n := n ++ "-tidb";
     TiDBPeerMemberName n := n ++ "-tidb-peer";
     PDMemberName n := n ++ "-pd";
     TiFlashMemberName n := n ++ "-tiflash";
     TiFlashPeerMemberName n := n ++ "-tiflash-peer";
     FormatClusterDomain d := match d with "" => "" | _ => "." ++ d end;
     tiflashCertPath := "/var/lib/tiflash-tls";
     path_Join a b := a ++ "/" ++ b;
     ContainerResource r := r |}.

(** A cluster ["basic"] in namespace ["ns"]: no reference cluster, one
    Kubernetes cluster, local PD and TiDB. *)
Definition sampleCluster {C} (version : string) (claims : nat)
    (tls ipv6 : bool) (config : option C) : TidbCluster C :=
  {| Name := "basic";
     Namespace := "ns";
     Spec :=
       {| ClusterDomain := "";
          Cluster := None;
          PreferIPv6 := ipv6;
          TiFlash :=
            {| Config := config;
               StorageClaims := replicate claims (mkStorageClaim None);
               LogTailer := None |} |};
     TiFlashVersion := version;
     heterogeneous := false;
     AcrossK8s := false;
     WithoutLocalPD := false;
     WithoutLocalTiDB := false;
     IsTLSClusterEnabled := tls;
     HelperImage := "busybox:1.26.2";
     HelperImagePullPolicy := "IfNotPresent" |}.

(** A cluster ["hetero"] without PD and TiDB of its own that declares the
    reference cluster ["ref"] of namespace ["ref-ns"] and domain
    ["cluster.local"], and borrows from it when [borrows] is set. *)
Definition referringCluster {C} (borrows acrossK8s : bool)
    (config : option C) : TidbCluster C :=
  {| Name := "hetero";
     Namespace := "ns";
     Spec :=
       {| ClusterDomain := "";
          Cluster := Some (mkTidbClusterRef "ref" "ref-ns" "cluster.local");
          PreferIPv6 := false;
          TiFlash :=
            {| Config := config; StorageClaims := []; LogTailer := None |} |};
     TiFlashVersion := "v5.4.0";
     heterogeneous := borrows;
     AcrossK8s := acrossK8s;
     WithoutLocalPD := true;
     WithoutLocalTiDB := true;
     IsTLSClusterEnabled := false;
     HelperImage := "busybox:1.26.2";
     HelperImagePullPolicy := "IfNotPresent" |}.

(** The heterogeneous one of these clusters. *)
Definition heterogeneousCluster {C} (acrossK8s : bool) (config : option C)
  : TidbCluster C :=
  referringCluster true acrossK8s config.

(** A heap with one configuration: a wrapper at location 1 whose engine
    document, at location 2, sets ["tcp_port"], and whose proxy document
    is nil. *)
Definition sampleHeap : gmap Store.loc Store.object :=
  {[ 1%positive := Store.Wrapper (Some 2%positive) None;
     2%positive := Store.Document {[ "tcp_port" := VInt 9001 ]} ]}.

(** A partial input with one key set in the engine document. *)
Definition engineOnly (key : string) (v : Value) : TiFlashConfigWraper :=
  {| Common := Some {[key := v]}; Proxy := None |}.

(** ** The synthesizers as functions of the two input documents *)

(** The engine and proxy documents of the partial input, empty when the
    input has none. *)
Definition inputCommon (tc : TidbCluster TiFlashConfigWraper)
  : gmap string Value :=
  default NewTiFlashCommonConfig (Common (specConfig tc)).
Definition inputProxy (tc : TidbCluster TiFlashConfigWraper)
  : gmap string Value :=
  default NewTiFlashProxyConfig (Proxy (specConfig tc)).

(** The defaults of [getTiFlashConfig], with the arguments it passes to
    [setTiFlashConfigDefault]. *)
Definition legacyCommonDefaults `{Externals} {C} (tc : TidbCluster C)
  : gmap string Value → gmap string Value :=
  setTiFlashCommonConfigDefault (Cluster (Spec tc)) (Name tc) (Namespace tc)
    (ClusterDomain (Spec tc))
    (if PreferIPv6 (Spec tc) then listenHostForIPv6 else listenHostForIPv4)
    (WithoutLocalPD tc) (WithoutLocalTiDB tc) (AcrossK8s tc).
Definition legacyProxyDefaults `{Externals} {C} (tc : TidbCluster C)
  : gmap string Value → gmap string Value :=
  setTiFlashProxyConfigDefault (Name tc) (Namespace tc)
    (ClusterDomain (Spec tc))
    (if PreferIPv6 (Spec tc) then listenHostForIPv6 else listenHostForIPv4).

(** What [getTiFlashConfig] makes of the two documents: storage step,
    defaults, TLS step. *)
Definition legacyDocuments `{Externals} {C} (tc : TidbCluster C)
    (common proxy : gmap string Value)
  : gmap string Value * gmap string Value :=
  getTiFlashConfig_tls (IsTLSClusterEnabled tc)
    (common
       |> getTiFlashConfig_storage (StorageClaims (TiFlash (Spec tc)))
       |> legacyCommonDefaults tc)
    (proxy |> legacyProxyDefaults tc).

(** What [getTiFlashConfigV2] makes of the two documents. *)
Definition currentDocuments `{Externals} {C} (tc : TidbCluster C)
    (common proxy : gmap string Value)
  : gmap string Value * gmap string Value :=
  getTiFlashConfigV2_tls (IsTLSClusterEnabled tc)
    (getTiFlashConfigV2_common tc common)
    (getTiFlashConfigV2_proxy tc proxy).

(** A document with a main storage key ([path] or [storage.main.dir]) and
    a raft storage key: the storage part of the current dialect has
    nothing left to add to it. *)
Definition storageSettled (m : gmap string Value) : Prop :=
  (is_Some (m !! "path") ∨ is_Some (m !! "storage.main.dir"))
  ∧ (is_Some (m !! "raft.kvstore_path") ∨ is_Some (m !! "storage.raft.dir")).


(** ** Further definitions for stating properties *)

Definition logPath (key d : string) (tc : TidbCluster TiFlashConfigWraper)
  : string :=
  match commonGet key (specConfig tc) with
  | Some (VString s) => s
  | _ => d
  end.

(** The resources of the log tailer containers. *)
Definition logTailerResources `{Externals} {C} (tc : TidbCluster C)
  : ResourceRequirements :=
  match LogTailer (TiFlash (Spec tc)) with
  | Some lt => ContainerResource (lt_ResourceRequirements lt)
  | None => mkResourceRequirements [] []
  end.

(** The compute-tier status address: for a cluster without local TiDB
    that borrows from its reference cluster ([borrows]), the TiDB service
    of the reference cluster, its peer service across Kubernetes
    clusters; else the TiDB service of the cluster itself. *)
Definition resolveStatusAddress `{Externals} {C} (borrows : bool)
    (tc : TidbCluster C) : string :=
  if WithoutLocalTiDB tc && borrows then
    let ref := deref (Cluster (Spec tc)) in
    (if AcrossK8s tc then TiDBPeerMemberName (ref_Name ref)
     else TiDBMemberName (ref_Name ref))
      ++ "." ++ ref_Namespace ref ++ ".svc"
      ++ FormatClusterDomain (ref_ClusterDomain ref) ++ ":10080"
  else TiDBMemberName (Name tc) ++ "." ++ Namespace tc ++ ".svc:10080".

(** [listenHost]: the host of the listen addresses, by IP family. *)
Definition listenHost {C} (tc : TidbCluster C) : string :=
  if PreferIPv6 (Spec tc) then listenHostForIPv6 else listenHostForIPv4.

(** The three certificate files under the TLS mount path. *)
Definition caPath `{Externals} : Value :=
  VString (path_Join tiflashCertPath ServiceAccountRootCAKey).
Definition certPath `{Externals} : Value :=
  VString (path_Join tiflashCertPath TLSCertKey).
Definition keyPath `{Externals} : Value :=
  VString (path_Join tiflashCertPath TLSPrivateKeyKey).
(** ** Documents: set-if-absent as a union *)

Lemma SetIfNil_union k v (m : gmap string Value) :
  SetIfNil k v m = m ∪ {[k := v]}.
Proof.
  unfold SetIfNil, Get, Set_. apply map_eq; intros i.
  destruct (m !! k) eqn:E; rewrite lookup_union;
    destruct (decide (i = k)) as [->|Hne].
  - by rewrite E, lookup_singleton_eq.
  - rewrite lookup_singleton_ne by done. by destruct (m !! i).
  - by rewrite E, lookup_insert_eq, lookup_singleton_eq.
  - rewrite lookup_insert_ne, lookup_singleton_ne by done. by destruct (m !! i).
Qed.

Lemma lookup_SetIfNil_eq k v (m : gmap string Value) :
  SetIfNil k v m !! k = Some (default v (m !! k)).
Proof.
  unfold SetIfNil, Get, Set_. destruct (m !! k) eqn:E; simpl.
  - done.
  - apply lookup_insert_eq.
Qed.

Lemma lookup_SetIfNil_ne k v (m : gmap string Value) i :
  i ≠ k → SetIfNil k v m !! i = m !! i.
Proof.
  intros Hne. unfold SetIfNil, Get, Set_. destruct (m !! k); [done|].
  by apply lookup_insert_ne.
Qed.

Lemma defaulting_id : defaulting (λ m, m).
Proof. intros m. by rewrite (right_id_L ∅ (∪)). Qed.

Lemma defaulting_SetIfNil k v : defaulting (SetIfNil k v).
Proof. intros m. rewrite !SetIfNil_union. by rewrite (left_id_L ∅ (∪)). Qed.

Lemma defaulting_compose f g :
  defaulting f → defaulting g → defaulting (λ m, g (f m)).
Proof.
  intros Hf Hg m. rewrite (Hg (f m)), (Hg (f ∅)), (Hf m).
  by rewrite (assoc_L (∪)).
Qed.

(** What a defaulting run leaves at a key: the value of the document, or
    else the default. *)
Lemma defaulting_lookup f (m : gmap string Value) i :
  defaulting f →
  f m !! i = match m !! i with Some x => Some x | None => f ∅ !! i end.
Proof.
  intros Hf. rewrite (Hf m), lookup_union.
  by destruct (m !! i), (f ∅ !! i).
Qed.

Lemma defaulting_lookup_Some f (m : gmap string Value) i x :
  defaulting f → m !! i = Some x → f m !! i = Some x.
Proof. intros Hf Hm. by rewrite (defaulting_lookup f m i Hf), Hm. Qed.

(** Running the defaults a second time changes nothing. *)
Lemma defaulting_idemp f (m : gmap string Value) :
  defaulting f → f (f m) = f m.
Proof.
  intros Hf. rewrite (Hf (f m)), (Hf m).
  by rewrite <- (assoc_L (∪)), (idemp_L (∪)).
Qed.

Ltac defaulting_steps :=
  repeat first
    [ apply defaulting_SetIfNil
    | apply defaulting_id
    | refine (defaulting_compose _ (SetIfNil _ _) _ (defaulting_SetIfNil _ _)) ].

Section Defaults.
Context `{Externals}.

Lemma defaulting_logger : defaulting setTiFlashLoggerConfigDefault.
Proof. unfold setTiFlashLoggerConfigDefault. defaulting_steps. Qed.

Lemma defaulting_flash ref cn ns cd lh b c :
  defaulting (setTiFlashFlashConfigDefault ref cn ns cd lh b c).
Proof. unfold setTiFlashFlashConfigDefault. cbv zeta. defaulting_steps. Qed.

Lemma defaulting_raft ref cn ns cd b c :
  defaulting (setTiFlashRaftConfigDefault ref cn ns cd b c).
Proof.
  unfold setTiFlashRaftConfigDefault. cbv zeta.
  destruct c; [|destruct ref as [r|]; [destruct b|]]; defaulting_steps.
Qed.

Lemma defaulting_application : defaulting setTiFlashApplicationConfigDefault.
Proof. unfold setTiFlashApplicationConfigDefault. defaulting_steps. Qed.

Lemma defaulting_common ref cn ns cd lh a b c :
  defaulting (setTiFlashCommonConfigDefault ref cn ns cd lh a b c).
Proof.
  unfold setTiFlashCommonConfigDefault. cbv zeta.
  destruct (decide (lh = listenHostForIPv6));
  repeat first
    [ apply defaulting_SetIfNil
    | refine (defaulting_compose _ (SetIfNil _ _) _ (defaulting_SetIfNil _ _))
    | refine (defaulting_compose _ (setTiFlashRaftConfigDefault _ _ _ _ _ _) _
                (defaulting_raft _ _ _ _ _ _))
    | refine (defaulting_compose _ setTiFlashApplicationConfigDefault _
                defaulting_application)
    | refine (defaulting_compose _ setTiFlashLoggerConfigDefault _
                defaulting_logger)
    | refine (defaulting_compose _ (setTiFlashFlashConfigDefault _ _ _ _ _ _ _) _
                (defaulting_flash _ _ _ _ _ _ _)) ].
Qed.

Lemma defaulting_proxy cn ns cd lh :
  defaulting (setTiFlashProxyConfigDefault cn ns cd lh).
Proof. unfold setTiFlashProxyConfigDefault. defaulting_steps. Qed.

Lemma defaulting_V2_proxy {C} (tc : TidbCluster C) :
  defaulting (getTiFlashConfigV2_proxy tc).
Proof. unfold getTiFlashConfigV2_proxy. cbv zeta. defaulting_steps. Qed.

End Defaults.

(** ** Key-by-key reasoning *)

Ltac key_ne :=
  solve [ discriminate | assumption | apply not_eq_sym; assumption ].

Ltac lookups :=
  repeat first
    [ rewrite lookup_delete_eq
    | rewrite lookup_insert_eq
    | rewrite lookup_SetIfNil_eq
    | rewrite lookup_delete_ne by key_ne
    | rewrite lookup_insert_ne by key_ne
    | rewrite lookup_SetIfNil_ne by key_ne ].

Ltac key_case i k := destruct (decide (i = k)) as [->|?].

Section Legacy.
Context `{Externals}.

Lemma getTiFlashConfig_documents tc :
  getTiFlashConfig tc =
    {| Common := Some (legacyDocuments tc (inputCommon tc) (inputProxy tc)).1;
       Proxy := Some (legacyDocuments tc (inputCommon tc) (inputProxy tc)).2 |}.
Proof.
  unfold getTiFlashConfig, legacyDocuments, legacyCommonDefaults,
    legacyProxyDefaults, inputCommon, inputProxy, specConfig.
  cbv zeta. unfold setTiFlashConfigDefault. simpl.
  by destruct (getTiFlashConfig_tls _ _ _).
Qed.

Lemma storage_lookup_ne claims (m : gmap string Value) i :
  i ≠ "path" → getTiFlashConfig_storage claims m !! i = m !! i.
Proof.
  intros Hi. unfold getTiFlashConfig_storage, Get, Set_. cbv zeta.
  destruct (m !! "path"); [done|]. case_bool_decide; [|done].
  by rewrite lookup_insert_ne.
Qed.

Lemma storage_present claims (m : gmap string Value) :
  is_Some (m !! "path") → getTiFlashConfig_storage claims m = m.
Proof. intros [v Hv]. unfold getTiFlashConfig_storage, Get. by rewrite Hv. Qed.

Lemma storage_lookup_Some claims (m : gmap string Value) i x :
  m !! i = Some x → getTiFlashConfig_storage claims m !! i = Some x.
Proof.
  intros Hm. destruct (decide (i = "path")) as [->|Hne].
  - rewrite storage_present; eauto.
  - by rewrite storage_lookup_ne.
Qed.

Lemma defaulting_legacyCommon {C} (tc : TidbCluster C) :
  defaulting (legacyCommonDefaults tc).
Proof. unfold legacyCommonDefaults. apply defaulting_common. Qed.

Lemma defaulting_legacyProxy {C} (tc : TidbCluster C) :
  defaulting (legacyProxyDefaults tc).
Proof. unfold legacyProxyDefaults. apply defaulting_proxy. Qed.

(** Some entries of the table of legacy engine defaults. *)
Lemma legacy_default_table {C} (tc : TidbCluster C) :
  let D := legacyCommonDefaults tc ∅ in
  D !! "tcp_port" = Some (VInt 9000) ∧ D !! "http_port" = Some (VInt 8123)
  ∧ D !! "tcp_port_secure" = Some (VInt 9000)
  ∧ D !! "https_port" = Some (VInt 8123)
  ∧ D !! "path" = Some (VString "/data0/db")
  ∧ D !! "status.metrics_port" = Some (VInt 8234)
  ∧ D !! "listen_host"
    = Some (VString (if PreferIPv6 (Spec tc) then "::" else "0.0.0.0"))
  ∧ D !! "raft.pd_addr"
    = Some (VString (resolvePlacementService (hasReference tc) tc)).
Proof.
  destruct tc as [name ns [cd ref ipv6 tf] ver het across nopd notidb tls img pol].
  cbv zeta.
  unfold legacyCommonDefaults, resolvePlacementService, hasReference,
    setTiFlashCommonConfigDefault.
  cbn [Spec Cluster Name Namespace ClusterDomain PreferIPv6 WithoutLocalPD
       WithoutLocalTiDB AcrossK8s].
  destruct ipv6, across, ref as [r|], nopd; vm_compute;
    repeat split; reflexivity.
Qed.

Lemma legacy_default_path {C} (tc : TidbCluster C) :
  legacyCommonDefaults tc ∅ !! "path" = Some (VString "/data0/db").
Proof. apply (legacy_default_table tc). Qed.

End Legacy.
(** A document that agrees at [i] with a fixed point of the defaults, or
    has [i] set, keeps its value at [i] under the defaults. *)
Lemma defaulting_patched f (x o : gmap string Value) i :
  defaulting f → f x = x → o !! i = x !! i ∨ is_Some (o !! i) →
  f o !! i = o !! i.
Proof.
  intros Hf Hx Ho. rewrite (defaulting_lookup f o i Hf).
  destruct (o !! i) eqn:E; [done|].
  destruct Ho as [Ho|[? ?]]; [|done].
  rewrite <- Hx in Ho at 1. rewrite (defaulting_lookup f x i Hf) in Ho.
  destruct (x !! i); [done|]. by rewrite <- Ho.
Qed.

(** The proxy side of the TLS step, run again on its own result after the
    proxy defaults, gives that result.  [cv] is the allowed-CN value of
    the engine document. *)
Lemma tls_proxy_idemp Dp (y : gmap string Value) (ca cert key : Value)
    (cv : option Value) :
  defaulting Dp → Dp y = y →
  let P := λ q : gmap string Value,
    let q3 := <["security.key-path" := key]>
                (<["security.cert-path" := cert]>
                   (<["security.ca-path" := ca]> q)) in
    match cv, q !! "security.cert-allowed-cn" with
    | Some v, None => <["security.cert-allowed-cn" := v]> q3
    | _, _ => q3
    end in
  P (Dp (P y)) = P y.
Proof.
  intros HP Hy P.
  set (y3 := <["security.key-path" := key]>
        (<["security.cert-path" := cert]> (<["security.ca-path" := ca]> y))).
  assert (Hy3 : ∀ o,
    (o = y3 ∨ ∃ v, o = <["security.cert-allowed-cn" := v]> y3) →
    <["security.key-path" := key]>
      (<["security.cert-path" := cert]>
         (<["security.ca-path" := ca]> (Dp o))) = o
    ∧ Dp o !! "security.cert-allowed-cn" = o !! "security.cert-allowed-cn").
  { intros o Ho.
    assert (∀ i, Dp o !! i = o !! i) as Hi.
    { intros i. apply (defaulting_patched Dp y o i HP Hy).
      destruct Ho as [->|[v ->]]; unfold y3.
      - key_case i "security.key-path"; [right; lookups; eauto|].
        key_case i "security.cert-path"; [right; lookups; eauto|].
        key_case i "security.ca-path"; [right; lookups; eauto|].
        left. by lookups.
      - key_case i "security.cert-allowed-cn"; [right; lookups; eauto|].
        key_case i "security.key-path"; [right; lookups; eauto|].
        key_case i "security.cert-path"; [right; lookups; eauto|].
        key_case i "security.ca-path"; [right; lookups; eauto|].
        left. by lookups. }
    split; [|apply Hi]. apply map_eq; intros i.
    key_case i "security.key-path";
      [destruct Ho as [->|[v ->]]; unfold y3; by lookups|].
    key_case i "security.cert-path";
      [destruct Ho as [->|[v ->]]; unfold y3; by lookups|].
    key_case i "security.ca-path";
      [destruct Ho as [->|[v ->]]; unfold y3; by lookups|].
    lookups. apply Hi. }
  unfold P. cbv zeta. fold y3.
  destruct cv as [v|].
  - destruct (y !! "security.cert-allowed-cn") as [w|] eqn:Ew.
    + destruct (Hy3 y3 (or_introl eq_refl)) as [-> ->]. unfold y3 at 1.
      lookups. by rewrite Ew.
    + destruct (Hy3 (<["security.cert-allowed-cn" := v]> y3)
                  (or_intror (ex_intro _ v eq_refl))) as [-> ->].
      by lookups.
  - destruct (y !! "security.cert-allowed-cn");
      destruct (Hy3 y3 (or_introl eq_refl)) as [-> _];
      by destruct (Dp y3 !! "security.cert-allowed-cn").
Qed.

Section LegacyIdem.
Context `{Externals}.

Lemma legacyDocuments_idemp {C} (tc : TidbCluster C) c p :
  legacyDocuments tc (legacyDocuments tc c p).1 (legacyDocuments tc c p).2
  = legacyDocuments tc c p.
Proof.
  unfold legacyDocuments.
  set (claims := StorageClaims _).
  pose proof (defaulting_legacyCommon tc) as HD.
  pose proof (defaulting_legacyProxy tc) as HP.
  pose proof (legacy_default_path tc) as Hpath.
  revert HD HP Hpath.
  generalize (legacyCommonDefaults tc).
  generalize (legacyProxyDefaults tc).
  intros Dp D HD HP Hpath.
  set (x := D (getTiFlashConfig_storage claims c)).
  assert (Hx : D x = x) by apply (defaulting_idemp D _ HD).
  assert (Hxpath : is_Some (x !! "path")).
  { unfold x. rewrite (defaulting_lookup D _ _ HD), Hpath.
    destruct (getTiFlashConfig_storage claims c !! "path"); eauto. }
  set (y := Dp p).
  assert (Hy : Dp y = y) by apply (defaulting_idemp Dp _ HP).
  unfold getTiFlashConfig_tls, Set_, Del, Get.
  set (ca := VString (path_Join tiflashCertPath ServiceAccountRootCAKey)).
  set (cert := VString (path_Join tiflashCertPath TLSCertKey)).
  set (key := VString (path_Join tiflashCertPath TLSPrivateKeyKey)).
  destruct (IsTLSClusterEnabled tc); cbv zeta; cbn [fst snd].
  - rewrite storage_present by (by lookups).
    set (oc := delete "tcp_port" (delete "http_port"
      (<["security.key_path" := key]> (<["security.cert_path" := cert]>
        (<["security.ca_path" := ca]> x))))).
    assert (Hoc : ∀ i, i ≠ "tcp_port" → i ≠ "http_port" → D oc !! i = oc !! i).
    { intros i ? ?. apply (defaulting_patched D x oc i HD Hx). unfold oc.
      key_case i "security.key_path"; [right; lookups; eauto|].
      key_case i "security.cert_path"; [right; lookups; eauto|].
      key_case i "security.ca_path"; [right; lookups; eauto|].
      left. by lookups. }
    f_equal.
    + apply map_eq; intros i.
      key_case i "tcp_port"; [unfold oc; by lookups|].
      key_case i "http_port"; [unfold oc; by lookups|].
      key_case i "security.key_path"; [unfold oc; by lookups|].
      key_case i "security.cert_path"; [unfold oc; by lookups|].
      key_case i "security.ca_path"; [unfold oc; by lookups|].
      lookups. rewrite Hoc by done. unfold oc. by lookups.
    + assert (oc !! "security.cert_allowed_cn"
              = x !! "security.cert_allowed_cn") as Hcn
        by (unfold oc; by lookups).
      lookups. rewrite Hoc by done. rewrite ?Hcn.
      apply (tls_proxy_idemp Dp y ca cert key
               (x !! "security.cert_allowed_cn") HP Hy).
  - f_equal; [|done].
    rewrite storage_present by (by lookups).
    apply map_eq; intros i.
    key_case i "tcp_port_secure"; [by lookups|].
    key_case i "https_port"; [by lookups|].
    lookups.
    etrans; [apply (defaulting_patched D x _ i HD Hx); left; by lookups|].
    by lookups.
Qed.

End LegacyIdem.

Section Current.
Context `{Externals}.

Lemma getTiFlashConfigV2_documents tc :
  getTiFlashConfigV2 tc =
    {| Common := Some (currentDocuments tc (inputCommon tc) (inputProxy tc)).1;
       Proxy := Some (currentDocuments tc (inputCommon tc) (inputProxy tc)).2 |}.
Proof.
  unfold getTiFlashConfigV2, currentDocuments, inputCommon, inputProxy,
    specConfig.
  cbv zeta. by destruct (getTiFlashConfigV2_tls _ _ _).
Qed.

Lemma defaulting_V2_defaults {C} (tc : TidbCluster C) :
  defaulting (getTiFlashConfigV2_defaults tc).
Proof.
  unfold getTiFlashConfigV2_defaults. cbv zeta.
  destruct (decide _); defaulting_steps.
Qed.

(** The storage part of the current dialect leaves every key but its two
    alone. *)
Lemma V2_storage_lookup_ne {C} (tc : TidbCluster C) (m : gmap string Value) i :
  i ≠ "storage.main.dir" → i ≠ "storage.raft.dir" →
  getTiFlashConfigV2_storage tc m !! i = m !! i.
Proof.
  intros H1 H2. unfold getTiFlashConfigV2_storage, Get, Set_. cbv zeta.
  destruct (m !! "path"), (m !! "storage.main.dir");
    match goal with |- context [match ?s !! "raft.kvstore_path" with _ => _ end] =>
      destruct (s !! "raft.kvstore_path") end;
    by lookups.
Qed.

Lemma V2_storage_lookup_Some {C} (tc : TidbCluster C) (m : gmap string Value) i x :
  m !! i = Some x → getTiFlashConfigV2_storage tc m !! i = Some x.
Proof.
  intros Hm. unfold getTiFlashConfigV2_storage, Get, Set_. cbv zeta.
  destruct (m !! "path") eqn:E1, (m !! "storage.main.dir") eqn:E2;
    match goal with |- context [match ?s !! "raft.kvstore_path" with _ => _ end] =>
      destruct (s !! "raft.kvstore_path") end;
    try done;
    (key_case i "storage.raft.dir"; [lookups|]);
    (try (key_case i "storage.main.dir"; [congruence|])); lookups;
    try rewrite Hm; try done.
Qed.

Lemma V2_storage_settled_id {C} (tc : TidbCluster C) (m : gmap string Value) :
  storageSettled m → getTiFlashConfigV2_storage tc m = m.
Proof.
  intros [Hmain Hraft]. unfold getTiFlashConfigV2_storage, Get, Set_, SetIfNil, Get.
  cbv zeta.
  assert (match m !! "path", m !! "storage.main.dir" with
          | None, None => <["storage.main.dir" := VStrings
              (if bool_decide (length (storagePaths (StorageClaims (TiFlash (Spec tc)))) = 0%nat)
               then ["/data0/db"] else storagePaths (StorageClaims (TiFlash (Spec tc))))]> m
          | _, _ => m end = m) as ->.
  { destruct Hmain as [[? ->]|[? ->]]; [done|]. by destruct (m !! "path"). }
  destruct Hraft as [[? ->]|[? ->]]; [done|]. by destruct (m !! "raft.kvstore_path").
Qed.

Lemma V2_storage_settles {C} (tc : TidbCluster C) (m : gmap string Value) :
  storageSettled (getTiFlashConfigV2_storage tc m).
Proof.
  unfold storageSettled, getTiFlashConfigV2_storage, Get, Set_. cbv zeta.
  destruct (m !! "path") eqn:E1, (m !! "storage.main.dir") eqn:E2;
    match goal with |- context [match ?s !! "raft.kvstore_path" with _ => _ end] =>
      destruct (s !! "raft.kvstore_path") eqn:E3 end;
    try rewrite lookup_insert_ne in E3 by done;
    split; lookups; rewrite ?E1, ?E2, ?E3; eauto.
Qed.

End Current.

Section CurrentIdem.
Context `{Externals}.

Lemma storageSettled_lookups (m o : gmap string Value) :
  storageSettled m →
  (∀ i x, m !! i = Some x → o !! i = Some x) →
  storageSettled o.
Proof.
  intros [Hmain Hraft] Hsub. split.
  - destruct Hmain as [[? E]|[? E]]; apply Hsub in E; eauto.
  - destruct Hraft as [[? E]|[? E]]; apply Hsub in E; eauto.
Qed.

Lemma storageSettled_agree (m o : gmap string Value) :
  o !! "path" = m !! "path" →
  o !! "storage.main.dir" = m !! "storage.main.dir" →
  o !! "raft.kvstore_path" = m !! "raft.kvstore_path" →
  o !! "storage.raft.dir" = m !! "storage.raft.dir" →
  storageSettled m → storageSettled o.
Proof. unfold storageSettled. by intros -> -> -> ->. Qed.

Lemma currentDocuments_idemp {C} (tc : TidbCluster C) c p :
  currentDocuments tc (currentDocuments tc c p).1 (currentDocuments tc c p).2
  = currentDocuments tc c p.
Proof.
  unfold currentDocuments, getTiFlashConfigV2_common.
  pose proof (defaulting_V2_defaults tc) as HD.
  pose proof (defaulting_V2_proxy tc) as HP.
  pose proof (V2_storage_settles tc c) as HS.
  revert HD HP HS.
  generalize (getTiFlashConfigV2_defaults tc).
  generalize (getTiFlashConfigV2_proxy tc).
  intros Dp D HD HP HS.
  set (x := D (getTiFlashConfigV2_storage tc c)).
  assert (Hx : D x = x) by apply (defaulting_idemp D _ HD).
  assert (Hxs : storageSettled x).
  { apply (storageSettled_lookups _ _ HS). intros i v Hv.
    by apply defaulting_lookup_Some. }
  set (y := Dp p).
  assert (Hy : Dp y = y) by apply (defaulting_idemp Dp _ HP).
  unfold getTiFlashConfigV2_tls, Set_, Del, Get.
  set (ca := VString (path_Join tiflashCertPath ServiceAccountRootCAKey)).
  set (cert := VString (path_Join tiflashCertPath TLSCertKey)).
  set (key := VString (path_Join tiflashCertPath TLSPrivateKeyKey)).
  destruct (IsTLSClusterEnabled tc); cbv zeta; cbn [fst snd].
  - set (oc := delete "tcp_port" (delete "http_port"
      (SetIfNil "https_port" (VInt 8123) (SetIfNil "tcp_port_secure" (VInt 9000)
        (<["security.key_path" := key]> (<["security.cert_path" := cert]>
          (<["security.ca_path" := ca]> x))))))).
    assert (Hocs : storageSettled oc).
    { apply (storageSettled_agree x); [unfold oc; by lookups..|done]. }
    rewrite (V2_storage_settled_id tc oc Hocs).
    assert (Hoc : ∀ i, i ≠ "tcp_port" → i ≠ "http_port" → D oc !! i = oc !! i).
    { intros i ? ?. apply (defaulting_patched D x oc i HD Hx). unfold oc.
      key_case i "https_port"; [right; lookups; eauto|].
      key_case i "tcp_port_secure"; [right; lookups; eauto|].
      key_case i "security.key_path"; [right; lookups; eauto|].
      key_case i "security.cert_path"; [right; lookups; eauto|].
      key_case i "security.ca_path"; [right; lookups; eauto|].
      left. by lookups. }
    f_equal.
    + apply map_eq; intros i.
      key_case i "tcp_port"; [unfold oc; by lookups|].
      key_case i "http_port"; [unfold oc; by lookups|].
      key_case i "https_port";
        [lookups; rewrite Hoc by done; unfold oc; by lookups|].
      key_case i "tcp_port_secure";
        [lookups; rewrite Hoc by done; unfold oc; by lookups|].
      key_case i "security.key_path"; [unfold oc; by lookups|].
      key_case i "security.cert_path"; [unfold oc; by lookups|].
      key_case i "security.ca_path"; [unfold oc; by lookups|].
      lookups. rewrite Hoc by done. unfold oc. by lookups.
    + assert (oc !! "security.cert_allowed_cn"
              = x !! "security.cert_allowed_cn") as Hcn
        by (unfold oc; by lookups).
      lookups. rewrite Hoc by done. rewrite !Hcn.
      apply (tls_proxy_idemp Dp y ca cert key
               (x !! "security.cert_allowed_cn") HP Hy).
  - rewrite (V2_storage_settled_id tc x Hxs). by rewrite Hx, Hy.
Qed.

End CurrentIdem.

(** ** Idempotence *)

Section Idempotence.
Context `{Externals}.

Lemma legacyDocuments_withConfig {C D} (tc : TidbCluster C) (cfg : option D) c p :
  legacyDocuments (withConfig tc cfg) c p = legacyDocuments tc c p.
Proof.
  unfold legacyDocuments, legacyCommonDefaults, legacyProxyDefaults.
  by cbn [withConfig Spec TiFlash StorageClaims Cluster Name Namespace
          ClusterDomain PreferIPv6 WithoutLocalPD WithoutLocalTiDB AcrossK8s
          IsTLSClusterEnabled].
Qed.

Lemma currentDocuments_withConfig {C D} (tc : TidbCluster C) (cfg : option D) c p :
  currentDocuments (withConfig tc cfg) c p = currentDocuments tc c p.
Proof. reflexivity. Qed.

Lemma getTiFlashConfig_idemp tc :
  getTiFlashConfig (withConfig tc (Some (getTiFlashConfig tc)))
  = getTiFlashConfig tc.
Proof.
  rewrite (getTiFlashConfig_documents (withConfig _ _)).
  rewrite legacyDocuments_withConfig.
  rewrite (getTiFlashConfig_documents tc).
  unfold inputCommon, inputProxy, specConfig. simpl.
  by rewrite legacyDocuments_idemp.
Qed.

Lemma getTiFlashConfigV2_idemp tc :
  getTiFlashConfigV2 (withConfig tc (Some (getTiFlashConfigV2 tc)))
  = getTiFlashConfigV2 tc.
Proof.
  rewrite (getTiFlashConfigV2_documents (withConfig _ _)).
  rewrite currentDocuments_withConfig.
  rewrite (getTiFlashConfigV2_documents tc).
  unfold inputCommon, inputProxy, specConfig. simpl.
  by rewrite currentDocuments_idemp.
Qed.

(** C1.  Synthesis is idempotent: feeding the document a synthesizer
    produced back in as the partial input, with the same topology, gives
    the same document again.  This holds for the legacy synthesizer, for
    the current one, and for [GetTiFlashConfig], which picks between them
    by the version; the cluster [tc] is arbitrary, so both TLS postures
    are covered. *)
Theorem synthesis_idempotent (tc : TidbCluster TiFlashConfigWraper) :
  getTiFlashConfig (withConfig tc (Some (getTiFlashConfig tc)))
    = getTiFlashConfig tc
  ∧ getTiFlashConfigV2 (withConfig tc (Some (getTiFlashConfigV2 tc)))
    = getTiFlashConfigV2 tc
  ∧ GetTiFlashConfig (withConfig tc (Some (GetTiFlashConfig tc)))
    = GetTiFlashConfig tc.
Proof.
  split; [apply getTiFlashConfig_idemp|].
  split; [apply getTiFlashConfigV2_idemp|].
  unfold GetTiFlashConfig. cbn [TiFlashVersion withConfig].
  destruct (checkV540 (TiFlashVersion tc)).
  - apply getTiFlashConfigV2_idemp.
  - apply getTiFlashConfig_idemp.
Qed.

End Idempotence.

(** Under [tc.Heterogeneous()] the pointer [ref] is not nil, so the
    current dialect never reads through nil. *)
Lemma Heterogeneous_deref {C} (tc : TidbCluster C) :
  Heterogeneous tc = true →
  Cluster (Spec tc) = Some (deref (Cluster (Spec tc))).
Proof.
  unfold Heterogeneous. intros Hh. apply andb_true_iff in Hh as [_ Hh].
  apply bool_decide_eq_true in Hh. by destruct Hh as [ref ->].
Qed.

(** ** Reading the output key by key *)

Section Lookups.
Context `{Externals}.

Lemma commonGet_specConfig tc i :
  commonGet i (specConfig tc) = inputCommon tc !! i.
Proof.
  unfold commonGet, inputCommon, NewTiFlashCommonConfig, Get.
  by destruct (Common (specConfig tc)).
Qed.

Lemma proxyGet_specConfig tc i :
  proxyGet i (specConfig tc) = inputProxy tc !! i.
Proof.
  unfold proxyGet, inputProxy, NewTiFlashProxyConfig, Get.
  by destruct (Proxy (specConfig tc)).
Qed.

Lemma commonGet_getTiFlashConfig tc i :
  commonGet i (getTiFlashConfig tc)
  = (legacyDocuments tc (inputCommon tc) (inputProxy tc)).1 !! i.
Proof. by rewrite getTiFlashConfig_documents. Qed.

Lemma proxyGet_getTiFlashConfig tc i :
  proxyGet i (getTiFlashConfig tc)
  = (legacyDocuments tc (inputCommon tc) (inputProxy tc)).2 !! i.
Proof. by rewrite getTiFlashConfig_documents. Qed.

Lemma commonGet_getTiFlashConfigV2 tc i :
  commonGet i (getTiFlashConfigV2 tc)
  = (currentDocuments tc (inputCommon tc) (inputProxy tc)).1 !! i.
Proof. by rewrite getTiFlashConfigV2_documents. Qed.

Lemma proxyGet_getTiFlashConfigV2 tc i :
  proxyGet i (getTiFlashConfigV2 tc)
  = (currentDocuments tc (inputCommon tc) (inputProxy tc)).2 !! i.
Proof. by rewrite getTiFlashConfigV2_documents. Qed.

(** The engine document of the legacy dialect before the TLS step. *)
Lemma legacy_engine_lookup {C} (tc : TidbCluster C) c p i :
  i ∉ tlsEngineKeys false (IsTLSClusterEnabled tc) →
  (legacyDocuments tc c p).1 !! i
  = legacyCommonDefaults tc
      (getTiFlashConfig_storage (StorageClaims (TiFlash (Spec tc))) c) !! i.
Proof.
  unfold legacyDocuments, getTiFlashConfig_tls, tlsEngineKeys, Set_, Del.
  destruct (IsTLSClusterEnabled tc); cbn [fst]; intros Hi;
    rewrite !not_elem_of_cons in Hi; destruct_and!; by lookups.
Qed.

(** Some entries of the table of engine defaults of the current dialect. *)
Lemma current_default_table {C} (tc : TidbCluster C) :
  let D := getTiFlashConfigV2_defaults tc ∅ in
  D !! "tcp_port" = Some (VInt 9000) ∧ D !! "http_port" = Some (VInt 8123)
  ∧ D !! "tcp_port_secure" = None ∧ D !! "https_port" = None
  ∧ D !! "path" = None ∧ D !! "storage.main.dir" = None
  ∧ D !! "status.metrics_port"
    = (if PreferIPv6 (Spec tc) then Some (VInt 8234) else None)
  ∧ D !! "listen_host"
    = (if PreferIPv6 (Spec tc) then Some (VString "::") else None)
  ∧ D !! "raft.pd_addr" = Some (VString (placementServiceAddress tc)).
Proof.
  destruct tc as [name ns [cd ref ipv6 tf] ver het across nopd notidb tls img pol].
  cbv zeta.
  unfold getTiFlashConfigV2_defaults, placementServiceAddress,
    resolvePlacementService, Heterogeneous.
  cbn [Spec Cluster Name Namespace ClusterDomain PreferIPv6 WithoutLocalPD
       WithoutLocalTiDB AcrossK8s heterogeneous].
  destruct ipv6, across, ref as [r|], nopd, het; vm_compute;
    repeat split; reflexivity.
Qed.

(** Values of the partial input survive the legacy synthesizer at every
    key the TLS step does not touch. *)
Lemma legacy_engine_preserved {C} (tc : TidbCluster C) c p i v :
  i ∉ tlsEngineKeys false (IsTLSClusterEnabled tc) →
  c !! i = Some v → (legacyDocuments tc c p).1 !! i = Some v.
Proof.
  intros Hi Hc. rewrite legacy_engine_lookup by done.
  apply defaulting_lookup_Some; [apply defaulting_legacyCommon|].
  by apply storage_lookup_Some.
Qed.

Lemma current_engine_preserved {C} (tc : TidbCluster C) c p i v :
  i ∉ tlsEngineKeys true (IsTLSClusterEnabled tc) →
  c !! i = Some v → (currentDocuments tc c p).1 !! i = Some v.
Proof.
  intros Hi Hc.
  assert (getTiFlashConfigV2_common tc c !! i = Some v) as Hx.
  { unfold getTiFlashConfigV2_common.
    apply defaulting_lookup_Some; [apply defaulting_V2_defaults|].
    by apply V2_storage_lookup_Some. }
  revert Hi. unfold currentDocuments.
  generalize (getTiFlashConfigV2_common tc c) Hx. intros x Hx'.
  unfold getTiFlashConfigV2_tls, tlsEngineKeys, Set_, Del.
  destruct (IsTLSClusterEnabled tc); cbn [fst]; [|done].
  intros Hi. rewrite !not_elem_of_cons in Hi. destruct_and!.
  rewrite !lookup_delete_ne by done.
  key_case i "https_port".
  { rewrite lookup_SetIfNil_eq, lookup_SetIfNil_ne by done.
    rewrite !lookup_insert_ne by done. by rewrite Hx'. }
  rewrite lookup_SetIfNil_ne by done.
  key_case i "tcp_port_secure".
  { rewrite lookup_SetIfNil_eq. rewrite !lookup_insert_ne by done.
    by rewrite Hx'. }
  by lookups.
Qed.

(** The proxy side of either TLS step keeps what the proxy document has
    at every key but the three certificate paths. *)
Lemma tls_proxy_preserved (y : gmap string Value) (ca cert key : Value)
    (cv : option Value) i v :
  i ≠ "security.ca-path" → i ≠ "security.cert-path" →
  i ≠ "security.key-path" → y !! i = Some v →
  match cv,
        (<["security.key-path" := key]>
           (<["security.cert-path" := cert]>
              (<["security.ca-path" := ca]> y))) !! "security.cert-allowed-cn"
  with
  | Some w, None =>
      <["security.cert-allowed-cn" := w]>
        (<["security.key-path" := key]>
           (<["security.cert-path" := cert]> (<["security.ca-path" := ca]> y)))
  | _, _ =>
      <["security.key-path" := key]>
        (<["security.cert-path" := cert]> (<["security.ca-path" := ca]> y))
  end !! i = Some v.
Proof.
  intros H1 H2 H3 Hy. lookups.
  destruct cv as [w|]; [|by lookups].
  destruct (y !! "security.cert-allowed-cn") eqn:E; [by lookups|].
  key_case i "security.cert-allowed-cn"; [congruence|]. by lookups.
Qed.

Lemma legacy_proxy_preserved {C} (tc : TidbCluster C) c p i v :
  i ∉ tlsProxyKeys (IsTLSClusterEnabled tc) →
  p !! i = Some v → (legacyDocuments tc c p).2 !! i = Some v.
Proof.
  intros Hi Hp.
  assert (legacyProxyDefaults tc p !! i = Some v) as Hy
    by (apply defaulting_lookup_Some; [apply defaulting_legacyProxy|done]).
  revert Hi. unfold legacyDocuments.
  generalize (legacyProxyDefaults tc p) Hy. intros y Hy'.
  unfold getTiFlashConfig_tls, tlsProxyKeys, Set_, Del, Get.
  destruct (IsTLSClusterEnabled tc); cbn [snd]; [|done].
  intros Hi. rewrite !not_elem_of_cons in Hi. destruct_and!.
  by apply tls_proxy_preserved.
Qed.

Lemma current_proxy_preserved {C} (tc : TidbCluster C) c p i v :
  i ∉ tlsProxyKeys (IsTLSClusterEnabled tc) →
  p !! i = Some v → (currentDocuments tc c p).2 !! i = Some v.
Proof.
  intros Hi Hp.
  assert (getTiFlashConfigV2_proxy tc p !! i = Some v) as Hy
    by (apply defaulting_lookup_Some; [apply defaulting_V2_proxy|done]).
  revert Hi. unfold currentDocuments.
  generalize (getTiFlashConfigV2_proxy tc p) Hy. intros y Hy'.
  unfold getTiFlashConfigV2_tls, tlsProxyKeys, Set_, Del, Get.
  destruct (IsTLSClusterEnabled tc); cbn [snd]; [|done].
  intros Hi. rewrite !not_elem_of_cons in Hi. destruct_and!.
  by apply tls_proxy_preserved.
Qed.

End Lookups.

(** ** Override preservation *)

Section Overrides.
Context `{Externals}.

(** C2, amended.  A value the partial input defines is the value of the
    output at the same key, for every key of the engine document other
    than those the closing TLS step deletes or overwrites
    ([tlsEngineKeys]: the plaintext ports and the three certificate paths
    when TLS is enabled, the secure ports in the legacy dialect when TLS
    is disabled), and for every key of the proxy document other than the
    three certificate paths when TLS is enabled.  It holds for each
    dialect and any topology. *)
Theorem explicit_input_wins (tc : TidbCluster TiFlashConfigWraper)
    (i : string) (v : Value) :
  (commonGet i (specConfig tc) = Some v →
   i ∉ tlsEngineKeys false (IsTLSClusterEnabled tc) →
   commonGet i (getTiFlashConfig tc) = Some v)
  ∧ (commonGet i (specConfig tc) = Some v →
     i ∉ tlsEngineKeys true (IsTLSClusterEnabled tc) →
     commonGet i (getTiFlashConfigV2 tc) = Some v)
  ∧ (proxyGet i (specConfig tc) = Some v →
     i ∉ tlsProxyKeys (IsTLSClusterEnabled tc) →
     proxyGet i (getTiFlashConfig tc) = Some v
     ∧ proxyGet i (getTiFlashConfigV2 tc) = Some v).
Proof.
  rewrite commonGet_specConfig, proxyGet_specConfig.
  rewrite commonGet_getTiFlashConfig, commonGet_getTiFlashConfigV2.
  rewrite proxyGet_getTiFlashConfig, proxyGet_getTiFlashConfigV2.
  split; [|split].
  - intros Hv Hi. by apply legacy_engine_preserved.
  - intros Hv Hi. by apply current_engine_preserved.
  - intros Hv Hi. split.
    + by apply legacy_proxy_preserved.
    + by apply current_proxy_preserved.
Qed.

End Overrides.

(** C2 as stated fails: with TLS enabled, a caller who sets the default
    key ["tcp_port"] does not find it in the output. *)
Lemma tcp_port_input_lost_under_tls :
  commonGet "tcp_port"
    (specConfig (sampleCluster "v5.4.0" 0 true false
                   (Some (engineOnly "tcp_port" (VInt 9001)))))
    = Some (VInt 9001)
  ∧ commonGet "tcp_port"
      (@GetTiFlashConfig sampleExternals
         (sampleCluster "v5.4.0" 0 true false
            (Some (engineOnly "tcp_port" (VInt 9001)))))
    = None
  ∧ commonGet "tcp_port"
      (@getTiFlashConfig sampleExternals
         (sampleCluster "v5.3.9" 0 true false
            (Some (engineOnly "tcp_port" (VInt 9001)))))
    = None.
Proof. vm_compute. repeat split; reflexivity. Qed.

(** The amended C2 at a concrete input: a caller's ["logger.level"] and a
    caller's ["tcp_port_secure"] under TLS are kept by both dialects. *)
Lemma explicit_input_wins_witness :
  commonGet "tcp_port_secure"
    (@getTiFlashConfig sampleExternals
       (sampleCluster "v5.3.9" 0 true false
          (Some (engineOnly "tcp_port_secure" (VInt 9443)))))
    = Some (VInt 9443)
  ∧ commonGet "tcp_port_secure"
      (@getTiFlashConfigV2 sampleExternals
         (sampleCluster "v5.3.9" 0 true false
            (Some (engineOnly "tcp_port_secure" (VInt 9443)))))
    = Some (VInt 9443).
Proof.
  split.
  - apply (proj1 (@explicit_input_wins sampleExternals
      (sampleCluster "v5.3.9" 0 true false
         (Some (engineOnly "tcp_port_secure" (VInt 9443))))
      "tcp_port_secure" (VInt 9443))); [reflexivity|].
    cbn. rewrite !not_elem_of_cons.
    repeat split; try discriminate. apply not_elem_of_nil.
  - apply (proj1 (proj2 (@explicit_input_wins sampleExternals
      (sampleCluster "v5.3.9" 0 true false
         (Some (engineOnly "tcp_port_secure" (VInt 9443))))
      "tcp_port_secure" (VInt 9443)))); [reflexivity|].
    cbn. rewrite !not_elem_of_cons.
    repeat split; try discriminate. apply not_elem_of_nil.
Defined.

(** ** Ports, addresses and storage paths *)

Section Ports.
Context `{Externals}.

(** A default key is set in the engine document of the legacy dialect
    before the TLS step, whatever the input. *)
Lemma legacy_default_present {C} (tc : TidbCluster C) (m : gmap string Value)
    i v :
  legacyCommonDefaults tc ∅ !! i = Some v →
  is_Some (legacyCommonDefaults tc m !! i).
Proof.
  intros Hd. rewrite (defaulting_lookup _ m i (defaulting_legacyCommon tc)).
  rewrite Hd. destruct (m !! i); eauto.
Qed.

(** The two port families in the engine document of the legacy
    dialect. *)
Lemma legacy_ports {C} (tc : TidbCluster C) c p :
  let o := (legacyDocuments tc c p).1 in
  if IsTLSClusterEnabled tc then
    is_Some (o !! "tcp_port_secure") ∧ is_Some (o !! "https_port")
    ∧ o !! "tcp_port" = None ∧ o !! "http_port" = None
  else
    is_Some (o !! "tcp_port") ∧ is_Some (o !! "http_port")
    ∧ o !! "tcp_port_secure" = None ∧ o !! "https_port" = None.
Proof.
  destruct (legacy_default_table tc) as (Htcp & Hhttp & Htps & Hhs & _).
  cbv zeta. unfold legacyDocuments, getTiFlashConfig_tls, Set_, Del.
  destruct (IsTLSClusterEnabled tc); cbn [fst]; lookups.
  - split; [exact (legacy_default_present tc _ _ _ Htps)|].
    split; [exact (legacy_default_present tc _ _ _ Hhs)|]. by split.
  - split; [exact (legacy_default_present tc _ _ _ Htcp)|].
    split; [exact (legacy_default_present tc _ _ _ Hhttp)|]. by split.
Qed.

(** C4.  In the legacy dialect, for every partial input: with TLS enabled
    the engine document has [tcp_port_secure] and [https_port] and has
    neither [tcp_port] nor [http_port]; with TLS disabled it has
    [tcp_port] and [http_port] and has neither [tcp_port_secure] nor
    [https_port]. *)
Theorem legacy_port_families (tc : TidbCluster TiFlashConfigWraper) :
  if IsTLSClusterEnabled tc then
    is_Some (commonGet "tcp_port_secure" (getTiFlashConfig tc))
    ∧ is_Some (commonGet "https_port" (getTiFlashConfig tc))
    ∧ commonGet "tcp_port" (getTiFlashConfig tc) = None
    ∧ commonGet "http_port" (getTiFlashConfig tc) = None
  else
    is_Some (commonGet "tcp_port" (getTiFlashConfig tc))
    ∧ is_Some (commonGet "http_port" (getTiFlashConfig tc))
    ∧ commonGet "tcp_port_secure" (getTiFlashConfig tc) = None
    ∧ commonGet "https_port" (getTiFlashConfig tc) = None.
Proof.
  rewrite !commonGet_getTiFlashConfig.
  exact (legacy_ports tc (inputCommon tc) (inputProxy tc)).
Qed.

(** C7.  With TLS disabled the current dialect deletes nothing: every
    value of the partial input, [tcp_port_secure] and [https_port]
    included, is in the output unchanged, next to the plaintext ports.
    The legacy dialect on the same input has neither secure port. *)
Theorem current_dialect_keeps_secure_ports
    (tc : TidbCluster TiFlashConfigWraper) :
  IsTLSClusterEnabled tc = false →
  (∀ i v, commonGet i (specConfig tc) = Some v →
          commonGet i (getTiFlashConfigV2 tc) = Some v)
  ∧ is_Some (commonGet "tcp_port" (getTiFlashConfigV2 tc))
  ∧ is_Some (commonGet "http_port" (getTiFlashConfigV2 tc))
  ∧ commonGet "tcp_port_secure" (getTiFlashConfig tc) = None
  ∧ commonGet "https_port" (getTiFlashConfig tc) = None.
Proof.
  intros Htls. split; [|split; [|split]].
  - intros i v. rewrite commonGet_specConfig, commonGet_getTiFlashConfigV2.
    intros Hv. apply current_engine_preserved; [|done].
    rewrite Htls. apply not_elem_of_nil.
  - rewrite commonGet_getTiFlashConfigV2.
    unfold currentDocuments, getTiFlashConfigV2_tls. rewrite Htls. cbn [fst].
    unfold getTiFlashConfigV2_common.
    rewrite (defaulting_lookup _ _ _ (defaulting_V2_defaults tc)).
    destruct (current_default_table tc) as (-> & _).
    destruct (_ !! "tcp_port"); eauto.
  - rewrite commonGet_getTiFlashConfigV2.
    unfold currentDocuments, getTiFlashConfigV2_tls. rewrite Htls. cbn [fst].
    unfold getTiFlashConfigV2_common.
    rewrite (defaulting_lookup _ _ _ (defaulting_V2_defaults tc)).
    destruct (current_default_table tc) as (_ & -> & _).
    destruct (_ !! "http_port"); eauto.
  - rewrite !commonGet_getTiFlashConfig.
    pose proof (legacy_ports tc (inputCommon tc) (inputProxy tc)) as Hl.
    cbv zeta in Hl. rewrite Htls in Hl. tauto.
Qed.

End Ports.

(** C7 at a concrete input: TLS disabled, current dialect, a caller's
    [tcp_port_secure]. *)
Lemma current_dialect_keeps_secure_ports_witness :
  IsTLSClusterEnabled
    (sampleCluster "v5.4.0" 0 false false
       (Some (engineOnly "tcp_port_secure" (VInt 9443)))) = false
  ∧ ((∀ i v,
        commonGet i
          (specConfig (sampleCluster "v5.4.0" 0 false false
             (Some (engineOnly "tcp_port_secure" (VInt 9443))))) = Some v →
        commonGet i
          (@getTiFlashConfigV2 sampleExternals
             (sampleCluster "v5.4.0" 0 false false
                (Some (engineOnly "tcp_port_secure" (VInt 9443))))) = Some v)
     ∧ is_Some (commonGet "tcp_port"
          (@getTiFlashConfigV2 sampleExternals
             (sampleCluster "v5.4.0" 0 false false
                (Some (engineOnly "tcp_port_secure" (VInt 9443))))))
     ∧ is_Some (commonGet "http_port"
          (@getTiFlashConfigV2 sampleExternals
             (sampleCluster "v5.4.0" 0 false false
                (Some (engineOnly "tcp_port_secure" (VInt 9443))))))
     ∧ commonGet "tcp_port_secure"
         (@getTiFlashConfig sampleExternals
            (sampleCluster "v5.4.0" 0 false false
               (Some (engineOnly "tcp_port_secure" (VInt 9443))))) = None
     ∧ commonGet "https_port"
         (@getTiFlashConfig sampleExternals
            (sampleCluster "v5.4.0" 0 false false
               (Some (engineOnly "tcp_port_secure" (VInt 9443))))) = None).
Proof.
  split; [reflexivity|].
  apply (@current_dialect_keeps_secure_ports sampleExternals). reflexivity.
Defined.

Section Addresses.
Context `{Externals}.

(** The engine document of the current dialect at a key the TLS step does
    not touch. *)
Lemma current_engine_lookup {C} (tc : TidbCluster C) c p i :
  i ∉ tlsEngineKeys true (IsTLSClusterEnabled tc) →
  i ≠ "tcp_port_secure" → i ≠ "https_port" →
  (currentDocuments tc c p).1 !! i = getTiFlashConfigV2_common tc c !! i.
Proof.
  unfold currentDocuments, getTiFlashConfigV2_tls, tlsEngineKeys, Set_, Del.
  destruct (IsTLSClusterEnabled tc); cbn [fst]; intros Hi ? ?;
    rewrite ?not_elem_of_cons in Hi; destruct_and?; by lookups.
Qed.

Lemma not_tls_engine_key current tls i :
  i ≠ "http_port" → i ≠ "tcp_port" → i ≠ "security.ca_path" →
  i ≠ "security.cert_path" → i ≠ "security.key_path" →
  i ≠ "https_port" → i ≠ "tcp_port_secure" →
  i ∉ tlsEngineKeys current tls.
Proof.
  intros. unfold tlsEngineKeys. destruct tls, current;
    rewrite ?not_elem_of_cons; repeat split; try assumption;
    apply not_elem_of_nil.
Qed.

(** What the legacy dialect leaves at a key that the input lacks and that
    neither the storage step nor the TLS step touches: the default. *)
Lemma legacy_engine_default {C} (tc : TidbCluster C) c p i :
  i ∉ tlsEngineKeys false (IsTLSClusterEnabled tc) → i ≠ "path" →
  c !! i = None →
  (legacyDocuments tc c p).1 !! i = legacyCommonDefaults tc ∅ !! i.
Proof.
  intros Hi Hp Hc. rewrite legacy_engine_lookup by done.
  rewrite (defaulting_lookup _ _ i (defaulting_legacyCommon tc)).
  by rewrite storage_lookup_ne, Hc.
Qed.

Lemma current_engine_default {C} (tc : TidbCluster C) c p i :
  i ∉ tlsEngineKeys true (IsTLSClusterEnabled tc) →
  i ≠ "tcp_port_secure" → i ≠ "https_port" →
  i ≠ "storage.main.dir" → i ≠ "storage.raft.dir" →
  c !! i = None →
  (currentDocuments tc c p).1 !! i = getTiFlashConfigV2_defaults tc ∅ !! i.
Proof.
  intros Hi ? ? ? ? Hc. rewrite current_engine_lookup by done.
  unfold getTiFlashConfigV2_common.
  rewrite (defaulting_lookup _ _ i (defaulting_V2_defaults tc)).
  by rewrite V2_storage_lookup_ne, Hc.
Qed.



(** C10.  For a partial input without [listen_host] and
    [status.metrics_port]: the current dialect writes neither when IPv6 is
    not preferred, and writes ["::"] and 8234 when it is; the legacy
    dialect always writes both, [listen_host] being ["0.0.0.0"] under IPv4
    and ["::"] under IPv6. *)
Theorem listen_host_defaults (tc : TidbCluster TiFlashConfigWraper) :
  commonGet "listen_host" (specConfig tc) = None →
  commonGet "status.metrics_port" (specConfig tc) = None →
  commonGet "listen_host" (getTiFlashConfigV2 tc)
    = (if PreferIPv6 (Spec tc) then Some (VString "::") else None)
  ∧ commonGet "status.metrics_port" (getTiFlashConfigV2 tc)
    = (if PreferIPv6 (Spec tc) then Some (VInt 8234) else None)
  ∧ commonGet "listen_host" (getTiFlashConfig tc)
    = Some (VString (if PreferIPv6 (Spec tc) then "::" else "0.0.0.0"))
  ∧ commonGet "status.metrics_port" (getTiFlashConfig tc)
    = Some (VInt 8234).
Proof.
  rewrite !commonGet_specConfig, !commonGet_getTiFlashConfig,
    !commonGet_getTiFlashConfigV2.
  intros Hl Hm.
  destruct (legacy_default_table tc) as (_ & _ & _ & _ & _ & Hlm & Hll & _).
  destruct (current_default_table tc) as (_ & _ & _ & _ & _ & _ & Hvm & Hvl & _).
  split; [|split; [|split]].
  - rewrite current_engine_default;
      [exact Hvl|apply not_tls_engine_key; discriminate|discriminate..|exact Hl].
  - rewrite current_engine_default;
      [exact Hvm|apply not_tls_engine_key; discriminate|discriminate..|exact Hm].
  - rewrite legacy_engine_default;
      [exact Hll|apply not_tls_engine_key; discriminate|discriminate|exact Hl].
  - rewrite legacy_engine_default;
      [exact Hlm|apply not_tls_engine_key; discriminate|discriminate|exact Hm].
Qed.

End Addresses.



(** C10 at concrete inputs: an empty partial input under IPv4 and under
    IPv6. *)
Lemma listen_host_defaults_witness :
  (commonGet "listen_host"
     (@getTiFlashConfigV2 sampleExternals (sampleCluster "v5.4.0" 0 false false None))
     = None
   ∧ commonGet "status.metrics_port"
       (@getTiFlashConfigV2 sampleExternals (sampleCluster "v5.4.0" 0 false false None))
     = None
   ∧ commonGet "listen_host"
       (@getTiFlashConfig sampleExternals (sampleCluster "v5.4.0" 0 false false None))
     = Some (VString "0.0.0.0")
   ∧ commonGet "status.metrics_port"
       (@getTiFlashConfig sampleExternals (sampleCluster "v5.4.0" 0 false false None))
     = Some (VInt 8234))
  ∧ (commonGet "listen_host"
       (@getTiFlashConfigV2 sampleExternals (sampleCluster "v5.4.0" 0 false true None))
       = Some (VString "::")
     ∧ commonGet "status.metrics_port"
         (@getTiFlashConfigV2 sampleExternals (sampleCluster "v5.4.0" 0 false true None))
       = Some (VInt 8234)
     ∧ commonGet "listen_host"
         (@getTiFlashConfig sampleExternals (sampleCluster "v5.4.0" 0 false true None))
       = Some (VString "::")
     ∧ commonGet "status.metrics_port"
         (@getTiFlashConfig sampleExternals (sampleCluster "v5.4.0" 0 false true None))
       = Some (VInt 8234)).
Proof.
  split.
  - exact (@listen_host_defaults sampleExternals
             (sampleCluster "v5.4.0" 0 false false None) eq_refl eq_refl).
  - exact (@listen_host_defaults sampleExternals
             (sampleCluster "v5.4.0" 0 false true None) eq_refl eq_refl).
Defined.

(** ** Storage paths *)

Section Storage.
Context `{Externals}.

(** What the storage part of the current dialect leaves at
    [storage.main.dir]. *)
Lemma V2_storage_main_dir {C} (tc : TidbCluster C) (m : gmap string Value) :
  getTiFlashConfigV2_storage tc m !! "storage.main.dir"
  = match m !! "path", m !! "storage.main.dir" with
    | None, None =>
        Some (VStrings
                (if bool_decide
                      (length (storagePaths (StorageClaims (TiFlash (Spec tc))))
                       = 0%nat)
                 then ["/data0/db"]
                 else storagePaths (StorageClaims (TiFlash (Spec tc)))))
    | _, _ => m !! "storage.main.dir"
    end.
Proof.
  unfold getTiFlashConfigV2_storage, Get, Set_. cbv zeta.
  destruct (m !! "path") eqn:E1, (m !! "storage.main.dir") eqn:E2;
    match goal with
    | |- context [match ?s !! "raft.kvstore_path" with _ => _ end] =>
        destruct (s !! "raft.kvstore_path")
    end; lookups; by rewrite ?E2.
Qed.

Lemma current_main_dir {C} (tc : TidbCluster C) c p :
  (currentDocuments tc c p).1 !! "storage.main.dir"
  = getTiFlashConfigV2_storage tc c !! "storage.main.dir".
Proof.
  rewrite current_engine_lookup;
    [|apply not_tls_engine_key; discriminate|discriminate..].
  unfold getTiFlashConfigV2_common.
  rewrite (defaulting_lookup _ _ _ (defaulting_V2_defaults tc)).
  destruct (current_default_table tc) as (_ & _ & _ & _ & _ & -> & _).
  by destruct (_ !! "storage.main.dir").
Qed.

Lemma legacy_path {C} (tc : TidbCluster C) c p :
  (legacyDocuments tc c p).1 !! "path"
  = Some (default (VString "/data0/db")
            (getTiFlashConfig_storage (StorageClaims (TiFlash (Spec tc))) c
               !! "path")).
Proof.
  rewrite legacy_engine_lookup
    by (apply not_tls_engine_key; discriminate).
  rewrite (defaulting_lookup _ _ _ (defaulting_legacyCommon tc)).
  rewrite legacy_default_path. by destruct (_ !! "path").
Qed.

(** C6.  For an empty partial engine document: no storage claim gives
    the legacy [path] ["/data0/db"] and the current [storage.main.dir]
    [["/data0/db"]]; three claims give ["/data0/db,/data1/db,/data2/db"]
    and the list of the three directories.  For any partial input the
    current dialect leaves [storage.main.dir] as the input has it when the
    input has [path] or [storage.main.dir], and writes it otherwise. *)
Theorem storage_path_defaults (tc : TidbCluster TiFlashConfigWraper) :
  (inputCommon tc = ∅ → length (StorageClaims (TiFlash (Spec tc))) = 0%nat →
   commonGet "path" (getTiFlashConfig tc) = Some (VString "/data0/db")
   ∧ commonGet "storage.main.dir" (getTiFlashConfigV2 tc)
     = Some (VStrings ["/data0/db"]))
  ∧ (inputCommon tc = ∅ → length (StorageClaims (TiFlash (Spec tc))) = 3%nat →
     commonGet "path" (getTiFlashConfig tc)
       = Some (VString "/data0/db,/data1/db,/data2/db")
     ∧ commonGet "storage.main.dir" (getTiFlashConfigV2 tc)
       = Some (VStrings ["/data0/db"; "/data1/db"; "/data2/db"]))
  ∧ (is_Some (commonGet "path" (specConfig tc))
     ∨ is_Some (commonGet "storage.main.dir" (specConfig tc)) →
     commonGet "storage.main.dir" (getTiFlashConfigV2 tc)
       = commonGet "storage.main.dir" (specConfig tc))
  ∧ (commonGet "path" (specConfig tc) = None →
     commonGet "storage.main.dir" (specConfig tc) = None →
     commonGet "storage.main.dir" (getTiFlashConfigV2 tc)
       = Some (VStrings
                 (match storagePaths (StorageClaims (TiFlash (Spec tc))) with
                  | [] => ["/data0/db"]
                  | paths => paths
                  end))).
Proof.
  rewrite !commonGet_specConfig, !commonGet_getTiFlashConfig,
    !commonGet_getTiFlashConfigV2.
  rewrite legacy_path, current_main_dir, V2_storage_main_dir.
  split; [|split; [|split]].
  - intros -> Hn.
    destruct (StorageClaims (TiFlash (Spec tc))) as [|a l]; [|discriminate].
    split; reflexivity.
  - intros -> Hn.
    destruct (StorageClaims (TiFlash (Spec tc))) as [|a [|b [|c [|d l]]]];
      try discriminate.
    split; reflexivity.
  - intros [[v Hv]|[v Hv]]; rewrite Hv; [done|].
    by destruct (inputCommon tc !! "path").
  - intros -> ->. by destruct (storagePaths _).
Qed.

End Storage.

(** C6 at concrete inputs: an empty partial input with no claim and with
    three claims, and an input that already has the legacy [path]. *)
Lemma storage_path_defaults_witness :
  (commonGet "path"
     (@getTiFlashConfig sampleExternals (sampleCluster "v5.4.0" 0 false false None))
     = Some (VString "/data0/db")
   ∧ commonGet "storage.main.dir"
       (@getTiFlashConfigV2 sampleExternals (sampleCluster "v5.4.0" 0 false false None))
     = Some (VStrings ["/data0/db"]))
  ∧ (commonGet "path"
       (@getTiFlashConfig sampleExternals (sampleCluster "v5.4.0" 3 false false None))
       = Some (VString "/data0/db,/data1/db,/data2/db")
     ∧ commonGet "storage.main.dir"
         (@getTiFlashConfigV2 sampleExternals (sampleCluster "v5.4.0" 3 false false None))
       = Some (VStrings ["/data0/db"; "/data1/db"; "/data2/db"]))
  ∧ commonGet "storage.main.dir"
      (@getTiFlashConfigV2 sampleExternals
         (sampleCluster "v5.4.0" 3 false false
            (Some (engineOnly "path" (VString "/data0/db")))))
    = None.
Proof.
  split; [|split].
  - exact (proj1 (@storage_path_defaults sampleExternals
             (sampleCluster "v5.4.0" 0 false false None)) eq_refl eq_refl).
  - exact (proj1 (proj2 (@storage_path_defaults sampleExternals
             (sampleCluster "v5.4.0" 3 false false None))) eq_refl eq_refl).
  - exact (proj1 (proj2 (proj2 (@storage_path_defaults sampleExternals
             (sampleCluster "v5.4.0" 3 false false
                (Some (engineOnly "path" (VString "/data0/db")))))))
             (or_introl (ex_intro _ (VString "/data0/db") eq_refl))).
Defined.

(** ** Dialect selection *)

(** *** Cutting and splitting strings *)

Lemma split_on_nonempty c s : split_on c s ≠ [].
Proof.
  destruct s as [|a s]; cbn; [done|].
  destruct (Ascii.eqb a c); [done|]. by destruct (split_on c s).
Qed.

(** A string splits into one more piece than it has separators. *)
Lemma split_on_length c s : length (split_on c s) = S (occurrences c s).
Proof.
  induction s as [|a s IH]; cbn; [done|].
  destruct (Ascii.eqb a c); cbn; [by rewrite IH|].
  pose proof (split_on_nonempty c s).
  destruct (split_on c s); [done|]. cbn in *. lia.
Qed.

(** The first piece is what precedes the first separator. *)
Lemma split_on_prefix c a s :
  occurrences c a = 0%nat →
  split_on c (a ++ String c s) = a :: split_on c s.
Proof.
  induction a as [|x a IH]; simpl.
  - intros _. by rewrite Ascii.eqb_refl.
  - destruct (Ascii.eqb x c); [done|]. simpl. intros Ha. by rewrite IH.
Qed.

Lemma split_on_no_separator c a :
  occurrences c a = 0%nat → split_on c a = [a].
Proof.
  induction a as [|x a IH]; cbn; [done|].
  destruct (Ascii.eqb x c); [done|]. cbn. intros Ha. by rewrite IH.
Qed.

Lemma occurrences_app c x y :
  occurrences c (x ++ y) = (occurrences c x + occurrences c y)%nat.
Proof. induction x as [|b x IH]; simpl; [done|]. rewrite IH. lia. Qed.

(** Pieces without the separator, joined by it, split into themselves. *)
Lemma split_on_concat c (ids : list string) :
  ids ≠ [] → Forall (λ i, occurrences c i = 0%nat) ids →
  split_on c (String.concat (String c "") ids) = ids.
Proof.
  induction ids as [|i ids IH]; [done|]. intros _ Hids.
  apply Forall_cons in Hids as [Hi Hids].
  destruct ids as [|j ids].
  - by apply split_on_no_separator.
  - change (String.concat (String c "") (i :: j :: ids))
      with (i ++ String c (String.concat (String c "") (j :: ids))).
    rewrite split_on_prefix by exact Hi. by rewrite IH.
Qed.

(** The pieces of a string, joined by the separator, are the string. *)
Lemma concat_split_on c s :
  String.concat (String c "") (split_on c s) = s.
Proof.
  induction s as [|a s IH]; [done|]. cbn [split_on].
  destruct (Ascii.eqb_spec a c) as [->|Hne].
  - pose proof (split_on_nonempty c s) as Hs.
    destruct (split_on c s) as [|x xs] eqn:E; [done|].
    change (String.concat (String c "") ("" :: x :: xs))
      with (String c (String.concat (String c "") (x :: xs))).
    by rewrite IH.
  - pose proof (split_on_nonempty c s) as Hs.
    destruct (split_on c s) as [|x xs] eqn:E; [done|].
    rewrite <- IH. by destruct xs.
Qed.

Lemma split_on_pieces c s :
  Forall (λ i, occurrences c i = 0%nat) (split_on c s).
Proof.
  induction s as [|a s IH]; cbn [split_on].
  - by repeat constructor.
  - destruct (Ascii.eqb a c) eqn:E.
    + by constructor.
    + destruct (split_on c s) as [|x xs]; [repeat constructor; cbn; by rewrite E|].
      apply Forall_cons in IH as [Hx Hxs]. constructor; [|done].
      cbn. by rewrite E.
Qed.

Lemma cut_no_separator c a :
  occurrences c a = 0%nat → cmpver.cut c a = (a, None).
Proof.
  induction a as [|x a IH]; cbn; [done|].
  destruct (Ascii.eqb x c); [done|]. cbn. intros Ha. by rewrite IH.
Qed.

Lemma cut_prefix c a s :
  occurrences c a = 0%nat → cmpver.cut c (a ++ String c s) = (a, Some s).
Proof.
  induction a as [|x a IH]; simpl.
  - intros _. by rewrite Ascii.eqb_refl.
  - destruct (Ascii.eqb x c); [done|]. simpl. intros Ha. by rewrite IH.
Qed.

(** What [cut] gives back is the string taken apart. *)
Lemma cut_inv c s a b :
  cmpver.cut c s = (a, b) →
  s = a ++ from_option (String c) "" b.
Proof.
  revert a. induction s as [|x s IH]; intros a; cbn.
  - by intros [= <- <-].
  - destruct (Ascii.eqb_spec x c) as [->|_].
    + by intros [= <- <-].
    + destruct (cmpver.cut c s) as [a' b'] eqn:E. intros [= <- <-].
      rewrite (IH a' eq_refl) at 1. reflexivity.
Qed.

Lemma append_nil_r (s : string) : s ++ "" = s.
Proof.
  induction s as [|a s IH]; [done|]. exact (f_equal (String a) IH).
Qed.

Lemma append_assoc (a b c : string) : (a ++ b) ++ c = a ++ b ++ c.
Proof.
  induction a as [|x a IH]; [done|]. exact (f_equal (String x) IH).
Qed.

(** *** The parser of versions and the text of semantic versions *)

Lemma all_occurrences (p : ascii → bool) c s :
  p c = false → cmpver.all p s = true → occurrences c s = 0%nat.
Proof.
  intros Hc. induction s as [|a s IH]; cbn; [done|].
  intros [Ha Hs]%andb_true_iff. rewrite (IH Hs).
  destruct (Ascii.eqb_spec a c) as [->|_]; [congruence|done].
Qed.

Lemma numericIdentifier_digits x :
  cmpver.numericIdentifier x = true → cmpver.all cmpver.isDigit x = true.
Proof.
  destruct x as [|a x]; [done|]. unfold cmpver.numericIdentifier.
  by intros [? _]%andb_true_iff.
Qed.

Lemma preReleaseIdentifier_chars i :
  cmpver.preReleaseIdentifier i = true →
  cmpver.all cmpver.isIdentifierChar i = true.
Proof.
  destruct i as [|a i]; [done|]. unfold cmpver.preReleaseIdentifier.
  by intros [? _]%andb_true_iff.
Qed.

Lemma buildIdentifier_chars i :
  cmpver.buildIdentifier i = true →
  cmpver.all cmpver.isIdentifierChar i = true.
Proof. by destruct i. Qed.

Lemma occurrences_concat c sep (ids : list string) :
  occurrences c sep = 0%nat →
  Forall (λ i, occurrences c i = 0%nat) ids →
  occurrences c (String.concat sep ids) = 0%nat.
Proof.
  intros Hsep. induction 1 as [|i ids Hi _ IH]; [done|].
  destruct ids as [|j ids]; [done|].
  change (String.concat sep (i :: j :: ids))
    with (i ++ sep ++ String.concat sep (j :: ids)).
  rewrite !occurrences_app, Hi, Hsep, IH. done.
Qed.

Lemma Forall_forallb (f : string → bool) (l : list string) :
  Forall (λ i, f i = true) l ↔ forallb f l = true.
Proof.
  induction l as [|i l IH]; cbn; [by split; [|constructor]|].
  rewrite Forall_cons, andb_true_iff, IH. done.
Qed.

(** The identifiers read from an optional part are valid, and the part
    is their text. *)
Lemma identifiers_inv (valid : string → bool) (m : ascii) part ids :
  cmpver.identifiers valid part = Some ids →
  Forall (λ i, valid i = true) ids
  ∧ from_option (String m) "" part = versionPart (String m "") ids.
Proof.
  destruct part as [s|]; cbn.
  - destruct (forallb valid (split_on "." s)) eqn:Hv; [|done].
    intros [= <-]. split; [by apply Forall_forallb|].
    pose proof (split_on_nonempty "." s) as Hne.
    pose proof (concat_split_on "." s) as Hs.
    unfold versionPart. destruct (split_on "." s) as [|i l]; [done|].
    change (String ("."%char) "") with "." in Hs. rewrite Hs. done.
  - by intros [= <-].
Qed.

(** The identifiers of a part written from valid identifiers without
    dots are these identifiers. *)
Lemma identifiers_text (valid : string → bool) (ids : list string) :
  Forall (λ i, valid i = true) ids →
  Forall (λ i, occurrences "." i = 0%nat) ids →
  cmpver.identifiers valid
    (match ids with [] => None | _ => Some (String.concat "." ids) end)
  = Some ids.
Proof.
  intros Hv Hd. destruct ids as [|i l]; [done|].
  unfold cmpver.identifiers.
  change "." with (String ("."%char) "").
  rewrite split_on_concat by done.
  by rewrite (proj1 (Forall_forallb valid (i :: l)) Hv).
Qed.

(** What [semantic] accepts is the text of a semantic version. *)
Lemma semantic_sound s v : cmpver.semantic s = Some v → semanticVersion s v.
Proof.
  unfold cmpver.semantic.
  destruct (cmpver.cut "+" s) as [s1 b] eqn:Hb.
  destruct (cmpver.cut "-" s1) as [core p] eqn:Hp.
  destruct (split_on "." core) as [|x [|y [|z [|]]]] eqn:Hcore; try done.
  destruct (cmpver.identifiers cmpver.preReleaseIdentifier p)
    as [pre|] eqn:Hpre; [|done].
  destruct (cmpver.identifiers cmpver.buildIdentifier b)
    as [build|] eqn:Hbuild; [|done].
  destruct (cmpver.numericIdentifier x && cmpver.numericIdentifier y
            && cmpver.numericIdentifier z) eqn:Hn; [|done].
  intros [= <-].
  apply andb_true_iff in Hn as [[Hx Hy]%andb_true_iff Hz].
  apply (identifiers_inv _ "-") in Hpre as [Hpre Htp].
  apply (identifiers_inv _ "+") in Hbuild as [Hbuild Htb].
  apply cut_inv in Hb, Hp.
  pose proof (concat_split_on "." core) as Hc. rewrite Hcore in Hc.
  rewrite Hb, Hp, Htp, Htb, <- Hc, append_assoc.
  by constructor.
Qed.

(** The text of a semantic version has no [+] before its build part and
    no [-] before its pre-release part. *)
Lemma core_occurrences c x y z :
  cmpver.isDigit c = false → c ≠ "."%char →
  cmpver.numericIdentifier x = true →
  cmpver.numericIdentifier y = true →
  cmpver.numericIdentifier z = true →
  occurrences c (x ++ "." ++ y ++ "." ++ z) = 0%nat.
Proof.
  intros Hc Hd Hx%numericIdentifier_digits Hy%numericIdentifier_digits
    Hz%numericIdentifier_digits.
  assert (occurrences c "." = 0%nat) as Hdot.
  { cbn -[Ascii.eqb]. destruct (Ascii.eqb_spec "." c); [by subst|done]. }
  rewrite !occurrences_app, Hdot.
  by rewrite (all_occurrences _ c x Hc Hx), (all_occurrences _ c y Hc Hy),
    (all_occurrences _ c z Hc Hz).
Qed.

Lemma cut_versionPart (m : ascii) a (ids : list string) :
  occurrences m a = 0%nat →
  cmpver.cut m (a ++ versionPart (String m "") ids)
  = (a, match ids with [] => None | _ => Some (String.concat "." ids) end).
Proof.
  intros Ha. destruct ids as [|i l]; cbn [versionPart].
  - rewrite append_nil_r. by apply cut_no_separator.
  - by apply cut_prefix.
Qed.

(** The text of a semantic version parses as that version. *)
Lemma semantic_complete s v : semanticVersion s v → cmpver.semantic s = Some v.
Proof.
  intros [x y z pre build Hx Hy Hz Hpre Hbuild].
  unfold cmpver.semantic.
  assert (Forall (λ i, occurrences "+" i = 0%nat) pre
          ∧ Forall (λ i, occurrences "." i = 0%nat) pre) as [Hplus Hdot].
  { split; eapply Forall_impl; try exact Hpre;
      intros i Hi%preReleaseIdentifier_chars;
      by apply (all_occurrences cmpver.isIdentifierChar). }
  assert (Forall (λ i, occurrences "." i = 0%nat) build) as Hbdot.
  { eapply Forall_impl; [exact Hbuild|].
    intros i Hi%buildIdentifier_chars.
    by apply (all_occurrences cmpver.isIdentifierChar). }
  rewrite <- append_assoc.
  change "+" with (String ("+"%char) "") at 1.
  rewrite cut_versionPart.
  2:{ rewrite occurrences_app, (core_occurrences "+" x y z) by done.
      destruct pre as [|i l]; [done|]. cbn [versionPart].
      rewrite occurrences_app. cbn [occurrences String.append Ascii.eqb].
      change (occurrences "+" (String.concat "." (i :: l)) = 0%nat).
      by apply occurrences_concat. }
  change "-" with (String ("-"%char) "") at 1.
  rewrite cut_versionPart by (by apply core_occurrences).
  change (x ++ "." ++ y ++ "." ++ z)
    with (String.concat (String ("."%char) "") [x; y; z]).
  rewrite split_on_concat.
  2: done.
  2:{ repeat constructor;
        by apply (all_occurrences cmpver.isDigit), numericIdentifier_digits. }
  rewrite !identifiers_text by done.
  by rewrite Hx, Hy, Hz.
Qed.

(** [NewVersion] parses exactly the semantic versions, with or without
    a leading [v]. *)
Lemma NewVersion_spec s v : cmpver.NewVersion s = Some v ↔ versionText s v.
Proof.
  unfold cmpver.NewVersion, versionText. split.
  - destruct s as [|c s]; [by left; apply semantic_sound|].
    destruct (Ascii.eqb_spec c "v") as [->|_]; intros Hs.
    + right. eexists. split; [reflexivity|]. by apply semantic_sound.
    + left. by apply semantic_sound.
  - intros [Hs|(s' & -> & Hs)].
    + pose proof (semantic_complete _ _ Hs) as Hv.
      destruct s as [|c s]; [done|].
      destruct (Ascii.eqb_spec c "v") as [->|_]; [|done].
      inversion Hs as [x y z pre build Hx Hy Hz Hpre Hbuild Htext Hver].
      destruct x as [|a x]; [done|].
      apply numericIdentifier_digits in Hx.
      cbn in Htext. injection Htext as -> _. done.
    + rewrite Ascii.eqb_refl. by apply semantic_complete.
Qed.

Lemma NewConstraint_v540 :
  cmpver.NewConstraint cmpver.GreaterOrEqual "v5.4.0"
  = Some tiflashEqualOrGreaterThanV540.
Proof. reflexivity. Qed.

(** The check of the constraint against 5.4.0, in numbers. *)
Lemma holds_v540 (ver : cmpver.Version) :
  cmpver.holds cmpver.GreaterOrEqual
    (cmpver.compare ver (cmpver.mkVersion 5 4 0 [] [])) = true
  ↔ atLeastV540 ver.
Proof.
  destruct ver as [a b c p q]. unfold cmpver.compare, atLeastV540.
  cbn [cmpver.major cmpver.minor cmpver.patch cmpver.pre].
  destruct (N.compare_spec a 5) as [->| |]; cbn; [|split; [done|lia]|
    split; [by left|done]].
  destruct (N.compare_spec b 4) as [->| |]; cbn; [|split; [done|lia]|
    split; [right; split; [done|by left]|done]].
  destruct (N.compare_spec c 0) as [->| |]; cbn; [|lia|
    split; [right; split; [done|]; right; split; [done|by left]|done]].
  destruct p as [|i p]; cbn.
  - split; [|done]. intros _. right. split; [done|]. right. split; [done|].
    by right.
  - split; [done|]. intros [?|[_ [?|[_ [?|?]]]]]; [lia..|done].
Qed.

Lemma checkV540_spec (v : string) :
  checkV540 v = true ↔ ∃ ver, versionText v ver ∧ atLeastV540 ver.
Proof.
  unfold checkV540, cmpver.Check.
  destruct (cmpver.NewVersion v) as [ver|] eqn:Hv.
  - split.
    + intros Hge. exists ver.
      split; [by apply NewVersion_spec|by apply holds_v540].
    + intros (ver' & Hv'%NewVersion_spec & Hge%holds_v540).
      assert (ver' = ver) as -> by congruence. exact Hge.
  - cbn. split; [done|].
    intros (ver' & Hv'%NewVersion_spec & _). congruence.
Qed.

(** Some version strings and the versions they are the text of. *)
Lemma versionText_samples :
  versionText "5.4.0" (cmpver.mkVersion 5 4 0 [] [])
  ∧ versionText "v5.4.0" (cmpver.mkVersion 5 4 0 [] [])
  ∧ versionText "6.0.0-alpha" (cmpver.mkVersion 6 0 0 ["alpha"] [])
  ∧ versionText "v6.5.0+build.1" (cmpver.mkVersion 6 5 0 [] ["build"; "1"])
  ∧ versionText "v7.1.0-rc.1" (cmpver.mkVersion 7 1 0 ["rc"; "1"] [])
  ∧ (∀ ver, ¬ versionText "05.04.00" ver)
  ∧ (∀ ver, ¬ versionText "5.4" ver)
  ∧ (∀ ver, ¬ versionText "nightly" ver).
Proof.
  repeat split; try (by apply NewVersion_spec);
    by intros ver Hv%NewVersion_spec.
Qed.

Section Selection.
Context `{Externals}.

(** C3.  [GetTiFlashConfig] runs the current-dialect synthesizer exactly
    when the version string is the text of a semantic version that is
    5.4.0 or later, and the legacy synthesizer otherwise, a string that is
    not the text of any semantic version included; it gives a
    configuration in either case and has no error to return.  ["5.4.0"]
    selects the current dialect, ["5.3.9"] and the unparsable
    ["not-a-version"] the legacy one. *)
Theorem dialect_selection :
  (∀ tc : TidbCluster TiFlashConfigWraper,
     (∃ ver, versionText (TiFlashVersion tc) ver ∧ atLeastV540 ver) →
     GetTiFlashConfig tc = getTiFlashConfigV2 tc)
  ∧ (∀ tc : TidbCluster TiFlashConfigWraper,
       ¬ (∃ ver, versionText (TiFlashVersion tc) ver ∧ atLeastV540 ver) →
       GetTiFlashConfig tc = getTiFlashConfig tc)
  ∧ (∀ tc : TidbCluster TiFlashConfigWraper,
       TiFlashVersion tc = "5.4.0" →
       GetTiFlashConfig tc = getTiFlashConfigV2 tc)
  ∧ (∀ tc : TidbCluster TiFlashConfigWraper,
       TiFlashVersion tc = "5.3.9" →
       GetTiFlashConfig tc = getTiFlashConfig tc)
  ∧ (∀ tc : TidbCluster TiFlashConfigWraper,
       TiFlashVersion tc = "not-a-version" →
       (∀ ver, ¬ versionText (TiFlashVersion tc) ver)
       ∧ GetTiFlashConfig tc = getTiFlashConfig tc).
Proof.
  assert (∀ tc : TidbCluster TiFlashConfigWraper,
            checkV540 (TiFlashVersion tc) = true →
            GetTiFlashConfig tc = getTiFlashConfigV2 tc) as Hcurrent.
  { intros tc Hc. unfold GetTiFlashConfig. cbv zeta. by rewrite Hc. }
  assert (∀ tc : TidbCluster TiFlashConfigWraper,
            checkV540 (TiFlashVersion tc) = false →
            GetTiFlashConfig tc = getTiFlashConfig tc) as Hlegacy.
  { intros tc Hc. unfold GetTiFlashConfig. cbv zeta. by rewrite Hc. }
  split; [|split; [|split; [|split]]].
  - intros tc Hv. by apply Hcurrent, checkV540_spec.
  - intros tc Hv. apply Hlegacy.
    destruct (checkV540 (TiFlashVersion tc)) eqn:Hc; [|done].
    by apply checkV540_spec in Hc.
  - intros tc Hv. apply Hcurrent. by rewrite Hv.
  - intros tc Hv. apply Hlegacy. by rewrite Hv.
  - intros tc Hv. split; [|apply Hlegacy; by rewrite Hv].
    rewrite Hv. by intros ver Hver%NewVersion_spec.
Qed.

End Selection.

(** ** Errors of the sidecar builder *)

Lemma AsString_cases (v : Value) :
  (∃ s, v = VString s ∧ AsString (Some v) = Ok s)
  ∨ (notString v ∧ AsString (Some v) = Err TypeMismatch).
Proof.
  destruct v; [left; eauto|right..]; (split; [intros s; discriminate|done]).
Qed.

Lemma notString_default (d : string) (o : option Value) :
  notString (default (VString d) o) ↔ ∃ v, o = Some v ∧ notString v.
Proof.
  destruct o as [v|]; cbn.
  - split; [eauto|]. by intros (? & [= <-] & ?).
  - split; [intros Hn; by destruct (Hn d)|]. by intros (? & [=] & _).
Qed.

Section Sidecar.
Context `{Externals}.

(** The three values the builder reads, after the log defaults. *)
Lemma setTiFlashLogConfigDefault_lookups (config : TiFlashConfigWraper) :
  let c := default NewTiFlashCommonConfig (Common config) in
  let out := setTiFlashLogConfigDefault config in
  (Common out ≫= Get "logger.log")
    = Some (default (VString defaultServerLog) (c !! "logger.log"))
  ∧ (Common out ≫= Get "logger.errorlog")
    = Some (default (VString defaultErrorLog) (c !! "logger.errorlog"))
  ∧ (Common out ≫= Get "flash.flash_cluster.log")
    = Some (default (VString defaultClusterLog) (c !! "flash.flash_cluster.log")).
Proof.
  cbv zeta. unfold setTiFlashLogConfigDefault. cbn [Common mbind option_bind].
  unfold Get. by lookups.
Qed.

Lemma buildTiFlashSidecarContainers_cases tc :
  let c := inputCommon tc in
  let v1 := default (VString defaultServerLog) (c !! "logger.log") in
  let v2 := default (VString defaultErrorLog) (c !! "logger.errorlog") in
  let v3 :=
    default (VString defaultClusterLog) (c !! "flash.flash_cluster.log") in
  ((notString v1 ∨ notString v2 ∨ notString v3)
   ∧ buildTiFlashSidecarContainers tc = Err TypeMismatch)
  ∨ (∃ cs, buildTiFlashSidecarContainers tc = Ok cs ∧ length cs = 3%nat
           ∧ ¬ (notString v1 ∨ notString v2 ∨ notString v3)).
Proof.
  cbv zeta. unfold buildTiFlashSidecarContainers. cbv zeta.
  destruct (setTiFlashLogConfigDefault_lookups
              (default NewTiFlashConfig (Config (TiFlash (Spec tc)))))
    as (-> & -> & ->).
  fold (specConfig tc). fold (inputCommon tc).
  set (v1 := default _ (_ !! "logger.log")).
  set (v2 := default _ (_ !! "logger.errorlog")).
  set (v3 := default _ (_ !! "flash.flash_cluster.log")).
  destruct (AsString_cases v1) as [(s1 & E1 & ->)|[N1 ->]]; cbn [bind];
    [|left; eauto].
  destruct (AsString_cases v2) as [(s2 & E2 & ->)|[N2 ->]]; cbn [bind];
    [|left; eauto].
  destruct (AsString_cases v3) as [(s3 & E3 & ->)|[N3 ->]]; cbn [bind];
    [|left; eauto].
  right. eexists. split; [reflexivity|]. split; [reflexivity|].
  intros [N|[N|N]].
  - by destruct (N s1).
  - by destruct (N s2).
  - by destruct (N s3).
Qed.

Lemma getTiFlashConfig_total tc :
  ∃ c p, GetTiFlashConfig tc = {| Common := Some c; Proxy := Some p |}.
Proof.
  unfold GetTiFlashConfig. destruct (checkV540 _).
  - rewrite getTiFlashConfigV2_documents. eauto.
  - rewrite getTiFlashConfig_documents. eauto.
Qed.

Lemma sidecar_error_iff tc :
  (∃ e, buildTiFlashSidecarContainers tc = Err e)
  ↔ ∃ k v, k ∈ logPathKeys ∧ commonGet k (specConfig tc) = Some v
           ∧ notString v.
Proof.
  destruct (buildTiFlashSidecarContainers_cases tc) as [[Hn ->]|(cs & -> & _ & Hn)];
    cbv zeta in Hn; rewrite !notString_default in Hn.
  - split; [intros _|eauto].
    destruct Hn as [(v & Hv & Hs)|[(v & Hv & Hs)|(v & Hv & Hs)]];
      [exists "logger.log"|exists "logger.errorlog"
      |exists "flash.flash_cluster.log"];
      exists v; rewrite commonGet_specConfig;
      (split; [unfold logPathKeys; rewrite !elem_of_cons; tauto|by split]).
  - split; [by intros [e [=]]|].
    intros (k & v & Hk & Hv & Hs). exfalso. apply Hn.
    rewrite commonGet_specConfig in Hv.
    unfold logPathKeys in Hk. rewrite !elem_of_cons in Hk.
    destruct Hk as [->|[->|[->|Hk]]]; [eauto 6..|by apply elem_of_nil in Hk].
Qed.

End Sidecar.

(** ** The store layer: copies and in-place updates *)

Section StoreRules.
Import Store.

Lemma triple_ret {A} (P : gmap loc object → Prop) (a : A)
    (Q : A → gmap loc object → Prop) :
  (∀ h, P h → Q a h) → triple P (mret a) Q.
Proof. intros HPQ h HP. exists a, h. split; [done|]. by apply HPQ. Qed.

Lemma triple_bind {A B} (P : gmap loc object → Prop) (m : M A)
    (Q : A → gmap loc object → Prop) (k : A → M B)
    (R : B → gmap loc object → Prop) :
  triple P m Q → (∀ a, triple (Q a) (k a) R) → triple P (m ≫= k) R.
Proof.
  intros Hm Hk h HP. destruct (Hm h HP) as (a & h1 & Em & HQ).
  destruct (Hk a h1 HQ) as (b & h2 & Ek & HR).
  exists b, h2. split; [|done].
  unfold mbind, M_bind. by rewrite Em.
Qed.

Lemma triple_conseq {A} (P P' : gmap loc object → Prop) (m : M A)
    (Q Q' : A → gmap loc object → Prop) :
  (∀ h, P' h → P h) → (∀ a h, Q a h → Q' a h) →
  triple P m Q → triple P' m Q'.
Proof.
  intros HP HQ Hm h HP'. destruct (Hm h (HP h HP')) as (a & h' & E & Hq).
  exists a, h'. eauto.
Qed.

Lemma triple_post {A} (P : gmap loc object → Prop) (m : M A)
    (Q Q' : A → gmap loc object → Prop) :
  (∀ a h, Q a h → Q' a h) → triple P m Q → triple P m Q'.
Proof. intros HQ. by apply triple_conseq. Qed.

Lemma triple_exists {A X} (P : X → gmap loc object → Prop) (m : M A)
    (Q : A → gmap loc object → Prop) :
  (∀ x, triple (P x) m Q) → triple (λ h, ∃ x, P x h) m Q.
Proof. intros Hm h [x HP]. by apply (Hm x). Qed.

Lemma triple_pure {A} (φ : Prop) (P : gmap loc object → Prop) (m : M A)
    (Q : A → gmap loc object → Prop) :
  (φ → triple P m Q) → triple (λ h, φ ∧ P h) m Q.
Proof. intros Hm h [Hφ HP]. by apply Hm. Qed.

(** Allocation gives a location the heap does not use. *)
Lemma alloc_fresh (o : object) (h : gmap loc object) :
  ∃ l, alloc o h = Some (l, <[l := o]> h) ∧ h !! l = None.
Proof.
  exists (fresh (dom h)). split; [done|].
  apply not_elem_of_dom, is_fresh.
Qed.

(** What is not in the heap is not in a part of it. *)
Lemma lookup_None_weaken (h0 h : gmap loc object) l :
  h0 ⊆ h → h !! l = None → h0 !! l = None.
Proof. intros Hsub Hl. by eapply lookup_weaken_None. Qed.

End StoreRules.

Section StoreSpecs.
Import Store.

Ltac heap_ne := solve [ intros ->; congruence | intros <-; congruence ].

Ltac heap_lookups :=
  repeat first
    [ rewrite lookup_insert_eq
    | rewrite lookup_insert_ne by heap_ne ].

Lemma DeepCopyDocument_spec (h0 h : gmap loc object) (d : option loc) :
  h0 ⊆ h → isDocument h0 d →
  ∃ o h', DeepCopyDocument d h = Some (fst <$> o, h')
          ∧ h ⊆ h'
          ∧ snd <$> o = d ≫= viewDocument h0
          ∧ match o with
            | Some (l, c) => h !! l = None ∧ h' = <[l := Document c]> h
            | None => h' = h
            end.
Proof.
  intros Hsub Hd. destruct d as [l|]; cbn in *.
  - destruct Hd as [c Hc].
    assert (h !! l = Some (Document c)) as Hl by by eapply lookup_weaken.
    destruct (alloc_fresh (Document c) h) as (l' & Ea & Hl').
    exists (Some (l', c)), (<[l' := Document c]> h).
    unfold mbind, M_bind, readDocument. rewrite Hl, Ea. cbn.
    unfold viewDocument. rewrite Hc.
    repeat split; try done. by apply insert_subseteq.
  - exists None, h. by repeat split.
Qed.

Lemma DeepCopy_spec (h0 : gmap loc object) (config : option loc) :
  validConfig h0 config →
  triple (λ h, h = h0) (DeepCopy config) (copied h0 config).
Proof.
  intros Hv h ->. destruct config as [l|]; cbn in *.
  - destruct Hv as (c & p & Hl & Hc & Hp).
    unfold mbind, M_bind at 1. unfold readWrapper. rewrite Hl.
    destruct (DeepCopyDocument_spec h0 h0 c (reflexivity _) Hc)
      as (oc & h1 & E1 & Hsub1 & Hvc & Hoc).
    unfold mbind, M_bind at 1. rewrite E1.
    destruct (DeepCopyDocument_spec h0 h1 p Hsub1 Hp)
      as (op & h2 & E2 & Hsub2 & Hvp & Hop).
    unfold mbind, M_bind at 1. rewrite E2.
    destruct (alloc_fresh (Wrapper (fst <$> oc) (fst <$> op)) h2)
      as (r & Ea & Hr).
    unfold mbind, M_bind at 1. rewrite Ea.
    exists (Some r), (<[r := Wrapper (fst <$> oc) (fst <$> op)]> h2).
    split; [done|]. exists oc, op. split.
    + assert (h0 ⊆ h2) as Hsub02 by by etrans.
      split; [by apply insert_subseteq_r; [apply (lookup_None_weaken h0 h2)|]|].
      split; [by apply (lookup_None_weaken h0 h2)|].
      split; [by rewrite lookup_insert_eq|].
      split; [|split].
      * destruct oc as [[lc dc]|]; [|done]. destruct Hoc as [Hn ->].
        split; [done|].
        assert (lc ≠ r) by (intros ->; destruct op as [[lp dp]|];
          [destruct Hop as [_ ->]; rewrite lookup_insert_ne in Hr;
            [by rewrite lookup_insert_eq in Hr
            |intros ->; by rewrite lookup_insert_eq in Hr]
          |subst h2; by rewrite lookup_insert_eq in Hr]).
        rewrite lookup_insert_ne by done.
        destruct op as [[lp dp]|].
        -- destruct Hop as [Hnp ->].
           rewrite lookup_insert_ne
             by (intros ->; by rewrite lookup_insert_eq in Hnp).
           by rewrite lookup_insert_eq.
        -- subst h2. by rewrite lookup_insert_eq.
      * destruct op as [[lp dp]|]; [|done]. destruct Hop as [Hn ->].
        split; [by apply (lookup_None_weaken h0 h1)|].
        rewrite lookup_insert_ne
          by (intros ->; by rewrite lookup_insert_eq in Hr).
        by rewrite lookup_insert_eq.
      * destruct oc as [[lc dc]|]; [|done].
        destruct op as [[lp dp]|]; [|done].
        destruct Hoc as [_ ->]. destruct Hop as [Hnp _].
        intros ->. by rewrite lookup_insert_eq in Hnp.
    + unfold viewConfig. cbn. rewrite Hl. by rewrite Hvc, Hvp.
  - exists None, h0. by split.
Qed.

Lemma orNewTiFlashConfig_spec (h0 : gmap loc object) (config r : option loc) :
  triple (copied h0 config r) (orNewTiFlashConfig r)
    (λ r h, ∃ oc op,
       default NewTiFlashConfig (viewConfig h0 config)
         = {| Common := snd <$> oc; Proxy := snd <$> op |}
       ∧ owns h0 h r oc op).
Proof.
  intros h Hc. destruct r as [r|]; cbn in *.
  - destruct Hc as (oc & op & Hown & Hview). exists r, h. split; [done|].
    exists oc, op. split; [by rewrite Hview|done].
  - destruct Hc as [-> ->].
    destruct (alloc_fresh (Wrapper None None) h0) as (r & Ea & Hr).
    exists r, (<[r := Wrapper None None]> h0). split; [done|].
    exists None, None. split; [done|].
    split; [by apply insert_subseteq|]. split; [done|].
    split; [by rewrite lookup_insert_eq|]. done.
Qed.

Lemma orNewCommon_spec (h0 : gmap loc object) r oc op :
  triple (λ h, owns h0 h r oc op) (orNewCommon r)
    (λ l h, owns h0 h r
              (Some (l, default NewTiFlashCommonConfig (snd <$> oc))) op).
Proof.
  intros h Hown. pose proof Hown as (Hsub & Hr0 & Hr & Hc & Hp & Hne).
  unfold orNewCommon, mbind, M_bind, readWrapper. rewrite Hr.
  destruct oc as [[lc dc]|]; cbn -[alloc write] in *.
  - by exists lc, h.
  - destruct (alloc_fresh (Document NewTiFlashCommonConfig) h)
      as (l & Ea & Hl).
    rewrite Ea. unfold write.
    assert (l ≠ r) by heap_ne.
    rewrite lookup_insert_ne, Hr by done.
    eexists l, _. split; [reflexivity|].
    assert (h0 !! l = None) by by apply (lookup_None_weaken h0 h).
    split; [by do 2 (apply insert_subseteq_r; [done|])|].
    split; [done|]. split; [by rewrite lookup_insert_eq|].
    split; [split; [done|by heap_lookups]|].
    destruct op as [[lp dp]|]; [|done]. destruct Hp as [Hp0 Hp].
    assert (lp ≠ r) by heap_ne. assert (lp ≠ l) by heap_ne.
    split; [split; [done|by heap_lookups]|]. done.
Qed.

Lemma orNewProxy_spec (h0 : gmap loc object) r oc op :
  triple (λ h, owns h0 h r oc op) (orNewProxy r)
    (λ l h, owns h0 h r oc
              (Some (l, default NewTiFlashProxyConfig (snd <$> op)))).
Proof.
  intros h Hown. pose proof Hown as (Hsub & Hr0 & Hr & Hc & Hp & Hne).
  unfold orNewProxy, mbind, M_bind, readWrapper. rewrite Hr.
  destruct op as [[lp dp]|]; cbn -[alloc write] in *.
  - by exists lp, h.
  - destruct (alloc_fresh (Document NewTiFlashProxyConfig) h)
      as (l & Ea & Hl).
    rewrite Ea. unfold write.
    assert (l ≠ r) by heap_ne.
    rewrite lookup_insert_ne, Hr by done.
    eexists l, _. split; [reflexivity|].
    assert (h0 !! l = None) by by apply (lookup_None_weaken h0 h).
    split; [by do 2 (apply insert_subseteq_r; [done|])|].
    split; [done|]. split; [by rewrite lookup_insert_eq|].
    destruct oc as [[lc dc]|].
    + destruct Hc as [Hc0 Hc].
      assert (lc ≠ r) by heap_ne. assert (lc ≠ l) by heap_ne.
      split; [split; [done|by heap_lookups]|].
      split; [split; [done|by heap_lookups]|]. done.
    + split; [done|]. split; [split; [done|by heap_lookups]|]. done.
Qed.

Lemma update_common_spec (h0 : gmap loc object) r l c op f :
  triple (λ h, owns h0 h r (Some (l, c)) op) (update l f)
    (λ _ h, owns h0 h r (Some (l, f c)) op).
Proof.
  intros h (Hsub & Hr0 & Hr & [Hc0 Hc] & Hp & Hne).
  unfold update, mbind, M_bind, readDocument, write. rewrite Hc. cbn.
  rewrite Hc. eexists (), _. split; [reflexivity|].
  assert (r ≠ l) by heap_ne.
  split; [by apply insert_subseteq_r|]. split; [done|].
  split; [by heap_lookups|]. split; [split; [done|by heap_lookups]|].
  destruct op as [[lp dp]|]; [|done]. destruct Hp as [Hp0 Hp].
  split; [split; [done|by heap_lookups]|]. done.
Qed.

Lemma update_proxy_spec (h0 : gmap loc object) r l p oc f :
  triple (λ h, owns h0 h r oc (Some (l, p))) (update l f)
    (λ _ h, owns h0 h r oc (Some (l, f p))).
Proof.
  intros h (Hsub & Hr0 & Hr & Hc & [Hp0 Hp] & Hne).
  unfold update, mbind, M_bind, readDocument, write. rewrite Hp. cbn.
  rewrite Hp. eexists (), _. split; [reflexivity|].
  assert (r ≠ l) by heap_ne.
  split; [by apply insert_subseteq_r|]. split; [done|].
  split; [by heap_lookups|].
  destruct oc as [[lc dc]|].
  - destruct Hc as [Hc0 Hc].
    split; [split; [done|by heap_lookups]|].
    split; [split; [done|by heap_lookups]|]. done.
  - split; [done|]. split; [split; [done|by heap_lookups]|]. done.
Qed.

Lemma update2_spec (h0 : gmap loc object) r lc c lp p f :
  triple (λ h, owns h0 h r (Some (lc, c)) (Some (lp, p))) (update2 lc lp f)
    (λ _ h, owns h0 h r (Some (lc, (f c p).1)) (Some (lp, (f c p).2))).
Proof.
  intros h (Hsub & Hr0 & Hr & [Hc0 Hc] & [Hp0 Hp] & Hne). cbn in Hne.
  unfold update2, mbind, M_bind, readDocument, write. rewrite Hc, Hp. cbn.
  rewrite Hc. rewrite lookup_insert_ne, Hp by done.
  eexists (), _. split; [reflexivity|].
  assert (r ≠ lc) by heap_ne. assert (r ≠ lp) by heap_ne.
  split; [by do 2 (apply insert_subseteq_r; [done|])|]. split; [done|].
  split; [by heap_lookups|].
  split; [split; [done|by heap_lookups]|].
  split; [split; [done|by heap_lookups]|]. done.
Qed.

Lemma commonOf_spec (h0 : gmap loc object) r l c op :
  triple (λ h, owns h0 h r (Some (l, c)) op) (commonOf r)
    (λ a h, a = l ∧ owns h0 h r (Some (l, c)) op).
Proof.
  intros h Hown. pose proof Hown as (_ & _ & Hr & _).
  unfold commonOf, mbind, M_bind, readWrapper. rewrite Hr. cbn.
  by exists l, h.
Qed.

Lemma proxyOf_spec (h0 : gmap loc object) r oc l p :
  triple (λ h, owns h0 h r oc (Some (l, p))) (proxyOf r)
    (λ a h, a = l ∧ owns h0 h r oc (Some (l, p))).
Proof.
  intros h Hown. pose proof Hown as (_ & _ & Hr & _).
  unfold proxyOf, mbind, M_bind, readWrapper. rewrite Hr. cbn.
  by exists l, h.
Qed.

Lemma readDocument_common_spec (h0 : gmap loc object) r l c op :
  triple (λ h, owns h0 h r (Some (l, c)) op) (readDocument l)
    (λ a h, a = c ∧ owns h0 h r (Some (l, c)) op).
Proof.
  intros h Hown. pose proof Hown as (_ & _ & _ & [_ Hc] & _).
  unfold readDocument. rewrite Hc. by exists c, h.
Qed.

(** What the caller gets from a call that owns a wrapper with both
    documents. *)
Lemma owns_result (h0 h : gmap loc object) r lc c lp p :
  owns h0 h r (Some (lc, c)) (Some (lp, p)) →
  h0 ⊆ h ∧ freshResult h0 h r
  ∧ viewConfig h (Some r) = Some {| Common := Some c; Proxy := Some p |}.
Proof.
  intros (Hsub & Hr0 & Hr & [Hc0 Hc] & [Hp0 Hp] & Hne).
  split; [done|]. split; [split; [done|]; by exists lc, lp|].
  unfold viewConfig. cbn. rewrite Hr. cbn. unfold viewDocument.
  by rewrite Hc, Hp.
Qed.

(** A heap that grows keeps what the caller's configuration holds. *)
Lemma viewConfig_subseteq (h0 h : gmap loc object) (config : option loc) :
  validConfig h0 config → h0 ⊆ h → viewConfig h config = viewConfig h0 config.
Proof.
  intros Hv Hsub. destruct config as [l|]; [|done]. cbn in *.
  destruct Hv as (c & p & Hl & Hc & Hp).
  rewrite Hl, (lookup_weaken _ _ _ _ Hl Hsub).
  assert (∀ d, isDocument h0 d → d ≫= viewDocument h = d ≫= viewDocument h0)
    as Hd.
  { intros [ld|] Hld; [|done]. destruct Hld as [d Hld]. cbn.
    unfold viewDocument. by rewrite Hld, (lookup_weaken _ _ _ _ Hld Hsub). }
  by rewrite (Hd c Hc), (Hd p Hp).
Qed.

End StoreSpecs.

Section StoreEntryPoints.
Context `{Externals}.

Ltac step lem := eapply triple_bind; [eapply lem|].

Lemma setTiFlashConfigDefault_spec (h0 : gmap Store.loc Store.object) r oc op
    ref cn ns cd lh a b c :
  Store.triple (λ h, Store.owns h0 h r oc op)
    (Store.setTiFlashConfigDefault r ref cn ns cd lh a b c)
    (λ _ h, ∃ lc lp,
       Store.owns h0 h r
         (Some (lc, setTiFlashCommonConfigDefault ref cn ns cd lh a b c
                      (default NewTiFlashCommonConfig (snd <$> oc))))
         (Some (lp, setTiFlashProxyConfigDefault cn ns cd lh
                      (default NewTiFlashProxyConfig (snd <$> op))))).
Proof.
  unfold Store.setTiFlashConfigDefault.
  step orNewCommon_spec. intros lc.
  step update_common_spec. intros ?.
  step orNewProxy_spec. intros lp.
  eapply triple_post; [|eapply update_proxy_spec].
  intros ? h Hown. by exists lc, lp.
Qed.

Lemma setTiFlashLogConfigDefault_spec (h0 : gmap Store.loc Store.object) r oc op :
  Store.triple (λ h, Store.owns h0 h r oc op) (Store.setTiFlashLogConfigDefault r)
    (λ _ h, ∃ lc,
       Store.owns h0 h r
         (Some (lc,
            default NewTiFlashCommonConfig (snd <$> oc)
              |> SetIfNil "flash.flash_cluster.log" (VString defaultClusterLog)
              |> SetIfNil "logger.errorlog" (VString defaultErrorLog)
              |> SetIfNil "logger.log" (VString defaultServerLog)))
         op).
Proof.
  unfold Store.setTiFlashLogConfigDefault.
  step orNewCommon_spec. intros lc.
  eapply triple_post; [|eapply update_common_spec].
  intros ? h Hown. by exists lc.
Qed.

(** The legacy synthesizer on the heap: it Store.owns its result, whose
    documents are those of the value layer run on what the caller's
    configuration holds. *)
Lemma getTiFlashConfig_triple (h0 : gmap Store.loc Store.object) (tc : TidbCluster Store.loc) :
  Store.wellFormed h0 tc →
  let cfg := default NewTiFlashConfig
               (Store.viewConfig h0 (Config (TiFlash (Spec tc)))) in
  let c0 := default NewTiFlashCommonConfig (Common cfg) in
  let p0 := default NewTiFlashProxyConfig (Proxy cfg) in
  Store.triple (λ h, h = h0) (Store.getTiFlashConfig tc)
    (λ r h, ∃ lc lp,
       Store.owns h0 h r (Some (lc, (legacyDocuments tc c0 p0).1))
                   (Some (lp, (legacyDocuments tc c0 p0).2))).
Proof.
  intros Hwf cfg c0 p0. unfold Store.getTiFlashConfig.
  step (DeepCopy_spec h0 _ Hwf). intros r0.
  step orNewTiFlashConfig_spec. intros r.
  apply triple_exists; intros oc. apply triple_exists; intros op.
  apply triple_pure; intros Hcfg.
  step orNewCommon_spec. intros lc.
  step update_common_spec. intros ?. cbv zeta.
  step setTiFlashConfigDefault_spec. intros ?.
  apply triple_exists; intros lc'. apply triple_exists; intros lp.
  step commonOf_spec. intros a1. apply triple_pure; intros ->.
  step proxyOf_spec. intros a2. apply triple_pure; intros ->.
  step update2_spec. intros ?.
  apply triple_ret. intros h Hown. exists lc', lp.
  unfold legacyDocuments, legacyCommonDefaults, legacyProxyDefaults.
  subst c0 p0. fold cfg in Hcfg. rewrite Hcfg. exact Hown.
Qed.

Lemma getTiFlashConfigV2_triple (h0 : gmap Store.loc Store.object) (tc : TidbCluster Store.loc) :
  Store.wellFormed h0 tc →
  let cfg := default NewTiFlashConfig
               (Store.viewConfig h0 (Config (TiFlash (Spec tc)))) in
  let c0 := default NewTiFlashCommonConfig (Common cfg) in
  let p0 := default NewTiFlashProxyConfig (Proxy cfg) in
  Store.triple (λ h, h = h0) (Store.getTiFlashConfigV2 tc)
    (λ r h, ∃ lc lp,
       Store.owns h0 h r (Some (lc, (currentDocuments tc c0 p0).1))
                   (Some (lp, (currentDocuments tc c0 p0).2))).
Proof.
  intros Hwf cfg c0 p0. unfold Store.getTiFlashConfigV2.
  step (DeepCopy_spec h0 _ Hwf). intros r0.
  step orNewTiFlashConfig_spec. intros r.
  apply triple_exists; intros oc. apply triple_exists; intros op.
  apply triple_pure; intros Hcfg.
  step orNewCommon_spec. intros lc.
  step orNewProxy_spec. intros lp.
  step update_common_spec. intros ?.
  step update_proxy_spec. intros ?.
  step update2_spec. intros ?.
  apply triple_ret. intros h Hown. exists lc, lp.
  unfold currentDocuments.
  subst c0 p0. fold cfg in Hcfg. rewrite Hcfg. exact Hown.
Qed.

Lemma buildTiFlashSidecarContainers_triple (h0 : gmap Store.loc Store.object)
    (tc : TidbCluster Store.loc) :
  Store.wellFormed h0 tc →
  Store.triple (λ h, h = h0) (Store.buildTiFlashSidecarContainers tc)
    (λ res h, h0 ⊆ h
              ∧ res = buildTiFlashSidecarContainers (Store.view h0 tc)).
Proof.
  intros Hwf. unfold Store.buildTiFlashSidecarContainers. cbv zeta.
  step (DeepCopy_spec h0 _ Hwf). intros r0.
  step orNewTiFlashConfig_spec. intros r.
  apply triple_exists; intros oc. apply triple_exists; intros op.
  apply triple_pure; intros Hcfg.
  step setTiFlashLogConfigDefault_spec. intros ?.
  apply triple_exists; intros lc.
  step commonOf_spec. intros a1. apply triple_pure; intros ->.
  step readDocument_common_spec. intros d. apply triple_pure; intros ->.
  apply triple_ret. intros h Hown. split; [apply Hown|].
  unfold buildTiFlashSidecarContainers. cbv zeta.
  unfold Store.view.
  cbn [withConfig Spec TiFlash Config LogTailer HelperImage
       HelperImagePullPolicy].
  rewrite Hcfg. reflexivity.
Qed.

End StoreEntryPoints.

(** ** The entry points copy before they write *)

Section CopyFirst.
Context `{Externals}.

Lemma preserved_subseteq (h h' : gmap Store.loc Store.object)
    (tc : TidbCluster Store.loc) :
  Store.wellFormed h tc → h ⊆ h' → Store.preserved h h' tc.
Proof.
  intros Hwf Hsub. split; [done|]. unfold Store.view.
  by rewrite (viewConfig_subseteq h h' _ Hwf Hsub).
Qed.

Lemma getTiFlashConfig_synthesizes h tc :
  Store.wellFormed h tc →
  Store.synthesizes (Store.getTiFlashConfig tc) getTiFlashConfig h tc.
Proof.
  intros Hwf.
  destruct (getTiFlashConfig_triple h tc Hwf h eq_refl)
    as (r & h' & Erun & lc & lp & Hown).
  apply owns_result in Hown as (Hsub & Hfresh & Hview).
  exists r, h'. split; [done|]. split; [by apply preserved_subseteq|].
  split; [done|]. rewrite Hview. f_equal.
  rewrite getTiFlashConfig_documents. unfold Store.view.
  rewrite !legacyDocuments_withConfig.
  unfold inputCommon, inputProxy, specConfig.
  cbn [withConfig Spec TiFlash Config]. reflexivity.
Qed.

Lemma getTiFlashConfigV2_synthesizes h tc :
  Store.wellFormed h tc →
  Store.synthesizes (Store.getTiFlashConfigV2 tc) getTiFlashConfigV2 h tc.
Proof.
  intros Hwf.
  destruct (getTiFlashConfigV2_triple h tc Hwf h eq_refl)
    as (r & h' & Erun & lc & lp & Hown).
  apply owns_result in Hown as (Hsub & Hfresh & Hview).
  exists r, h'. split; [done|]. split; [by apply preserved_subseteq|].
  split; [done|]. rewrite Hview. f_equal.
  rewrite getTiFlashConfigV2_documents. unfold Store.view.
  rewrite !currentDocuments_withConfig.
  unfold inputCommon, inputProxy, specConfig.
  cbn [withConfig Spec TiFlash Config]. reflexivity.
Qed.

Lemma GetTiFlashConfig_synthesizes h tc :
  Store.wellFormed h tc →
  Store.synthesizes (Store.GetTiFlashConfig tc) GetTiFlashConfig h tc.
Proof.
  intros Hwf.
  unfold Store.synthesizes, Store.GetTiFlashConfig, GetTiFlashConfig.
  cbn [Store.view withConfig TiFlashVersion].
  destruct (checkV540 (TiFlashVersion tc)).
  - exact (getTiFlashConfigV2_synthesizes h tc Hwf).
  - exact (getTiFlashConfig_synthesizes h tc Hwf).
Qed.

Lemma buildTiFlashSidecarContainers_runs h tc :
  Store.wellFormed h tc →
  ∃ h', Store.buildTiFlashSidecarContainers tc h
        = Some (buildTiFlashSidecarContainers (Store.view h tc), h')
        ∧ Store.preserved h h' tc.
Proof.
  intros Hwf.
  destruct (buildTiFlashSidecarContainers_triple h tc Hwf h eq_refl)
    as (res & h' & Erun & Hsub & ->).
  exists h'. split; [done|]. by apply preserved_subseteq.
Qed.

(** C8.  Every synthesis entry point works on a deep copy of the
    configuration in the cluster spec.  Started in any heap in which the
    [Config] pointer of the cluster is nil or points to a configuration,
    [getTiFlashConfig], [getTiFlashConfigV2] and [GetTiFlashConfig] leave
    every object of that heap as it was (so the caller's configuration
    reads the same before and after), return a wrapper that is a new
    object and points to two new documents, and the returned documents
    are those the synthesizer of the value layer gives for the caller's
    configuration.  [buildTiFlashSidecarContainers] leaves every object of
    the heap as it was too. *)
Theorem entry_points_copy_first (h : gmap Store.loc Store.object)
    (tc : TidbCluster Store.loc) :
  Store.wellFormed h tc →
  Store.synthesizes (Store.getTiFlashConfig tc) getTiFlashConfig h tc
  ∧ Store.synthesizes (Store.getTiFlashConfigV2 tc) getTiFlashConfigV2 h tc
  ∧ Store.synthesizes (Store.GetTiFlashConfig tc) GetTiFlashConfig h tc
  ∧ ∃ h', Store.buildTiFlashSidecarContainers tc h
          = Some (buildTiFlashSidecarContainers (Store.view h tc), h')
          ∧ Store.preserved h h' tc.
Proof.
  intros Hwf.
  split; [by apply getTiFlashConfig_synthesizes|].
  split; [by apply getTiFlashConfigV2_synthesizes|].
  split; [by apply GetTiFlashConfig_synthesizes|].
  by apply buildTiFlashSidecarContainers_runs.
Qed.

(** C9.  [GetTiFlashConfig] always gives a configuration with both
    documents, whatever the input lacks, and has no error to return; on
    a well-formed heap it does not panic.  [buildTiFlashSidecarContainers]
    does not panic, returns an error exactly when one of the three
    log-path keys of the partial input holds a value that is not a
    string, that error is TypeMismatch, and otherwise it returns three
    containers. *)
Theorem errors_only_from_string_reads :
  (∀ tc, ∃ c p, GetTiFlashConfig tc = {| Common := Some c; Proxy := Some p |})
  ∧ (∀ h tc, Store.wellFormed h tc → is_Some (Store.GetTiFlashConfig tc h))
  ∧ (∀ tc,
       ((∃ e, buildTiFlashSidecarContainers tc = Err e)
        ↔ ∃ k v, k ∈ logPathKeys ∧ commonGet k (specConfig tc) = Some v
                 ∧ notString v)
       ∧ (buildTiFlashSidecarContainers tc = Err TypeMismatch
          ∨ ∃ cs, buildTiFlashSidecarContainers tc = Ok cs
                  ∧ length cs = 3%nat)).
Proof.
  split; [apply getTiFlashConfig_total|]. split.
  - intros h tc Hwf.
    destruct (GetTiFlashConfig_synthesizes h tc Hwf) as (r & h' & -> & _).
    eauto.
  - intros tc. split; [apply sidecar_error_iff|].
    destruct (buildTiFlashSidecarContainers_cases tc)
      as [[_ ->]|(cs & -> & Hl & _)]; [by left|right; eauto].
Qed.

End CopyFirst.

(** C8 at a concrete heap: the configuration of the cluster is the
    wrapper at location 1 of [sampleHeap]. *)
Lemma entry_points_copy_first_witness :
  Store.wellFormed sampleHeap (sampleCluster "v5.4.0" 1 true false (Some 1%positive))
  ∧ Store.synthesizes
      (@Store.GetTiFlashConfig sampleExternals
         (sampleCluster "v5.4.0" 1 true false (Some 1%positive)))
      (@GetTiFlashConfig sampleExternals)
      sampleHeap (sampleCluster "v5.4.0" 1 true false (Some 1%positive)).
Proof.
  assert (Store.wellFormed sampleHeap
            (sampleCluster "v5.4.0" 1 true false (Some 1%positive))) as Hwf.
  { exists (Some 2%positive), None. split; [reflexivity|].
    split; [|exact I]. eexists. reflexivity. }
  split; [exact Hwf|].
  exact (proj1 (proj2 (proj2 (@entry_points_copy_first sampleExternals
           sampleHeap _ Hwf)))).
Defined.

(** ** Splitting a log path *)

(** X1.  [buildSidecarContainer] mounts a volume exactly when the path
    has at least two separators; the volume is then named by the text
    between the first two separators and mounted at ["/"] followed by
    that name.  The command tails the path in either case. *)
Theorem buildSidecarContainer_mounts
    (name path image pullPolicy : string) (resource : ResourceRequirements) :
  let c := buildSidecarContainer name path image pullPolicy resource in
  (c_VolumeMounts c = [] ↔ (occurrences "/" path < 2)%nat)
  ∧ (∀ a dir rest,
       path = a ++ "/" ++ dir ++ "/" ++ rest →
       occurrences "/" a = 0%nat → occurrences "/" dir = 0%nat →
       c_VolumeMounts c = [mkVolumeMount dir ("/" ++ dir)])
  ∧ c_Command c
    = ["sh"; "-c"; "touch " ++ path ++ "; tail -n0 -F " ++ path ++ ";"]
  ∧ c_Name c = name ∧ c_Image c = image
  ∧ c_ImagePullPolicy c = pullPolicy ∧ c_Resources c = resource.
Proof.
  cbv zeta. unfold buildSidecarContainer. cbv zeta.
  rewrite split_on_length.
  case_bool_decide as Hlen; cbn [c_VolumeMounts c_Command c_Name c_Image
    c_ImagePullPolicy c_Resources].
  - split; [split; [done|lia]|]. split; [|done].
    intros a dir rest -> Ha Hd.
    change (a ++ "/" ++ dir ++ "/" ++ rest)
      with (a ++ String "/" (dir ++ String "/" rest)).
    rewrite split_on_prefix by done.
    rewrite split_on_prefix by done. done.
  - split; [split; [lia|done]|]. split; [|done].
    intros a dir rest -> Ha Hd. exfalso. apply Hlen.
    rewrite !occurrences_app. simpl. lia.
Qed.

(** X1 at the default server log path. *)
Lemma buildSidecarContainer_mounts_witness :
  c_VolumeMounts
    (buildSidecarContainer "serverlog" defaultServerLog "busybox" "Always"
       (mkResourceRequirements [] []))
  = [mkVolumeMount "data0" "/data0"].
Proof.
  apply (proj1 (proj2 (buildSidecarContainer_mounts "serverlog"
    defaultServerLog "busybox" "Always" (mkResourceRequirements [] [])))
    "" "data0" "logs/server.log"); reflexivity.
Defined.

(** ** The log defaults and the sidecar containers *)

Section LogDefaults.
Context `{Externals}.

(** X2.  [setTiFlashLogConfigDefault] only fills in the three log paths:
    it leaves the proxy document and every other key of the engine
    document alone, keeps every value the engine document has, puts the
    default at a log path the document lacks, and changes nothing when
    run a second time. *)
Theorem setTiFlashLogConfigDefault_frame (config : TiFlashConfigWraper) :
  Proxy (setTiFlashLogConfigDefault config) = Proxy config
  ∧ (∀ k v, commonGet k config = Some v →
            commonGet k (setTiFlashLogConfigDefault config) = Some v)
  ∧ (∀ k, k ∉ logPathKeys →
          commonGet k (setTiFlashLogConfigDefault config)
          = commonGet k config)
  ∧ commonGet "logger.log" (setTiFlashLogConfigDefault config)
    = Some (default (VString defaultServerLog) (commonGet "logger.log" config))
  ∧ commonGet "logger.errorlog" (setTiFlashLogConfigDefault config)
    = Some (default (VString defaultErrorLog)
              (commonGet "logger.errorlog" config))
  ∧ commonGet "flash.flash_cluster.log" (setTiFlashLogConfigDefault config)
    = Some (default (VString defaultClusterLog)
              (commonGet "flash.flash_cluster.log" config))
  ∧ setTiFlashLogConfigDefault (setTiFlashLogConfigDefault config)
    = setTiFlashLogConfigDefault config.
Proof.
  assert (∀ k, commonGet k config
               = default NewTiFlashCommonConfig (Common config) !! k) as Hget.
  { intros k. unfold commonGet, Get. by destruct (Common config). }
  set (f := λ c : gmap string Value,
         c |> SetIfNil "flash.flash_cluster.log" (VString defaultClusterLog)
           |> SetIfNil "logger.errorlog" (VString defaultErrorLog)
           |> SetIfNil "logger.log" (VString defaultServerLog)).
  assert (defaulting f) as Hf by (unfold f; defaulting_steps).
  assert (∀ cfg k, commonGet k (setTiFlashLogConfigDefault cfg)
                   = f (default NewTiFlashCommonConfig (Common cfg)) !! k)
    as Hout by done.
  split; [done|]. split; [|split; [|split; [|split; [|split]]]].
  - intros k v. rewrite Hget, Hout. apply defaulting_lookup_Some, Hf.
  - intros k Hk. rewrite Hget, Hout.
    unfold logPathKeys in Hk. rewrite !not_elem_of_cons in Hk.
    destruct_and!. unfold f. by lookups.
  - rewrite Hget, Hout. unfold f. by lookups.
  - rewrite Hget, Hout. unfold f. by lookups.
  - rewrite Hget, Hout. unfold f. by lookups.
  - unfold setTiFlashLogConfigDefault. cbn [Common Proxy default].
    do 2 f_equal. exact (defaulting_idemp f _ Hf).
Qed.

(** The value the builder reads at a log path, as a string. *)
Lemma AsString_logPath (tc : TidbCluster TiFlashConfigWraper) k d :
  (∀ v, commonGet k (specConfig tc) = Some v → ∃ s, v = VString s) →
  AsString (Some (default (VString d) (inputCommon tc !! k)))
  = Ok (logPath k d tc).
Proof.
  intros Hs. unfold logPath. rewrite commonGet_specConfig in *.
  destruct (inputCommon tc !! k) as [v|] eqn:E; [|done].
  destruct (Hs v eq_refl) as [s ->]. done.
Qed.

(** X3.  When each of the three log-path keys of the partial input is
    absent or holds a string, [buildTiFlashSidecarContainers] returns the
    containers [serverlog], [errorlog] and [clusterlog], in this order,
    each built by [buildSidecarContainer] for the path at its key (the
    default where the key is absent), with the helper image, its pull
    policy and the log tailer resources of the cluster. *)
Theorem buildTiFlashSidecarContainers_ok (tc : TidbCluster TiFlashConfigWraper) :
  (∀ k v, k ∈ logPathKeys → commonGet k (specConfig tc) = Some v →
          ∃ s, v = VString s) →
  buildTiFlashSidecarContainers tc
  = Ok [ buildSidecarContainer "serverlog"
           (logPath "logger.log" defaultServerLog tc)
           (HelperImage tc) (HelperImagePullPolicy tc) (logTailerResources tc);
         buildSidecarContainer "errorlog"
           (logPath "logger.errorlog" defaultErrorLog tc)
           (HelperImage tc) (HelperImagePullPolicy tc) (logTailerResources tc);
         buildSidecarContainer "clusterlog"
           (logPath "flash.flash_cluster.log" defaultClusterLog tc)
           (HelperImage tc) (HelperImagePullPolicy tc) (logTailerResources tc) ].
Proof.
  intros Hs. unfold buildTiFlashSidecarContainers. cbv zeta.
  destruct (setTiFlashLogConfigDefault_lookups
              (default NewTiFlashConfig (Config (TiFlash (Spec tc)))))
    as (-> & -> & ->).
  fold (specConfig tc). fold (inputCommon tc).
  rewrite !AsString_logPath; [reflexivity|..];
    intros v; apply Hs; unfold logPathKeys; rewrite !elem_of_cons; tauto.
Qed.

End LogDefaults.

(** X3 at a cluster without log settings: the three containers tail the
    default paths and mount the volume [data0]. *)
Lemma buildTiFlashSidecarContainers_ok_witness :
  @buildTiFlashSidecarContainers sampleExternals
    (sampleCluster "v5.4.0" 1 false false None)
  = Ok [ buildSidecarContainer "serverlog" "/data0/logs/server.log"
           "busybox:1.26.2" "IfNotPresent" (mkResourceRequirements [] []);
         buildSidecarContainer "errorlog" "/data0/logs/error.log"
           "busybox:1.26.2" "IfNotPresent" (mkResourceRequirements [] []);
         buildSidecarContainer "clusterlog"
           "/data0/logs/flash_cluster_manager.log"
           "busybox:1.26.2" "IfNotPresent" (mkResourceRequirements [] []) ].
Proof.
  apply (@buildTiFlashSidecarContainers_ok sampleExternals
           (sampleCluster "v5.4.0" 1 false false None)).
  intros k v _ Hv. discriminate Hv.
Defined.

(** ** More of the tables of defaults *)

Section Tables.
Context `{Externals}.

Lemma legacy_default_table_more {C} (tc : TidbCluster C) :
  let D := legacyCommonDefaults tc ∅ in
  D !! "logger.log" = Some (VString defaultServerLog)
  ∧ D !! "logger.errorlog" = Some (VString defaultErrorLog)
  ∧ D !! "flash.flash_cluster.log" = Some (VString defaultClusterLog)
  ∧ D !! "flash.tidb_status_addr"
    = Some (VString (resolveStatusAddress (hasReference tc) tc))
  ∧ D !! "flash.service_addr" = Some (VString (listenHost tc ++ ":3930"))
  ∧ D !! "flash.proxy.addr" = Some (VString (listenHost tc ++ ":20170"))
  ∧ D !! "raft.kvstore_path" = Some (VString "/data0/kvstore")
  ∧ D !! "storage.main.dir" = None ∧ D !! "storage.raft.dir" = None.
Proof.
  destruct tc as [name ns [cd ref ipv6 tf] ver het across nopd notidb tls img pol].
  cbv zeta.
  unfold legacyCommonDefaults, resolveStatusAddress, listenHost,
    hasReference, setTiFlashCommonConfigDefault.
  cbn [Spec Cluster Name Namespace ClusterDomain PreferIPv6 WithoutLocalPD
       WithoutLocalTiDB AcrossK8s].
  destruct ipv6, across, ref as [r|], nopd, notidb; vm_compute;
    repeat split; reflexivity.
Qed.

Lemma current_default_table_more {C} (tc : TidbCluster C) :
  let D := getTiFlashConfigV2_defaults tc ∅ in
  D !! "logger.log" = Some (VString defaultServerLog)
  ∧ D !! "logger.errorlog" = Some (VString defaultErrorLog)
  ∧ D !! "flash.flash_cluster.log" = Some (VString defaultClusterLog)
  ∧ D !! "flash.tidb_status_addr"
    = Some (VString (resolveStatusAddress (Heterogeneous tc) tc))
  ∧ D !! "flash.service_addr" = Some (VString (listenHost tc ++ ":3930"))
  ∧ D !! "flash.proxy.addr" = Some (VString (listenHost tc ++ ":20170"))
  ∧ D !! "raft.kvstore_path" = None
  ∧ D !! "storage.raft.dir" = None
  ∧ D !! "security.ca_path" = None ∧ D !! "security.cert_path" = None
  ∧ D !! "security.key_path" = None ∧ D !! "security.cert_allowed_cn" = None.
Proof.
  destruct tc as [name ns [cd ref ipv6 tf] ver het across nopd notidb tls img pol].
  cbv zeta.
  unfold getTiFlashConfigV2_defaults, resolveStatusAddress, listenHost,
    Heterogeneous.
  cbn [Spec Cluster Name Namespace ClusterDomain PreferIPv6 WithoutLocalPD
       WithoutLocalTiDB AcrossK8s heterogeneous].
  destruct ipv6, across, ref as [r|], nopd, notidb, het; vm_compute;
    repeat split; reflexivity.
Qed.

Lemma proxy_default_table {C} (tc : TidbCluster C) :
  let D := legacyProxyDefaults tc ∅ in
  D !! "server.status-addr" = Some (VString (listenHost tc ++ ":20292"))
  ∧ D !! "log-level" = Some (VString "info")
  ∧ D !! "security.ca-path" = None ∧ D !! "security.cert-path" = None
  ∧ D !! "security.key-path" = None ∧ D !! "security.cert-allowed-cn" = None.
Proof.
  destruct tc as [name ns [cd ref ipv6 tf] ver het across nopd notidb tls img pol].
  cbv zeta. unfold legacyProxyDefaults, listenHost.
  cbn [Spec Name Namespace ClusterDomain PreferIPv6].
  destruct ipv6; vm_compute; repeat split; reflexivity.
Qed.

(** The proxy defaults of the two dialects are the same run of calls. *)
Lemma V2_proxy_legacy {C} (tc : TidbCluster C) (m : gmap string Value) :
  getTiFlashConfigV2_proxy tc m = legacyProxyDefaults tc m.
Proof. reflexivity. Qed.

End Tables.

(** ** What the synthesizers leave at a key *)

Section Values.
Context `{Externals}.

(** The legacy dialect leaves at a key with default [d] the value of the
    input, or else [d], unless the storage or the TLS step owns the key. *)
Lemma legacy_engine_value {C} (tc : TidbCluster C) c p i d :
  i ∉ tlsEngineKeys false (IsTLSClusterEnabled tc) → i ≠ "path" →
  legacyCommonDefaults tc ∅ !! i = Some d →
  (legacyDocuments tc c p).1 !! i = Some (default d (c !! i)).
Proof.
  intros Hi Hp Hd. rewrite legacy_engine_lookup by exact Hi.
  rewrite (defaulting_lookup _ _ i (defaulting_legacyCommon tc)).
  rewrite storage_lookup_ne by exact Hp. rewrite Hd.
  by destruct (c !! i).
Qed.

Lemma current_engine_value {C} (tc : TidbCluster C) c p i d :
  i ∉ tlsEngineKeys true (IsTLSClusterEnabled tc) →
  i ≠ "tcp_port_secure" → i ≠ "https_port" →
  i ≠ "storage.main.dir" → i ≠ "storage.raft.dir" →
  getTiFlashConfigV2_defaults tc ∅ !! i = Some d →
  (currentDocuments tc c p).1 !! i = Some (default d (c !! i)).
Proof.
  intros Hi ? ? ? ? Hd. rewrite current_engine_lookup by assumption.
  unfold getTiFlashConfigV2_common.
  rewrite (defaulting_lookup _ _ i (defaulting_V2_defaults tc)).
  rewrite V2_storage_lookup_ne by assumption. rewrite Hd.
  by destruct (c !! i).
Qed.

(** The log paths of both dialects. *)
Lemma log_path_values (tc : TidbCluster TiFlashConfigWraper) k d :
  (k, d) ∈ [("logger.log", defaultServerLog);
            ("logger.errorlog", defaultErrorLog);
            ("flash.flash_cluster.log", defaultClusterLog)] →
  commonGet k (getTiFlashConfig tc)
    = Some (default (VString d) (commonGet k (specConfig tc)))
  ∧ commonGet k (getTiFlashConfigV2 tc)
    = Some (default (VString d) (commonGet k (specConfig tc)))
  ∧ commonGet k (setTiFlashLogConfigDefault (specConfig tc))
    = Some (default (VString d) (commonGet k (specConfig tc))).
Proof.
  rewrite commonGet_getTiFlashConfig, commonGet_getTiFlashConfigV2,
    commonGet_specConfig.
  destruct (legacy_default_table_more tc) as (Hl1 & Hl2 & Hl3 & _).
  destruct (current_default_table_more tc) as (Hc1 & Hc2 & Hc3 & _).
  destruct (setTiFlashLogConfigDefault_frame (specConfig tc))
    as (_ & _ & _ & Hs1 & Hs2 & Hs3 & _).
  rewrite !commonGet_specConfig in Hs1, Hs2, Hs3.
  rewrite !elem_of_cons. intros [[= -> ->]|[[= -> ->]|[[= -> ->]|Hk]]];
    [| | |by apply elem_of_nil in Hk].
  - split; [|split; [|exact Hs1]].
    + apply legacy_engine_value;
        [apply not_tls_engine_key; discriminate|discriminate|exact Hl1].
    + apply current_engine_value;
        [apply not_tls_engine_key; discriminate|discriminate..|exact Hc1].
  - split; [|split; [|exact Hs2]].
    + apply legacy_engine_value;
        [apply not_tls_engine_key; discriminate|discriminate|exact Hl2].
    + apply current_engine_value;
        [apply not_tls_engine_key; discriminate|discriminate..|exact Hc2].
  - split; [|split; [|exact Hs3]].
    + apply legacy_engine_value;
        [apply not_tls_engine_key; discriminate|discriminate|exact Hl3].
    + apply current_engine_value;
        [apply not_tls_engine_key; discriminate|discriminate..|exact Hc3].
Qed.

(** X4.  The log tailer follows the files the engine is told to write:
    at each of the three log-path keys, the configuration either dialect
    synthesizes has the value that [setTiFlashLogConfigDefault] gives the
    sidecar builder. *)
Theorem log_paths_agree (tc : TidbCluster TiFlashConfigWraper) (k : string) :
  k ∈ logPathKeys →
  commonGet k (getTiFlashConfig tc)
    = commonGet k (setTiFlashLogConfigDefault (specConfig tc))
  ∧ commonGet k (getTiFlashConfigV2 tc)
    = commonGet k (setTiFlashLogConfigDefault (specConfig tc))
  ∧ commonGet k (GetTiFlashConfig tc)
    = commonGet k (setTiFlashLogConfigDefault (specConfig tc)).
Proof.
  intros Hk.
  assert (∃ d, (k, d) ∈ [("logger.log", defaultServerLog);
                         ("logger.errorlog", defaultErrorLog);
                         ("flash.flash_cluster.log", defaultClusterLog)])
    as [d Hd].
  { unfold logPathKeys in Hk. rewrite !elem_of_cons in Hk.
    destruct Hk as [->|[->|[->|Hk]]]; [| | |by apply elem_of_nil in Hk];
      eexists; rewrite !elem_of_cons; eauto. }
  destruct (log_path_values tc k d Hd) as (Hl & Hc & Hs).
  rewrite Hs. split; [exact Hl|]. split; [exact Hc|].
  unfold GetTiFlashConfig. by destruct (checkV540 _).
Qed.

(** The builder reads its cluster through the three log paths, the helper
    image, its pull policy and the log tailer. *)
Lemma buildTiFlashSidecarContainers_ext (tc tc' : TidbCluster TiFlashConfigWraper) :
  (∀ k, k ∈ logPathKeys →
        commonGet k (setTiFlashLogConfigDefault (specConfig tc'))
        = commonGet k (setTiFlashLogConfigDefault (specConfig tc))) →
  HelperImage tc' = HelperImage tc →
  HelperImagePullPolicy tc' = HelperImagePullPolicy tc →
  LogTailer (TiFlash (Spec tc')) = LogTailer (TiFlash (Spec tc)) →
  buildTiFlashSidecarContainers tc' = buildTiFlashSidecarContainers tc.
Proof.
  intros Hk Hi Hp Hl. unfold buildTiFlashSidecarContainers. cbv zeta.
  fold (specConfig tc). fold (specConfig tc').
  fold (commonGet "logger.log" (setTiFlashLogConfigDefault (specConfig tc))).
  fold (commonGet "logger.log" (setTiFlashLogConfigDefault (specConfig tc'))).
  fold (commonGet "logger.errorlog"
          (setTiFlashLogConfigDefault (specConfig tc))).
  fold (commonGet "logger.errorlog"
          (setTiFlashLogConfigDefault (specConfig tc'))).
  fold (commonGet "flash.flash_cluster.log"
          (setTiFlashLogConfigDefault (specConfig tc))).
  fold (commonGet "flash.flash_cluster.log"
          (setTiFlashLogConfigDefault (specConfig tc'))).
  rewrite !Hk, Hi, Hp, Hl; [reflexivity|..];
    unfold logPathKeys; rewrite !elem_of_cons; tauto.
Qed.

(** X5.  The sidecar builder gives the same result for a cluster whose
    configuration is the one a synthesizer produced as for the cluster
    itself. *)
Theorem sidecars_of_synthesized_config (tc : TidbCluster TiFlashConfigWraper) :
  buildTiFlashSidecarContainers (withConfig tc (Some (getTiFlashConfig tc)))
    = buildTiFlashSidecarContainers tc
  ∧ buildTiFlashSidecarContainers
      (withConfig tc (Some (getTiFlashConfigV2 tc)))
    = buildTiFlashSidecarContainers tc
  ∧ buildTiFlashSidecarContainers
      (withConfig tc (Some (GetTiFlashConfig tc)))
    = buildTiFlashSidecarContainers tc.
Proof.
  assert (∀ out,
    (∀ k, k ∈ logPathKeys →
          commonGet k out
          = commonGet k (setTiFlashLogConfigDefault (specConfig tc))) →
    buildTiFlashSidecarContainers (withConfig tc (Some out))
    = buildTiFlashSidecarContainers tc) as Hout.
  { intros out Hk. apply buildTiFlashSidecarContainers_ext; try reflexivity.
    intros k Hin. change (specConfig (withConfig tc (Some out))) with out.
    assert (∃ d, (k, d) ∈ [("logger.log", defaultServerLog);
                           ("logger.errorlog", defaultErrorLog);
                           ("flash.flash_cluster.log", defaultClusterLog)])
      as [d Hd].
    { unfold logPathKeys in Hin. rewrite !elem_of_cons in Hin.
      destruct Hin as [->|[->|[->|Hn]]]; [| | |by apply elem_of_nil in Hn];
        eexists; rewrite !elem_of_cons; eauto. }
    destruct (log_path_values tc k d Hd) as (_ & _ & Hs).
    destruct (setTiFlashLogConfigDefault_frame out)
      as (_ & Hkeep & _).
    rewrite <- (Hk k Hin). rewrite (Hk k Hin), Hs.
    apply Hkeep. by rewrite (Hk k Hin), Hs. }
  split; [|split]; apply Hout; intros k Hk; by apply log_paths_agree.
Qed.

End Values.

(** X4 at a cluster whose partial input names the server log. *)
Lemma log_paths_agree_witness :
  commonGet "logger.log"
    (@getTiFlashConfig sampleExternals
       (sampleCluster "v5.3.9" 1 false false
          (Some (engineOnly "logger.log" (VString "/var/log/tiflash/server.log")))))
  = Some (VString "/var/log/tiflash/server.log")
  ∧ commonGet "logger.log"
      (setTiFlashLogConfigDefault
         (specConfig
            (sampleCluster "v5.3.9" 1 false false
               (Some (engineOnly "logger.log"
                        (VString "/var/log/tiflash/server.log"))))))
    = Some (VString "/var/log/tiflash/server.log").
Proof.
  split; [|reflexivity].
  refine (eq_trans
    (proj1 (@log_paths_agree sampleExternals
              (sampleCluster "v5.3.9" 1 false false
                 (Some (engineOnly "logger.log"
                          (VString "/var/log/tiflash/server.log"))))
              "logger.log" _)) _); [|reflexivity].
  unfold logPathKeys. rewrite elem_of_cons. by left.
Defined.

(** ** Addresses *)

Section MoreAddresses.
Context `{Externals}.

Lemma not_tls_proxy_key tls i :
  i ≠ "security.ca-path" → i ≠ "security.cert-path" →
  i ≠ "security.key-path" → i ∉ tlsProxyKeys tls.
Proof.
  intros. unfold tlsProxyKeys. destruct tls;
    rewrite ?not_elem_of_cons; repeat split; try assumption;
    apply not_elem_of_nil.
Qed.

(** Either dialect leaves at a proxy key with default [d] the value of
    the input, or else [d], unless the TLS step owns the key. *)
Lemma proxy_value {C} (tc : TidbCluster C) c p i d :
  i ∉ tlsProxyKeys (IsTLSClusterEnabled tc) →
  legacyProxyDefaults tc ∅ !! i = Some d →
  (legacyDocuments tc c p).2 !! i = Some (default d (p !! i))
  ∧ (currentDocuments tc c p).2 !! i = Some (default d (p !! i)).
Proof.
  intros Hi Hd.
  assert (legacyProxyDefaults tc p !! i = Some (default d (p !! i))) as Hy.
  { rewrite (defaulting_lookup _ _ i (defaulting_legacyProxy tc)), Hd.
    by destruct (p !! i). }
  revert Hi. unfold legacyDocuments, currentDocuments.
  change (getTiFlashConfigV2_proxy tc p) with (legacyProxyDefaults tc p).
  generalize (legacyProxyDefaults tc p) Hy. intros y Hy'.
  unfold getTiFlashConfig_tls, getTiFlashConfigV2_tls, tlsProxyKeys, Set_,
    Del, Get.
  destruct (IsTLSClusterEnabled tc); cbn [snd]; [|done].
  intros Hi. rewrite !not_elem_of_cons in Hi. destruct_and!.
  split; by apply tls_proxy_preserved.
Qed.

(** X6.  When the partial input has no [flash.tidb_status_addr], the
    current dialect writes the TiDB status address of the reference
    cluster for a heterogeneous cluster without local TiDB (the peer
    service across Kubernetes clusters, the cluster service otherwise)
    and the one of the cluster itself in every other case; the legacy
    dialect does the same with "declares a reference cluster" in place
    of "is heterogeneous".  With local TiDB both write the address of the
    cluster itself. *)
Theorem tidb_status_addr_resolution (tc : TidbCluster TiFlashConfigWraper) :
  commonGet "flash.tidb_status_addr" (specConfig tc) = None →
  commonGet "flash.tidb_status_addr" (getTiFlashConfigV2 tc)
    = Some (VString (resolveStatusAddress (Heterogeneous tc) tc))
  ∧ commonGet "flash.tidb_status_addr" (getTiFlashConfig tc)
    = Some (VString (resolveStatusAddress (hasReference tc) tc))
  ∧ (WithoutLocalTiDB tc = false →
     ∀ borrows,
       resolveStatusAddress borrows tc
       = TiDBMemberName (Name tc) ++ "." ++ Namespace tc ++ ".svc:10080").
Proof.
  rewrite commonGet_specConfig, commonGet_getTiFlashConfig,
    commonGet_getTiFlashConfigV2.
  intros Hc.
  destruct (legacy_default_table_more tc) as (_ & _ & _ & Hl & _).
  destruct (current_default_table_more tc) as (_ & _ & _ & Hv & _).
  split; [|split].
  - rewrite (current_engine_value tc _ _ "flash.tidb_status_addr" _
               ltac:(apply not_tls_engine_key; discriminate)
               ltac:(discriminate) ltac:(discriminate) ltac:(discriminate)
               ltac:(discriminate) Hv).
    by rewrite Hc.
  - rewrite (legacy_engine_value tc _ _ "flash.tidb_status_addr" _
               ltac:(apply not_tls_engine_key; discriminate)
               ltac:(discriminate) Hl).
    by rewrite Hc.
  - intros Hn borrows. unfold resolveStatusAddress. by rewrite Hn.
Qed.

(** X7.  The listen addresses follow the IP family in two spellings: when
    the partial input lacks the keys, both dialects write
    [flash.service_addr], [flash.proxy.addr] and the proxy's
    [server.status-addr] with the bracketed host ["[::]"] under IPv6 and
    ["0.0.0.0"] otherwise, and the ports 3930, 20170 and 20292. *)
Theorem listen_addresses (tc : TidbCluster TiFlashConfigWraper) :
  commonGet "flash.service_addr" (specConfig tc) = None →
  commonGet "flash.proxy.addr" (specConfig tc) = None →
  proxyGet "server.status-addr" (specConfig tc) = None →
  let host := if PreferIPv6 (Spec tc) then "[::]" else "0.0.0.0" in
  (commonGet "flash.service_addr" (getTiFlashConfig tc)
     = Some (VString (host ++ ":3930"))
   ∧ commonGet "flash.proxy.addr" (getTiFlashConfig tc)
     = Some (VString (host ++ ":20170"))
   ∧ proxyGet "server.status-addr" (getTiFlashConfig tc)
     = Some (VString (host ++ ":20292")))
  ∧ (commonGet "flash.service_addr" (getTiFlashConfigV2 tc)
       = Some (VString (host ++ ":3930"))
     ∧ commonGet "flash.proxy.addr" (getTiFlashConfigV2 tc)
       = Some (VString (host ++ ":20170"))
     ∧ proxyGet "server.status-addr" (getTiFlashConfigV2 tc)
       = Some (VString (host ++ ":20292"))).
Proof.
  rewrite !commonGet_specConfig, proxyGet_specConfig,
    !commonGet_getTiFlashConfig, !commonGet_getTiFlashConfigV2,
    proxyGet_getTiFlashConfig, proxyGet_getTiFlashConfigV2.
  intros Hs Hp Hst. cbv zeta.
  change (if PreferIPv6 (Spec tc) then "[::]" else "0.0.0.0")
    with (listenHost tc).
  destruct (legacy_default_table_more tc) as (_ & _ & _ & _ & Hl1 & Hl2 & _).
  destruct (current_default_table_more tc) as (_ & _ & _ & _ & Hv1 & Hv2 & _).
  destruct (proxy_default_table tc) as (Hx & _).
  split; (split; [|split]).
  - rewrite (legacy_engine_value tc _ _ "flash.service_addr" _
               ltac:(apply not_tls_engine_key; discriminate)
               ltac:(discriminate) Hl1).
    by rewrite Hs.
  - rewrite (legacy_engine_value tc _ _ "flash.proxy.addr" _
               ltac:(apply not_tls_engine_key; discriminate)
               ltac:(discriminate) Hl2).
    by rewrite Hp.
  - rewrite (proj1 (proxy_value tc (inputCommon tc) _ "server.status-addr" _
               ltac:(apply not_tls_proxy_key; discriminate) Hx)).
    by rewrite Hst.
  - rewrite (current_engine_value tc _ _ "flash.service_addr" _
               ltac:(apply not_tls_engine_key; discriminate)
               ltac:(discriminate) ltac:(discriminate) ltac:(discriminate)
               ltac:(discriminate) Hv1).
    by rewrite Hs.
  - rewrite (current_engine_value tc _ _ "flash.proxy.addr" _
               ltac:(apply not_tls_engine_key; discriminate)
               ltac:(discriminate) ltac:(discriminate) ltac:(discriminate)
               ltac:(discriminate) Hv2).
    by rewrite Hp.
  - rewrite (proj2 (proxy_value tc (inputCommon tc) _ "server.status-addr" _
               ltac:(apply not_tls_proxy_key; discriminate) Hx)).
    by rewrite Hst.
Qed.

End MoreAddresses.

(** X6 at a heterogeneous cluster without local TiDB across Kubernetes
    clusters: the peer service of the reference cluster. *)
Lemma tidb_status_addr_resolution_witness :
  commonGet "flash.tidb_status_addr"
    (@getTiFlashConfigV2 sampleExternals (heterogeneousCluster true None))
  = Some (VString "ref-tidb-peer.ref-ns.svc.cluster.local:10080").
Proof.
  exact (proj1 (@tidb_status_addr_resolution sampleExternals
                  (heterogeneousCluster true None) eq_refl)).
Defined.

(** X7 at an IPv6 cluster with an empty partial input. *)
Lemma listen_addresses_witness :
  commonGet "flash.service_addr"
    (@getTiFlashConfig sampleExternals
       (sampleCluster "v5.3.9" 1 false true None))
  = Some (VString "[::]:3930").
Proof.
  exact (proj1 (proj1 (@listen_addresses sampleExternals
                         (sampleCluster "v5.3.9" 1 false true None)
                         eq_refl eq_refl eq_refl))).
Defined.

(** ** Certificates *)

Section Certificates.
Context `{Externals}.

(** The legacy defaults have no security key. *)
Lemma legacy_security_table {C} (tc : TidbCluster C) :
  let D := legacyCommonDefaults tc ∅ in
  D !! "security.cert_allowed_cn" = None
  ∧ D !! "security.ca_path" = None.
Proof.
  destruct tc as [name ns [cd ref ipv6 tf] ver het across nopd notidb tls img pol].
  cbv zeta.
  unfold legacyCommonDefaults, setTiFlashCommonConfigDefault.
  cbn [Spec Cluster Name Namespace ClusterDomain PreferIPv6 WithoutLocalPD
       WithoutLocalTiDB AcrossK8s].
  destruct ipv6, across, ref as [r|], nopd, notidb; vm_compute;
    repeat split; reflexivity.
Qed.
(** The TLS step of either dialect on the proxy document [p] for an
    engine document that holds [cn] at [security.cert_allowed_cn]. *)
Lemma tls_proxy_lookups (p : gmap string Value) (cn : option Value) :
  let out :=
    match cn,
          (<["security.key-path" := keyPath]>
             (<["security.cert-path" := certPath]>
                (<["security.ca-path" := caPath]> p)))
            !! "security.cert-allowed-cn"
    with
    | Some w, None =>
        <["security.cert-allowed-cn" := w]>
          (<["security.key-path" := keyPath]>
             (<["security.cert-path" := certPath]>
                (<["security.ca-path" := caPath]> p)))
    | _, _ =>
        <["security.key-path" := keyPath]>
          (<["security.cert-path" := certPath]>
             (<["security.ca-path" := caPath]> p))
    end in
  out !! "security.ca-path" = Some caPath
  ∧ out !! "security.cert-path" = Some certPath
  ∧ out !! "security.key-path" = Some keyPath
  ∧ out !! "security.cert-allowed-cn"
    = match p !! "security.cert-allowed-cn" with
      | Some v => Some v
      | None => cn
      end.
Proof.
  cbv zeta. lookups.
  destruct cn as [w|], (p !! "security.cert-allowed-cn") as [v|] eqn:Hp;
    repeat split; lookups; try done.
Qed.

(** X8.  With TLS enabled, both dialects point the engine and the proxy at
    the certificate files under the TLS mount path, whatever the partial
    input holds at these keys, and hand the engine's
    [security.cert_allowed_cn] to the proxy as [security.cert-allowed-cn]
    unless the proxy input has a value of its own. *)
Theorem tls_certificates (tc : TidbCluster TiFlashConfigWraper) :
  IsTLSClusterEnabled tc = true →
  ∀ out, out = getTiFlashConfig tc ∨ out = getTiFlashConfigV2 tc →
  commonGet "security.ca_path" out = Some caPath
  ∧ commonGet "security.cert_path" out = Some certPath
  ∧ commonGet "security.key_path" out = Some keyPath
  ∧ proxyGet "security.ca-path" out = Some caPath
  ∧ proxyGet "security.cert-path" out = Some certPath
  ∧ proxyGet "security.key-path" out = Some keyPath
  ∧ commonGet "security.cert_allowed_cn" out
    = commonGet "security.cert_allowed_cn" (specConfig tc)
  ∧ proxyGet "security.cert-allowed-cn" out
    = match proxyGet "security.cert-allowed-cn" (specConfig tc) with
      | Some v => Some v
      | None => commonGet "security.cert_allowed_cn" (specConfig tc)
      end.
Proof.
  intros Htls out Hout.
  rewrite !commonGet_specConfig, !proxyGet_specConfig.
  assert (legacyCommonDefaults tc
            (getTiFlashConfig_storage (StorageClaims (TiFlash (Spec tc)))
               (inputCommon tc)) !! "security.cert_allowed_cn"
          = inputCommon tc !! "security.cert_allowed_cn") as Hlc.
  { rewrite (defaulting_lookup _ _ _ (defaulting_legacyCommon tc)).
    rewrite storage_lookup_ne by discriminate.
    destruct (legacy_security_table tc) as (-> & _).
    by destruct (inputCommon tc !! "security.cert_allowed_cn"). }
  assert (getTiFlashConfigV2_common tc (inputCommon tc)
            !! "security.cert_allowed_cn"
          = inputCommon tc !! "security.cert_allowed_cn") as Hvc.
  { unfold getTiFlashConfigV2_common.
    rewrite (defaulting_lookup _ _ _ (defaulting_V2_defaults tc)).
    rewrite V2_storage_lookup_ne by discriminate.
    destruct (current_default_table_more tc)
      as (_ & _ & _ & _ & _ & _ & _ & _ & _ & _ & _ & ->).
    by destruct (inputCommon tc !! "security.cert_allowed_cn"). }
  assert (legacyProxyDefaults tc (inputProxy tc) !! "security.cert-allowed-cn"
          = inputProxy tc !! "security.cert-allowed-cn") as Hp.
  { rewrite (defaulting_lookup _ _ _ (defaulting_legacyProxy tc)).
    destruct (proxy_default_table tc) as (_ & _ & _ & _ & _ & ->).
    by destruct (inputProxy tc !! "security.cert-allowed-cn"). }
  destruct Hout as [-> | ->].
  - rewrite !commonGet_getTiFlashConfig, !proxyGet_getTiFlashConfig.
    unfold legacyDocuments. rewrite Htls.
    revert Hlc Hp.
    generalize (legacyCommonDefaults tc
      (getTiFlashConfig_storage (StorageClaims (TiFlash (Spec tc)))
         (inputCommon tc))).
    generalize (legacyProxyDefaults tc (inputProxy tc)).
    intros yp yc Hlc Hp.
    unfold getTiFlashConfig_tls, Set_, Del, Get. cbn [fst snd].
    fold caPath certPath keyPath.
    rewrite <- Hp.
    destruct (tls_proxy_lookups yp
                (<["security.key_path" := keyPath]>
                   (<["security.cert_path" := certPath]>
                      (<["security.ca_path" := caPath]> yc))
                   !! "security.cert_allowed_cn"))
      as (-> & -> & -> & ->).
    lookups. rewrite Hlc. done.
  - rewrite !commonGet_getTiFlashConfigV2, !proxyGet_getTiFlashConfigV2.
    unfold currentDocuments. rewrite Htls.
    change (getTiFlashConfigV2_proxy tc (inputProxy tc))
      with (legacyProxyDefaults tc (inputProxy tc)).
    revert Hvc Hp.
    generalize (getTiFlashConfigV2_common tc (inputCommon tc)).
    generalize (legacyProxyDefaults tc (inputProxy tc)).
    intros yp yc Hvc Hp.
    unfold getTiFlashConfigV2_tls, Set_, Del, Get. cbn [fst snd].
    fold caPath certPath keyPath.
    rewrite <- Hp.
    destruct (tls_proxy_lookups yp
                (delete "tcp_port" (delete "http_port"
                  (SetIfNil "https_port" (VInt 8123)
                     (SetIfNil "tcp_port_secure" (VInt 9000)
                        (<["security.key_path" := keyPath]>
                           (<["security.cert_path" := certPath]>
                              (<["security.ca_path" := caPath]> yc))))))
                   !! "security.cert_allowed_cn"))
      as (-> & -> & -> & ->).
    lookups. rewrite Hvc. done.
Qed.

End Certificates.

(** X8 at a TLS cluster whose engine input names the allowed common
    name: the proxy of the current dialect gets it. *)
Lemma tls_certificates_witness :
  proxyGet "security.cert-allowed-cn"
    (@getTiFlashConfigV2 sampleExternals
       (sampleCluster "v5.4.0" 1 true false
          (Some (engineOnly "security.cert_allowed_cn" (VStrings ["TiDB"])))))
  = Some (VStrings ["TiDB"]).
Proof.
  exact (proj2 (proj2 (proj2 (proj2 (proj2 (proj2 (proj2
    (@tls_certificates sampleExternals
       (sampleCluster "v5.4.0" 1 true false
          (Some (engineOnly "security.cert_allowed_cn" (VStrings ["TiDB"]))))
       eq_refl _ (or_intror eq_refl))))))))).
Defined.
